(** * Authentication core of the prompt optimizer: a shallow embedding

    The development follows [src/lib/auth.ts], the edge variant of the
    session decoder ([lib/auth-edge.ts]), [src/lib/rate-limit.ts],
    [src/lib/validation.ts], the login / logout route handlers, the
    optimize route handler up to the start of its stream with the
    prompt builder of [lib/prompts.ts], and the commands of
    [src/scripts/manage-users.ts].

    Conventions of the embedding.
    - A JavaScript string is a [string] of bytes standing for its UTF-8
      text.  The runtime's [toLowerCase], [trim] and [length] follow
      Unicode.  Module [JS] has them on ASCII text, where they are
      exact; module [Rt] takes them as the operations of an arbitrary
      runtime and has the code over those, so that what is stated over
      [Rt] holds of the code for every text.
    - [Date.now()] is an integer number of milliseconds, a [Z].  A
      synchronous stretch of code (no [await] inside) runs within one
      reading of the clock; the two stretches of a call that awaits
      read it separately.
    - A JSON number keeps the decimal it was written as.  Where the
      code tests it (truthiness, the expiry against the clock, the
      range of a date) it is read as the nearest double, as
      [JSON.parse] reads it.
    - A [throw] is an explicit [Thrown] outcome and [try]/[catch] is a
      match on it.
    - Calls to the logger are dropped: they write to the console and
      return nothing. *)

From Stdlib Require Import ZArith NArith QArith List String Ascii Bool Lia.
From stdpp Require Import gmap strings.
Import ListNotations.

Local Open Scope string_scope.
Local Open Scope Z_scope.

(** ** Outcomes of code that may throw *)

Inductive Exn : Type :=
| TypeError
| SyntaxError
| RangeError
| IOError
| RuntimeError.

Inductive Outcome (A : Type) : Type :=
| Returned (a : A)
| Thrown (e : Exn).

Arguments Returned {A} a.
Arguments Thrown {A} e.

(** [try { o } catch { h }] *)
Definition tryCatch {A : Type} (o : Outcome A) (h : Exn -> A) : A :=
  match o with
  | Returned a => a
  | Thrown e => h e
  end.

(** ** The runtime's string primitives, on ASCII text

    [toLowerCase], [trim] and [strlen] below are what the runtime
    computes on ASCII text and nothing more: no case mapping beyond A
    to Z, no white space beyond ASCII, the length in bytes.  They serve
    the worked scenarios and the runtime [Rt.ascii]. *)

Module JS.

Definition code (c : ascii) : N := N_of_ascii c.

Definition between (lo hi : N) (c : ascii) : bool :=
  ((lo <=? code c) && (code c <=? hi))%N.

(** [String.prototype.toLowerCase], A to Z only *)
Definition lower_char (c : ascii) : ascii :=
  if between 65 90 c then ascii_of_N (code c + 32) else c.

Fixpoint toLowerCase (s : string) : string :=
  match s with
  | EmptyString => EmptyString
  | String c r => String (lower_char c) (toLowerCase r)
  end.

(** The ASCII white space removed by [String.prototype.trim]: TAB,
    LF, VT, FF, CR and the space. *)
Definition is_space (c : ascii) : bool :=
  between 9 13 c || (code c =? 32)%N.

Fixpoint trimStart (s : string) : string :=
  match s with
  | EmptyString => EmptyString
  | String c r => if is_space c then trimStart r else s
  end.

Fixpoint trimEnd (s : string) : string :=
  match s with
  | EmptyString => EmptyString
  | String c r =>
      match trimEnd r with
      | EmptyString => if is_space c then EmptyString else String c EmptyString
      | r' => String c r'
      end
  end.

Definition trim (s : string) : string := trimEnd (trimStart s).

(** [s.length] of ASCII text *)
Definition strlen (s : string) : Z := Z.of_nat (String.length s).

Definition is_empty (s : string) : bool :=
  match s with EmptyString => true | _ => false end.

End JS.

(** ** base64url, as [Buffer.from(s, 'base64url')] and
       [buf.toString('base64url')] compute it *)

Module Base64.

Import JS.

(** The decoder accepts both the URL-safe and the standard alphabet. *)
Definition unbase64 (c : ascii) : option N :=
  if between 65 90 c then Some (code c - 65)%N
  else if between 97 122 c then Some (code c - 71)%N
  else if between 48 57 c then Some (code c + 4)%N
  else if ((code c =? 45) || (code c =? 43))%N then Some 62%N
  else if ((code c =? 95) || (code c =? 47))%N then Some 63%N
  else None.

Definition base64url_char (v : N) : ascii :=
  if (v <? 26)%N then ascii_of_N (v + 65)
  else if (v <? 52)%N then ascii_of_N (v + 71)
  else if (v <? 62)%N then ascii_of_N (v - 4)
  else if (v =? 62)%N then "-"%char
  else "_"%char.

(** Characters outside the alphabet are skipped; decoding stops at the
    first padding character. *)
Fixpoint sextets (s : string) : list N :=
  match s with
  | EmptyString => []
  | String c r =>
      if (code c =? 61)%N then []
      else match unbase64 c with
           | Some v => v :: sextets r
           | None => sextets r
           end
  end.

Definition byte1 (a b : N) : ascii := ascii_of_N (a * 4 + b / 16).
Definition byte2 (b c : N) : ascii := ascii_of_N ((b mod 16) * 16 + c / 4).
Definition byte3 (c d : N) : ascii := ascii_of_N ((c mod 4) * 64 + d).

Fixpoint bytes_of_sextets (l : list N) : string :=
  match l with
  | a :: b :: c :: d :: r =>
      String (byte1 a b) (String (byte2 b c) (String (byte3 c d) (bytes_of_sextets r)))
  | [a; b; c] => String (byte1 a b) (String (byte2 b c) EmptyString)
  | [a; b] => String (byte1 a b) EmptyString
  | _ => EmptyString
  end.

Definition decode (s : string) : string := bytes_of_sextets (sextets s).

Fixpoint encode (bytes : string) : string :=
  match bytes with
  | EmptyString => EmptyString
  | String x EmptyString =>
      String (base64url_char (code x / 4))
        (String (base64url_char ((code x mod 4) * 16)) EmptyString)
  | String x (String y EmptyString) =>
      String (base64url_char (code x / 4))
        (String (base64url_char ((code x mod 4) * 16 + code y / 16))
           (String (base64url_char ((code y mod 16) * 4)) EmptyString))
  | String x (String y (String z r)) =>
      String (base64url_char (code x / 4))
        (String (base64url_char ((code x mod 4) * 16 + code y / 16))
           (String (base64url_char ((code y mod 16) * 4 + code z / 64))
              (String (base64url_char (code z mod 64)) (encode r))))
  end.

End Base64.

(** ** JSON values, [JSON.parse] and [JSON.stringify] *)

Module Json.

Import JS.

Set Warnings "-register-all".

(** A number keeps the decimal it was written as: [JNum m e] is
    [m * 10^e].  Session and lockout times are integers, [JNum n 0]. *)
Inductive JSON : Type :=
| JNull
| JBool (b : bool)
| JNum (m e : Z)
| JStr (s : string)
| JArr (items : list JSON)
| JObj (fields : list (string * JSON)).

(** *** Property access, truthiness, [typeof] *)

Fixpoint assoc (k : string) (fields : list (string * JSON)) : option JSON :=
  match fields with
  | [] => None
  | (k', v) :: r => if String.eqb k k' then Some v else assoc k r
  end.

(** [v.k]: [None] is [undefined]; reading a property of [null] throws. *)
Definition getProp (v : JSON) (k : string) : Outcome (option JSON) :=
  match v with
  | JNull => Thrown TypeError
  | JObj fields => Returned (assoc k fields)
  | _ => Returned None
  end.

(** [JSON.parse] reads a number as the nearest double, and a written
    value of magnitude at most [2^-1075], half the least double above
    0, is read as 0. *)
Definition reads_as_zero (m e : Z) : bool :=
  if 0 <=? e then m =? 0 else Z.abs m * 2 ^ 1075 <=? 10 ^ (- e).

Definition truthy (v : option JSON) : bool :=
  match v with
  | None => false
  | Some JNull => false
  | Some (JBool b) => b
  | Some (JNum m e) => negb (reads_as_zero m e)
  | Some (JStr s) => negb (is_empty s)
  | Some (JArr _) => true
  | Some (JObj _) => true
  end.

Definition is_string (v : option JSON) : bool :=
  match v with Some (JStr _) => true | _ => false end.

Definition is_number (v : option JSON) : bool :=
  match v with Some (JNum _ _) => true | _ => false end.

(** Half the distance from [x] to the double next below it, in units
    of [2^-54], for an integer [0 < x < 2^52]: the distance is
    [2^(p-52)], [p] the binary logarithm of [x], or half of that when
    [x] is a power of two. *)
Definition half_gap (x : Z) : Z :=
  let p := Z.log2 x in
  if x =? 2 ^ p then 2 ^ p else 2 ^ (p + 1).

(** [x > y] for an integer [x] and the number [y] written [m * 10^e].
    [JSON.parse] reads [y] as the nearest double, ties to the even one.
    A reading [x] of the clock has [0 < x < 2^52]; what is written in
    the upper half of the gap below such an [x], the middle included,
    is read as [x] itself, and what is written farther below as
    something less.  Outside the readings of the clock the comparison
    is left exact. *)
Definition gt_num (x m e : Z) : bool :=
  if (0 <? x) && (x <? 2 ^ 52) then
    let bound := x * 2 ^ 54 - half_gap x in
    if 0 <=? e then m * 10 ^ e * 2 ^ 54 <? bound else m * 2 ^ 54 <? bound * 10 ^ (- e)
  else if 0 <=? e then m * 10 ^ e <? x
  else m <? x * 10 ^ (- e).

(** *** Parsing *)

Fixpoint skip_ws (s : string) : string :=
  match s with
  | String c r =>
      if ((code c =? 32) || (code c =? 9) || (code c =? 10) || (code c =? 13))%N
      then skip_ws r else s
  | EmptyString => s
  end.

Definition is_digit (c : ascii) : bool := between 48 57 c.

Definition digit_val (c : ascii) : Z := Z.of_N (code c) - 48.

Definition hex_val (c : ascii) : option N :=
  if between 48 57 c then Some (code c - 48)%N
  else if between 97 102 c then Some (code c - 87)%N
  else if between 65 70 c then Some (code c - 55)%N
  else None.

(** The bytes of one UTF-16 code unit written as [\uXXXX]. *)
Definition utf8_of_unit (u : N) : string :=
  if (u <? 128)%N then String (ascii_of_N u) EmptyString
  else if (u <? 2048)%N then
    String (ascii_of_N (192 + u / 64)) (String (ascii_of_N (128 + u mod 64)) EmptyString)
  else
    String (ascii_of_N (224 + u / 4096))
      (String (ascii_of_N (128 + (u / 64) mod 64))
         (String (ascii_of_N (128 + u mod 64)) EmptyString)).

(** The characters of a string literal after the opening quote, up to
    and including the closing quote. *)
Fixpoint parse_chars (s : string) : option (string * string) :=
  match s with
  | EmptyString => None
  | String c r =>
      if (code c =? 34)%N then Some (EmptyString, r)
      else if (code c <? 32)%N then None
      else if (code c =? 92)%N then
        match r with
        | String e r1 =>
            let plain (x : N) :=
              match parse_chars r1 with
              | Some (t, rest) => Some (String (ascii_of_N x) t, rest)
              | None => None
              end in
            if (code e =? 34)%N then plain 34%N
            else if (code e =? 92)%N then plain 92%N
            else if (code e =? 47)%N then plain 47%N
            else if (code e =? 98)%N then plain 8%N
            else if (code e =? 102)%N then plain 12%N
            else if (code e =? 110)%N then plain 10%N
            else if (code e =? 114)%N then plain 13%N
            else if (code e =? 116)%N then plain 9%N
            else if (code e =? 117)%N then
              match r1 with
              | String h1 (String h2 (String h3 (String h4 r2))) =>
                  match hex_val h1, hex_val h2, hex_val h3, hex_val h4 with
                  | Some a, Some b, Some c', Some d =>
                      match parse_chars r2 with
                      | Some (t, rest) =>
                          Some (utf8_of_unit (a * 4096 + b * 256 + c' * 16 + d) ++ t, rest)
                      | None => None
                      end
                  | _, _, _, _ => None
                  end
              | _ => None
              end
            else None
        | EmptyString => None
        end
      else
        match parse_chars r with
        | Some (t, rest) => Some (String c t, rest)
        | None => None
        end
  end.

(** A run of digits: the accumulated value, how many digits were read,
    and what follows. *)
Fixpoint digits (acc : Z) (n : Z) (s : string) : Z * Z * string :=
  match s with
  | String c r => if is_digit c then digits (acc * 10 + digit_val c) (n + 1) r else (acc, n, s)
  | EmptyString => (acc, n, s)
  end.

(** The integer part: a single [0], or a non-empty run not starting
    with [0]. *)
Definition parse_int (s : string) : option (Z * string) :=
  match s with
  | String c r =>
      if (code c =? 48)%N then Some (0, r)
      else if is_digit c then
        match digits 0 0 s with (v, _, rest) => Some (v, rest) end
      else None
  | EmptyString => None
  end.

Definition parse_frac (m : Z) (s : string) : option (Z * Z * string) :=
  match s with
  | String c r =>
      if (code c =? 46)%N then
        match digits m 0 r with
        | (v, n, rest) => if n =? 0 then None else Some (v, n, rest)
        end
      else Some (m, 0, s)
  | EmptyString => Some (m, 0, s)
  end.

Definition parse_exp (s : string) : option (Z * string) :=
  match s with
  | String c r =>
      if ((code c =? 101) || (code c =? 69))%N then
        let '(sign, r1) :=
          match r with
          | String d r' =>
              if (code d =? 45)%N then (-1, r')
              else if (code d =? 43)%N then (1, r')
              else (1, r)
          | EmptyString => (1, r)
          end in
        match digits 0 0 r1 with
        | (v, n, rest) => if n =? 0 then None else Some (sign * v, rest)
        end
      else Some (0, s)
  | EmptyString => Some (0, s)
  end.

Definition parse_number (s : string) : option (JSON * string) :=
  let '(sign, s1) :=
    match s with
    | String c r => if (code c =? 45)%N then (-1, r) else (1, s)
    | EmptyString => (1, s)
    end in
  match parse_int s1 with
  | None => None
  | Some (i, s2) =>
      match parse_frac i s2 with
      | None => None
      | Some (m, n, s3) =>
          match parse_exp s3 with
          | None => None
          | Some (e, s4) => Some (JNum (sign * m) (e - n), s4)
          end
      end
  end.

Fixpoint strip (lit : string) (s : string) : option string :=
  match lit, s with
  | EmptyString, _ => Some s
  | String a l, String b r => if Ascii.eqb a b then strip l r else None
  | String _ _, EmptyString => None
  end.

(** A repeated key keeps its first position and takes the last value. *)
Fixpoint obj_set (k : string) (v : JSON) (fields : list (string * JSON))
  : list (string * JSON) :=
  match fields with
  | [] => [(k, v)]
  | (k', v') :: r => if String.eqb k k' then (k', v) :: r else (k', v') :: obj_set k v r
  end.

(** One level of fuel is spent per value, element and member. *)
Fixpoint parse_value (fuel : nat) (s : string) : option (JSON * string) :=
  match fuel with
  | O => None
  | S f =>
      match skip_ws s with
      | EmptyString => None
      | String c r as s' =>
          if (code c =? 123)%N then
            match skip_ws r with
            | String c1 r1 as r' =>
                if (code c1 =? 125)%N then Some (JObj [], r1)
                else parse_members f [] r'
            | EmptyString => None
            end
          else if (code c =? 91)%N then
            match skip_ws r with
            | String c1 r1 as r' =>
                if (code c1 =? 93)%N then Some (JArr [], r1)
                else parse_elements f [] r'
            | EmptyString => None
            end
          else if (code c =? 34)%N then
            match parse_chars r with
            | Some (t, rest) => Some (JStr t, rest)
            | None => None
            end
          else if (code c =? 116)%N then
            match strip "rue" r with Some rest => Some (JBool true, rest) | None => None end
          else if (code c =? 102)%N then
            match strip "alse" r with Some rest => Some (JBool false, rest) | None => None end
          else if (code c =? 110)%N then
            match strip "ull" r with Some rest => Some (JNull, rest) | None => None end
          else parse_number s'
      end
  end

with parse_elements (fuel : nat) (acc : list JSON) (s : string) : option (JSON * string) :=
  match fuel with
  | O => None
  | S f =>
      match parse_value f s with
      | None => None
      | Some (v, rest) =>
          match skip_ws rest with
          | String c r =>
              if (code c =? 44)%N then parse_elements f (acc ++ [v]) r
              else if (code c =? 93)%N then Some (JArr (acc ++ [v]), r)
              else None
          | EmptyString => None
          end
      end
  end

with parse_members (fuel : nat) (acc : list (string * JSON)) (s : string)
  : option (JSON * string) :=
  match fuel with
  | O => None
  | S f =>
      match skip_ws s with
      | String q r0 =>
          if (code q =? 34)%N then
            match parse_chars r0 with
            | None => None
            | Some (k, r1) =>
                match skip_ws r1 with
                | String c r2 =>
                    if (code c =? 58)%N then
                      match parse_value f r2 with
                      | None => None
                      | Some (v, rest) =>
                          match skip_ws rest with
                          | String d r3 =>
                              if (code d =? 44)%N then parse_members f (obj_set k v acc) r3
                              else if (code d =? 125)%N then Some (JObj (obj_set k v acc), r3)
                              else None
                          | EmptyString => None
                          end
                      end
                    else None
                | EmptyString => None
                end
            end
          else None
      | EmptyString => None
      end
  end.

(** [JSON.parse]: one value, white space around it, nothing else.
    [None] is the [SyntaxError]. *)
Definition parse (s : string) : option JSON :=
  match parse_value (2 * String.length s + 2) s with
  | Some (v, rest) => if is_empty (skip_ws rest) then Some v else None
  | None => None
  end.

(** *** Printing *)

Definition dquote : ascii := "034"%char.

Definition hex_char (v : N) : ascii :=
  if (v <? 10)%N then ascii_of_N (v + 48) else ascii_of_N (v + 87).

Definition escape_char (c : ascii) : string :=
  let n := code c in
  if (n =? 34)%N then String "\" (String dquote EmptyString)
  else if (n =? 92)%N then "\\"
  else if (n =? 8)%N then "\b"
  else if (n =? 12)%N then "\f"
  else if (n =? 10)%N then "\n"
  else if (n =? 13)%N then "\r"
  else if (n =? 9)%N then "\t"
  else if (n <? 32)%N then
    "\u00" ++ String (hex_char (n / 16)) (String (hex_char (n mod 16)) EmptyString)
  else String c EmptyString.

Fixpoint escape (s : string) : string :=
  match s with
  | EmptyString => EmptyString
  | String c r => escape_char c ++ escape r
  end.

Definition quote (s : string) : string :=
  String dquote (escape s ++ String dquote EmptyString).

Definition digit_char (d : Z) : ascii := ascii_of_N (Z.to_N d + 48).

(** The decimal digits of [n >= 0] in front of [acc]. *)
Fixpoint digits_of (fuel : nat) (n : Z) (acc : string) : string :=
  let acc' := String (digit_char (n mod 10)) acc in
  match fuel with
  | O => acc'
  | S f => if n <? 10 then acc' else digits_of f (n / 10) acc'
  end.

Definition print_nat (n : Z) : string := digits_of (Z.to_nat (Z.log2 n)) n EmptyString.

Definition print_int (n : Z) : string :=
  if n <? 0 then String "-" (print_nat (- n)) else print_nat n.

(** An integer prints as its digits; any other decimal prints with its
    exponent. *)
Definition print_num (m e : Z) : string :=
  if e =? 0 then print_int m else print_int m ++ String "e" (print_int e).

Definition join_fields (parts : list string) : string :=
  match parts with
  | [] => EmptyString
  | p :: r => fold_left (fun acc x => acc ++ String "," x) r p
  end.

(** [JSON.stringify] on a value that came from [JSON.parse] or was
    built from strings and integers. *)
Fixpoint stringify (v : JSON) : string :=
  match v with
  | JNull => "null"
  | JBool true => "true"
  | JBool false => "false"
  | JNum m e => print_num m e
  | JStr s => quote s
  | JArr items => String "[" (join_fields (map stringify items) ++ "]")
  | JObj fields =>
      String "{"
        (join_fields (map (fun kv => quote (fst kv) ++ String ":" (stringify (snd kv))) fields)
           ++ "}")
  end.

End Json.

Import JS Json.

(** ** User store ([loadUsers], [findUser]) *)

(** What [fs.existsSync] and [fs.readFileSync] find at [users.json]. *)
Inductive UsersFile : Type :=
| FileAbsent
| FileUnreadable
| FileContent (text : string).

(** The callback of [data.users.filter]. *)
Definition valid_entry (user : JSON) : Outcome bool :=
  match getProp user "username" with
  | Thrown e => Thrown e
  | Returned name =>
      if negb (truthy name) then Returned false
      else match getProp user "passwordHash" with
           | Thrown e => Thrown e
           | Returned hash => Returned (truthy hash)
           end
  end.

Fixpoint filter_entries (users : list JSON) : Outcome (list JSON) :=
  match users with
  | [] => Returned []
  | u :: r =>
      match valid_entry u with
      | Thrown e => Thrown e
      | Returned keep =>
          match filter_entries r with
          | Thrown e => Thrown e
          | Returned r' => Returned (if keep then u :: r' else r')
          end
      end
  end.

(** The [try] block of [loadUsers]. *)
Definition loadUsers_try (file : UsersFile) : Outcome (list JSON) :=
  match file with
  | FileAbsent => Returned []
  | FileUnreadable => Thrown IOError
  | FileContent fileContent =>
      if is_empty (trim fileContent) then Returned []
      else
        match parse fileContent with
        | None => Thrown SyntaxError
        | Some data =>
            if negb (truthy (Some data)) then Returned []
            else
              match getProp data "users" with
              | Thrown e => Thrown e
              | Returned (Some (JArr users)) => filter_entries users
              | Returned _ => Returned []
              end
        end
  end.

Definition loadUsers (file : UsersFile) : list JSON :=
  tryCatch (loadUsers_try file) (fun _ => []).

(** [users.find(u => u.username.toLowerCase().trim() === normalizedUsername)] *)
Fixpoint find_entry (users : list JSON) (normalizedUsername : string)
  : Outcome (option JSON) :=
  match users with
  | [] => Returned None
  | u :: r =>
      match getProp u "username" with
      | Thrown e => Thrown e
      | Returned (Some (JStr name)) =>
          if String.eqb (trim (toLowerCase name)) normalizedUsername
          then Returned (Some u)
          else find_entry r normalizedUsername
      | Returned _ => Thrown TypeError
      end
  end.

Definition findUser (file : UsersFile) (username : string) : Outcome (option JSON) :=
  find_entry (loadUsers file) (trim (toLowerCase username)).

(** ** Lockout tracker ([isLockedOut], [recordFailedAttempt],
       [clearFailedAttempts]) *)

Record LoginAttempt : Type := mkAttempt {
  count : Z;
  lastAttempt : Z;
  lockedUntil : option Z
}.

Abbreviation Attempts := (gmap string LoginAttempt).

Definition maxAttempts : Z := 5.
Definition lockoutDuration : Z := 15 * 60 * 1000.
Definition attemptWindow : Z := 5 * 60 * 1000.

(** [attempts.lockedUntil && ...]: an absent field and the number 0 are
    both falsy. *)
Definition locked_field (a : LoginAttempt) : option Z :=
  match lockedUntil a with
  | Some l => if l =? 0 then None else Some l
  | None => None
  end.

Definition isLockedOut (now : Z) (username : string) (m : Attempts) : bool * Attempts :=
  match m !! toLowerCase username with
  | None => (false, m)
  | Some attempts =>
      match locked_field attempts with
      | Some l =>
          if now <? l then (true, m)
          else if l <=? now then (false, delete (toLowerCase username) m)
          else (false, m)
      | None => (false, m)
      end
  end.

Record LockoutInfo : Type := mkInfo {
  lockedOut : bool;
  remainingSeconds : option Z
}.

Definition recordFailedAttempt (now : Z) (username : string) (m : Attempts)
  : LockoutInfo * Attempts :=
  let normalizedUsername := toLowerCase username in
  match m !! normalizedUsername with
  | None =>
      (mkInfo false None, <[normalizedUsername := mkAttempt 1 now None]> m)
  | Some attempts =>
      if attemptWindow <? now - lastAttempt attempts then
        (mkInfo false None, <[normalizedUsername := mkAttempt 1 now None]> m)
      else
        let c := count attempts + 1 in
        if maxAttempts <=? c then
          (mkInfo true (Some ((lockoutDuration + 999) / 1000)),
           <[normalizedUsername := mkAttempt c now (Some (now + lockoutDuration))]> m)
        else
          (mkInfo false None,
           <[normalizedUsername := mkAttempt c now (lockedUntil attempts)]> m)
  end.

Definition clearFailedAttempts (username : string) (m : Attempts) : Attempts :=
  delete (toLowerCase username) m.

(** ** Credential verifier ([verifyCredentials]) *)

Record AuthCredentials : Type := mkCredentials {
  username : string;
  password : string
}.

(** Where a call stands when it reaches [await bcrypt.compare]: it has
    already returned, or it waits for the comparison of [candidate]
    against [hash]. *)
Inductive Pending : Type :=
| Settled (result : option JSON)
| Comparing (user : JSON) (candidate hash : string).

Section Verifier.

(** [bcrypt.compare] of the bcryptjs library, on two strings. *)
Variable bcrypt_compare : string -> string -> bool.

(** The code before the [await], inside the [try]. *)
Definition verify_start_try (file : UsersFile) (now : Z) (credentials : AuthCredentials)
    (m : Attempts) : Outcome Pending * Attempts :=
  let username := username credentials in
  let password := password credentials in
  if is_empty username || (strlen (trim username) =? 0) then (Returned (Settled None), m)
  else if is_empty password || (strlen password =? 0) then (Returned (Settled None), m)
  else
    let '(locked, m1) := isLockedOut now username m in
    if locked then (Returned (Settled None), m1)
    else
      match findUser file username with
      | Thrown e => (Thrown e, m1)
      | Returned None =>
          (Returned (Settled None), snd (recordFailedAttempt now username m1))
      | Returned (Some user) =>
          match getProp user "passwordHash" with
          | Thrown e => (Thrown e, m1)
          | Returned (Some (JStr hash)) => (Returned (Comparing user password hash), m1)
          | Returned _ => (Thrown RuntimeError, m1)
          end
      end.

(** The [catch] returns [null]. *)
Definition verify_start (file : UsersFile) (now : Z) (credentials : AuthCredentials)
    (m : Attempts) : Pending * Attempts :=
  let '(o, m1) := verify_start_try file now credentials m in
  (tryCatch o (fun _ => Settled None), m1).

(** The code after the [await], given what the comparison answered. *)
Definition verify_finish (now : Z) (credentials : AuthCredentials) (user : JSON)
    (isPasswordValid : bool) (m : Attempts) : option JSON * Attempts :=
  if negb isPasswordValid then
    (None, snd (recordFailedAttempt now (username credentials) m))
  else (Some user, clearFailedAttempts (username credentials) m).

(** One call run to its end with nothing else in between: the clock
    reads [now] before the comparison and [now'] after it. *)
Definition verifyCredentials (file : UsersFile) (now now' : Z)
    (credentials : AuthCredentials) (m : Attempts) : option JSON * Attempts :=
  match verify_start file now credentials m with
  | (Settled result, m1) => (result, m1)
  | (Comparing user candidate hash, m1) =>
      verify_finish now' credentials user (bcrypt_compare candidate hash) m1
  end.

End Verifier.

(** ** Session codec ([createSession], [decodeSession] in both variants,
       [destroySession]) *)

Definition SESSION_DURATION_MS : Z := 24 * 60 * 60 * 1000.

(** The [auth_session] cookie with the attributes it is set with. *)
Record Cookie : Type := mkCookie {
  value : string;
  httpOnly : bool;
  secure : bool;
  sameSite : string;
  expires : Z;
  path : string
}.

(** The cookie store of the request holds the [auth_session] cookie or
    nothing. *)
Definition CookieStore : Type := option Cookie.

(** [crypto.randomBytes(32).toString('base64url')]; [entropy] is what
    the random source hands over, or its failure. *)
Definition generateSessionToken (entropy : Outcome string) : Outcome string :=
  match entropy with
  | Returned bytes => Returned (Base64.encode bytes)
  | Thrown _ => Thrown RuntimeError
  end.

(** A property whose value is [undefined] is left out by
    [JSON.stringify]. *)
Definition field (k : string) (v : option JSON) : list (string * JSON) :=
  match v with
  | Some x => [(k, x)]
  | None => []
  end.

Definition sessionData (user_name displayName : option JSON) (token : string) (now : Z)
  : JSON :=
  JObj (field "username" user_name ++ field "displayName" displayName
        ++ [("token", JStr token);
            ("createdAt", JNum now 0);
            ("expiresAt", JNum (now + SESSION_DURATION_MS) 0)]).

(** [Buffer.from(JSON.stringify(sessionData)).toString('base64url')] *)
Definition encodeSession (session : JSON) : string :=
  Base64.encode (stringify session).

(** [createSession] returns the token and leaves the cookie in the
    store; every fault inside is logged and thrown again.  [cookies] is
    what [await cookies()] yields. *)
Definition createSession (entropy : Outcome string) (now : Z) (production : bool)
    (cookies : Outcome CookieStore) (user : JSON) : Outcome (string * CookieStore) :=
  match generateSessionToken entropy with
  | Thrown e => Thrown e
  | Returned sessionToken =>
      match getProp user "username" with
      | Thrown e => Thrown e
      | Returned name =>
          match getProp user "displayName" with
          | Thrown e => Thrown e
          | Returned display =>
              let encodedSession :=
                encodeSession (sessionData name display sessionToken now) in
              match cookies with
              | Thrown e => Thrown e
              | Returned _ =>
                  Returned
                    (sessionToken,
                     Some (mkCookie encodedSession true production "lax"
                             (now + SESSION_DURATION_MS) "/"))
              end
          end
      end
  end.

Module Edge.

(** The [try] block of [decodeSession] in the edge file; the value
    returned is the parsed structure itself. *)
Definition decodeSession_try (now : Z) (cookieValue : string) : Outcome (option JSON) :=
  let sessionJson := Base64.decode cookieValue in
  match parse sessionJson with
  | None => Thrown SyntaxError
  | Some session =>
      match getProp session "username" with
      | Thrown e => Thrown e
      | Returned name =>
          match getProp session "token", getProp session "expiresAt" with
          | Returned token, Returned expiresAt =>
              if negb (truthy name) || negb (truthy token) || negb (truthy expiresAt)
              then Returned None
              else if negb (is_string name) || negb (is_number expiresAt)
              then Returned None
              else
                match expiresAt with
                | Some (JNum m e) =>
                    if gt_num now m e then Returned None else Returned (Some session)
                | _ => Returned None
                end
          | Thrown e, _ => Thrown e
          | _, Thrown e => Thrown e
          end
      end
  end.

Definition decodeSession (now : Z) (cookieValue : string) : option JSON :=
  tryCatch (decodeSession_try now cookieValue) (fun _ => None).

Definition getAuthenticatedUser (now : Z) (request_cookie : option string) : option JSON :=
  match request_cookie with
  | None => None
  | Some v => if is_empty v then None else decodeSession now v
  end.

End Edge.

(** [new Date(x).toISOString()] throws a [RangeError] when [x] is
    farther than 8.64e15 ms from the epoch.  [x] is the double the
    number was read as: up to half a millisecond beyond the bound it is
    read as the bound. *)
Definition date_in_range (m e : Z) : bool :=
  if 0 <=? e then 2 * Z.abs m * 10 ^ e <=? 2 * 8640000000000000 + 1
  else 2 * Z.abs m <=? (2 * 8640000000000000 + 1) * 10 ^ (- e).

(** The [try] block of [decodeSession] in [auth.ts]: the same checks
    written out again, the log line of the expired branch, and the look
    into the users file. *)
Definition decodeSession_try (file : UsersFile) (now : Z) (cookieValue : string)
  : Outcome (option JSON) :=
  let sessionJson := Base64.decode cookieValue in
  match parse sessionJson with
  | None => Thrown SyntaxError
  | Some session =>
      match getProp session "username" with
      | Thrown e => Thrown e
      | Returned name =>
          match getProp session "token", getProp session "expiresAt" with
          | Returned token, Returned expiresAt =>
              if negb (truthy name) || negb (truthy token) || negb (truthy expiresAt)
              then Returned None
              else if negb (is_string name) || negb (is_number expiresAt)
              then Returned None
              else
                match name, expiresAt with
                | Some (JStr username), Some (JNum m e) =>
                    if gt_num now m e then
                      if date_in_range m e then Returned None else Thrown RangeError
                    else
                      match findUser file username with
                      | Thrown e => Thrown e
                      | Returned None => Returned None
                      | Returned (Some _) => Returned (Some session)
                      end
                | _, _ => Returned None
                end
          | Thrown e, _ => Thrown e
          | _, Thrown e => Thrown e
          end
      end
  end.

Definition decodeSession (file : UsersFile) (now : Z) (cookieValue : string) : option JSON :=
  tryCatch (decodeSession_try file now cookieValue) (fun _ => None).

Definition cookie_value (store : CookieStore) : option string :=
  match store with
  | Some c => if is_empty (value c) then None else Some (value c)
  | None => None
  end.

Definition getAuthenticatedUser (file : UsersFile) (now : Z)
    (request_cookie : option string) : option JSON :=
  match request_cookie with
  | None => None
  | Some v => if is_empty v then None else decodeSession file now v
  end.

Definition isAuthenticated (file : UsersFile) (now : Z) (cookies : Outcome CookieStore)
  : option JSON :=
  match cookies with
  | Thrown _ => None
  | Returned store =>
      match cookie_value store with
      | None => None
      | Some v => decodeSession file now v
      end
  end.

(** [destroySession]: the decode only feeds the log line; the cookie is
    deleted; a fault is logged and thrown again. *)
Definition destroySession (file : UsersFile) (now : Z) (cookies : Outcome CookieStore)
  : Outcome CookieStore :=
  match cookies with
  | Thrown e => Thrown e
  | Returned store =>
      let logged :=
        match cookie_value store with
        | Some v => decodeSession file now v
        | None => None
        end in
      Returned None
  end.

(** ** Input helpers ([sanitizeInput], [isValidUtf8], [getClientIp],
       [isValidLength]) *)

Module Validation.

(** [/[\x00-\x08\x0B\x0C\x0E-\x1F\x7F]/g] *)
Definition is_control (c : ascii) : bool :=
  between 0 8 c || between 11 12 c || between 14 31 c || (code c =? 127)%N.

Fixpoint remove_control (s : string) : string :=
  match s with
  | EmptyString => EmptyString
  | String c r => if is_control c then remove_control r else String c (remove_control r)
  end.

(** CR LF becomes LF *)
Fixpoint crlf_to_lf (s : string) : string :=
  match s with
  | EmptyString => EmptyString
  | String c r =>
      if (code c =? 13)%N then
        match r with
        | String d r' =>
            if (code d =? 10)%N then String d (crlf_to_lf r') else String c (crlf_to_lf r)
        | EmptyString => String c EmptyString
        end
      else String c (crlf_to_lf r)
  end.

(** a remaining CR becomes LF *)
Fixpoint cr_to_lf (s : string) : string :=
  match s with
  | EmptyString => EmptyString
  | String c r => String (if (code c =? 13)%N then ascii_of_N 10 else c) (cr_to_lf r)
  end.

Definition is_blank (c : ascii) : bool := ((code c =? 32) || (code c =? 9))%N.

(** [/[ \t]+/g] to one space: of a run of blanks only the last one
    leaves a space. *)
Fixpoint collapse_blanks (s : string) : string :=
  match s with
  | EmptyString => EmptyString
  | String c r =>
      if is_blank c then
        match r with
        | String d _ => if is_blank d then collapse_blanks r else String " " (collapse_blanks r)
        | EmptyString => String " " EmptyString
        end
      else String c (collapse_blanks r)
  end.

Definition three_newlines_ahead (s : string) : bool :=
  match s with
  | String a (String b (String c _)) =>
      ((code a =? 10) && (code b =? 10) && (code c =? 10))%N
  | _ => false
  end.

(** [/\n{4,}/g] to three newlines: of a run only the last three stay. *)
Fixpoint cap_newlines (s : string) : string :=
  match s with
  | EmptyString => EmptyString
  | String c r =>
      if (code c =? 10)%N && three_newlines_ahead r then cap_newlines r
      else String c (cap_newlines r)
  end.

Definition sanitizeInput (input : string) : string :=
  trim (cap_newlines (collapse_blanks (cr_to_lf (crlf_to_lf (remove_control input))))).

(** [TextEncoder.encode] writes well-formed UTF-8 for every string (a
    lone surrogate is replaced), so the fatal decoder that follows never
    throws. *)
Definition isValidUtf8 (input : string) : bool := true.

(** [s.split(',')]: a string without a comma is the one piece, the
    empty string included. *)
Fixpoint split_comma (s : string) : list string :=
  match s with
  | EmptyString => [EmptyString]
  | String c r =>
      if (code c =? 44)%N then EmptyString :: split_comma r
      else
        match split_comma r with
        | piece :: pieces => String c piece :: pieces
        | [] => [String c EmptyString]
        end
  end.

(** What [headers.get] answers for a header name: its value, or [null]
    when the request does not carry it. *)
Definition Headers : Type := string -> option string.

(** [getClientIp]: a header that is absent or empty is falsy. *)
Definition getClientIp (headers : Headers) : string :=
  let forwardedFor := headers "x-forwarded-for" in
  let realIp := headers "x-real-ip" in
  let cfConnectingIp := headers "cf-connecting-ip" in
  let first :=
    match forwardedFor with
    | Some list =>
        if is_empty list then None
        else
          match map trim (split_comma list) with
          | ip :: _ => if is_empty ip then None else Some ip
          | [] => None
          end
    | None => None
    end in
  match first with
  | Some ip => ip
  | None =>
      match cfConnectingIp with
      | Some (String c r) => String c r
      | _ =>
          match realIp with
          | Some (String c r) => String c r
          | _ => "unknown"
          end
      end
  end.

Definition isValidLength (input : string) (maxLength : Z) : bool :=
  strlen input <=? maxLength.

End Validation.

(** ** Rate limiter ([isRateLimited]) *)

Module RateLimit.

Definition WINDOW_MS : Z := 60000.
Definition MAX_REQUESTS : Z := 10.
Definition MAX_IPS_IN_MEMORY : Z := 10000.
Definition CLEANUP_BATCH_SIZE : Z := 1000.

(** The [Map] from address to timestamps, in insertion order (the order
    [requests.entries()] walks it in). *)
Definition Requests : Type := list (string * list Z).

Fixpoint get (ip : string) (m : Requests) : option (list Z) :=
  match m with
  | [] => None
  | (k, v) :: r => if String.eqb ip k then Some v else get ip r
  end.

(** [requests.set]: an existing key keeps its place. *)
Fixpoint set (ip : string) (v : list Z) (m : Requests) : Requests :=
  match m with
  | [] => [(ip, v)]
  | (k, w) :: r => if String.eqb ip k then (k, v) :: r else (k, w) :: set ip v r
  end.

Definition recent (now : Z) (timestamps : list Z) : list Z :=
  List.filter (fun t => now - t <? WINDOW_MS) timestamps.

Definition is_nil {A : Type} (l : list A) : bool :=
  match l with [] => true | _ => false end.

(** The [for] loop of [cleanupOldEntries] over the entries still to
    visit; the entry in hand is deleted or rewritten, and the loop
    breaks once [cleaned] reaches the batch size. *)
Fixpoint cleanup_loop (now : Z) (cleaned : Z) (entries : Requests) : Requests :=
  match entries with
  | [] => []
  | (ip, timestamps) :: rest =>
      let recent := recent now timestamps in
      if is_nil recent then
        let cleaned := cleaned + 1 in
        if CLEANUP_BATCH_SIZE <=? cleaned then rest else cleanup_loop now cleaned rest
      else
        (ip, recent)
          :: (if CLEANUP_BATCH_SIZE <=? cleaned then rest else cleanup_loop now cleaned rest)
  end.

Definition cleanupOldEntries (now : Z) (m : Requests) : Requests :=
  if MAX_IPS_IN_MEMORY <? Z.of_nat (length m) then cleanup_loop now 0 m else m.

(** [random] is the value [Math.random()] returns. *)
Definition isRateLimited (now : Z) (random : Q) (ip : string) (m : Requests)
  : bool * Requests :=
  let timestamps := match get ip m with Some ts => ts | None => [] end in
  let recentTimestamps := recent now timestamps in
  if MAX_REQUESTS <=? Z.of_nat (length recentTimestamps) then (true, m)
  else
    let m1 := set ip (recentTimestamps ++ [now]) m in
    (false, if Qlt_le_dec random (1 # 10) then cleanupOldEntries now m1 else m1).

Definition getRemainingRequests (now : Z) (ip : string) (m : Requests) : Z :=
  let timestamps := match get ip m with Some ts => ts | None => [] end in
  Z.max 0 (MAX_REQUESTS - Z.of_nat (length (recent now timestamps))).

End RateLimit.

(** ** Route handlers ([POST /api/auth/login], [POST /api/auth/logout]) *)

Record Response : Type := mkResponse {
  status : Z;
  body : JSON
}.

Definition error_response (message : string) (code : Z) : Response :=
  mkResponse code (JObj [("error", JStr message)]).

Section LoginRoute.

(** The two calls into [lib/auth] that the handler awaits, each with
    the state it may touch. *)
Variable verify : AuthCredentials -> Attempts -> option JSON * Attempts.
Variable create : JSON -> Outcome (string * CookieStore).

(** The outer [try] block; [request_body] is what [await req.json()]
    yields.  The state travels with the outcome: what was written before
    a throw stays written. *)
Definition login_try (request_body : Outcome JSON) (m : Attempts) (store : CookieStore)
  : Outcome Response * Attempts * CookieStore :=
  match request_body with
  | Thrown e => (Thrown e, m, store)
  | Returned body =>
      match getProp body "username", getProp body "password" with
      | Returned name, Returned pass =>
          match name with
          | Some (JStr username) =>
              if is_empty username || (strlen (trim username) =? 0)
              then (Returned (error_response "Username is required" 400), m, store)
              else
                match pass with
                | Some (JStr password) =>
                    if is_empty password || (strlen password =? 0)
                    then (Returned (error_response "Password is required" 400), m, store)
                    else if negb (Validation.isValidUtf8 username)
                            || negb (Validation.isValidUtf8 password)
                    then (Returned (error_response "Invalid character encoding" 400), m, store)
                    else
                      let username := Validation.sanitizeInput username in
                      if (strlen username <? 3) || (100 <? strlen username)
                      then (Returned (error_response "Invalid credentials" 401), m, store)
                      else if (strlen password <? 8) || (128 <? strlen password)
                      then (Returned (error_response "Invalid credentials" 401), m, store)
                      else
                        match verify (mkCredentials username password) m with
                        | (None, m1) =>
                            (Returned (error_response "Invalid credentials" 401), m1, store)
                        | (Some user, m1) =>
                            match create user with
                            | Thrown _ =>
                                (Returned (error_response "Failed to create session" 500),
                                 m1, store)
                            | Returned (_, store1) =>
                                match getProp user "username", getProp user "displayName" with
                                | Returned u, Returned d =>
                                    (Returned
                                       (mkResponse 200
                                          (JObj ([("success", JBool true);
                                                  ("message", JStr "Login successful")]
                                                 ++ field "username" u
                                                 ++ field "displayName" d))),
                                     m1, store1)
                                | Thrown e, _ => (Thrown e, m1, store1)
                                | _, Thrown e => (Thrown e, m1, store1)
                                end
                            end
                        end
                | _ => (Returned (error_response "Password is required" 400), m, store)
                end
          | _ => (Returned (error_response "Username is required" 400), m, store)
          end
      | Thrown e, _ => (Thrown e, m, store)
      | _, Thrown e => (Thrown e, m, store)
      end
  end.

Definition login_POST (request_body : Outcome JSON) (m : Attempts) (store : CookieStore)
  : Response * Attempts * CookieStore :=
  let '(o, m1, store1) := login_try request_body m store in
  (tryCatch o (fun _ => error_response "Invalid request" 400), m1, store1).

End LoginRoute.

Definition logout_POST (file : UsersFile) (now : Z) (cookies : Outcome CookieStore)
    (store : CookieStore) : Response * CookieStore :=
  match destroySession file now cookies with
  | Returned store1 =>
      (mkResponse 200 (JObj [("success", JBool true); ("message", JStr "Logout successful")]),
       store1)
  | Thrown _ => (error_response "Failed to logout" 500, store)
  end.

(** ** Calls in flight at once

    The server runs one synchronous stretch of code at a time.  A call
    of [verifyCredentials] is two such stretches, split at
    [await bcrypt.compare]; stretches of different calls interleave in
    any order. *)

Module EventLoop.

Inductive Call : Type :=
| Queued (credentials : AuthCredentials)
| Awaiting (credentials : AuthCredentials) (user : JSON) (isPasswordValid : bool)
| Resolved (result : option JSON).

Record World : Type := mkWorld {
  loginAttempts : Attempts;
  calls : list Call
}.

Section Loop.

Variable bcrypt_compare : string -> string -> bool.
Variable file : UsersFile.

(** Call number [i] runs its next stretch while the clock reads [now]. *)
Definition turn (i : nat) (now : Z) (w : World) : World :=
  match calls w !! i with
  | Some (Queued c) =>
      let '(p, m1) := verify_start file now c (loginAttempts w) in
      let next :=
        match p with
        | Settled result => Resolved result
        | Comparing user candidate hash => Awaiting c user (bcrypt_compare candidate hash)
        end in
      mkWorld m1 (<[i := next]> (calls w))
  | Some (Awaiting c user valid) =>
      let '(result, m1) := verify_finish now c user valid (loginAttempts w) in
      mkWorld m1 (<[i := Resolved result]> (calls w))
  | _ => w
  end.

Fixpoint run (schedule : list (nat * Z)) (w : World) : World :=
  match schedule with
  | [] => w
  | (i, now) :: rest => run rest (turn i now w)
  end.

End Loop.

End EventLoop.

(** ** Worked scenarios *)

(** A stand-in for bcryptjs in the scenarios below: the digest is the
    password behind the version prefix, and [compare] answers [true]
    for exactly the password that was hashed.  The general theorems
    quantify over the comparison instead. *)
Module IdealBcrypt.

Definition hash (password : string) : string := "$2b$12$" ++ password.

Definition compare (candidate digest : string) : bool :=
  String.eqb digest (hash candidate).

End IdealBcrypt.

Module Scenario.

Definition alice : JSON :=
  JObj [("username", JStr "alice");
        ("passwordHash", JStr (IdealBcrypt.hash "pw12345678"))].

(** The store [{users:[{username:alice, passwordHash:hash(pw12345678)}]}]
    as the text of [users.json]. *)
Definition store : UsersFile :=
  FileContent (stringify (JObj [("users", JArr [alice])])).

(** [s] with the byte at position [i] replaced by [c]. *)
Fixpoint replace_byte (i : nat) (c : ascii) (s : string) : string :=
  match s, i with
  | EmptyString, _ => EmptyString
  | String _ r, O => String c r
  | String x r, S j => String x (replace_byte j c r)
  end.

(** [s] and [t] have the same length and differ at exactly one
    position. *)
Fixpoint one_byte_apart (s t : string) : bool :=
  match s, t with
  | String a r, String b r' =>
      if Ascii.eqb a b then one_byte_apart r r' else String.eqb r r'
  | _, _ => false
  end.

Definition token : string := Base64.encode "0123456789abcdef0123456789abcdef".

Definition session : JSON := sessionData (Some (JStr "alice")) None token 1000.

Definition cookie : string := encodeSession session.

End Scenario.

(** ** Notions the properties are stated with *)

(** The revocation check in the words of the specification: the user
    name of the session still resolves in the user store. *)
Definition user_resolves (file : UsersFile) (session : JSON) : bool :=
  match getProp session "username" with
  | Returned (Some (JStr name)) =>
      match findUser file name with
      | Returned (Some _) => true
      | _ => false
      end
  | _ => false
  end.

(** The full decoder as the specification describes it: the restricted
    decoder followed by the revocation check. *)
Definition decode_then_revocation (file : UsersFile) (now : Z) (cookieValue : string)
  : option JSON :=
  match Edge.decodeSession now cookieValue with
  | Some session => if user_resolves file session then Some session else None
  | None => None
  end.

(** [v.k] where no throw is possible *)
Definition prop (v : JSON) (k : string) : option JSON :=
  match v with
  | JObj fields => assoc k fields
  | _ => None
  end.

(** An entry that has both a user name and a password hash. *)
Definition has_credentials (entry : JSON) : bool :=
  truthy (prop entry "username") && truthy (prop entry "passwordHash").

(** The [users] sequence of parsed file content, if it has one. *)
Definition users_sequence (data : JSON) : option (list JSON) :=
  match prop data "users" with
  | Some (JArr users) => Some users
  | _ => None
  end.

(** A users file that is absent, unreadable, empty, unparseable or
    without a [users] sequence. *)
Inductive degraded : UsersFile -> Prop :=
| degraded_absent : degraded FileAbsent
| degraded_unreadable : degraded FileUnreadable
| degraded_empty text : trim text = EmptyString -> degraded (FileContent text)
| degraded_unparseable text : parse text = None -> degraded (FileContent text)
| degraded_invalid text data :
    parse text = Some data -> users_sequence data = None -> degraded (FileContent text).

(** ** Requests used as examples *)

Module Example.

(** A login request whose user name is three spaces. *)
Definition blank_name_body : JSON :=
  JObj [("username", JStr "   "); ("password", JStr "password123")].

Definition verify : AuthCredentials -> Attempts -> option JSON * Attempts :=
  verifyCredentials IdealBcrypt.compare Scenario.store 0 0.

Definition create : JSON -> Outcome (string * CookieStore) :=
  createSession (Returned "0123456789abcdef0123456789abcdef") 0 false (Returned None).

End Example.

(** ** Calls one after the other *)

(** One call of [verifyCredentials] for a fixed user name: the clock
    before and after the comparison, and the password given. *)
Record LoginCall : Type := mkCall {
  started : Z;
  resumed : Z;
  given : string
}.

(** The calls run in order, each to its end before the next starts. *)
Fixpoint verify_all (bcrypt_compare : string -> string -> bool) (file : UsersFile)
    (username : string) (calls : list LoginCall) (m : Attempts)
  : list (option JSON) * Attempts :=
  match calls with
  | [] => ([], m)
  | c :: rest =>
      let '(result, m1) :=
        verifyCredentials bcrypt_compare file (started c) (resumed c)
          (mkCredentials username (given c)) m in
      let '(results, m2) := verify_all bcrypt_compare file username rest m1 in
      (result :: results, m2)
  end.

(** Times that do not go back. *)
Fixpoint nondecreasing (times : list Z) : Prop :=
  match times with
  | a :: (b :: _) as rest => a <= b /\ nondecreasing rest
  | _ => True
  end.

(** Times that do not go back and end no later than one attempt window
    after they begin. *)
Definition within_attempt_window (times : list Z) : Prop :=
  nondecreasing times
  /\ List.last times 0 - List.hd 0 times <= attemptWindow.

Module LockoutExample.

(** Five wrong passwords for [alice], one second apart. *)
Definition five_failures : list LoginCall :=
  [mkCall 1000 1300 "wrong-one"; mkCall 2000 2300 "wrong-two";
   mkCall 3000 3300 "wrong-three"; mkCall 4000 4300 "wrong-four";
   mkCall 5000 5300 "wrong-five"].

Definition after_five : Attempts :=
  snd (verify_all IdealBcrypt.compare Scenario.store "alice" five_failures ∅).

End LockoutExample.

(** ** Requests from one address, one after the other *)

Module RateLimitRuns.

Import RateLimit.

(** The timestamps kept for [ip]. *)
Definition stamps (ip : string) (m : Requests) : list Z :=
  match get ip m with
  | Some timestamps => timestamps
  | None => []
  end.

(** Each request is the clock reading and the random draw of its call. *)
Fixpoint limited_all (ip : string) (requests : list (Z * Q)) (m : Requests)
  : list bool * Requests :=
  match requests with
  | [] => ([], m)
  | (now, random) :: rest =>
      let '(limited, m1) := isRateLimited now random ip m in
      let '(answers, m2) := limited_all ip rest m1 in
      (limited :: answers, m2)
  end.

Definition ten_requests : list (Z * Q) :=
  [(1000, 1 # 2); (2000, 1 # 20); (3000, 1 # 2); (4000, 0 # 1); (5000, 1 # 2);
   (6000, 1 # 2); (7000, 1 # 20); (8000, 1 # 2); (9000, 9 # 10); (10000, 1 # 20)].

End RateLimitRuns.

(** ** Lockout states *)

(** No lock is in force for [username]. *)
Definition unlocked (username : string) (m : Attempts) : Prop :=
  match m !! toLowerCase username with
  | Some a => locked_field a = None
  | None => True
  end.

(** The state after [n] failures of one run: the count, the time of the
    last one, and the lock once the count has reached the threshold. *)
Definition tally (n t : Z) : LoginAttempt :=
  mkAttempt n t (if maxAttempts <=? n then Some (t + lockoutDuration) else None).

(** The failures counted for [key] so far. *)
Definition prior_count (key : string) (m : Attempts) : Z :=
  match m !! key with
  | Some a => count a
  | None => 0
  end.

(** Calls for one user name, all waiting to start. *)
Definition queued (username : string) (passwords : list string) : list EventLoop.Call :=
  map (fun pw => EventLoop.Queued (mkCredentials username pw)) passwords.

(** ** Stages of calls in flight *)

Module Interleaving.

Import EventLoop.

(** The call made with [pw] at a stage: 0 is waiting to start, 1 is
    waiting for the comparison of a wrong password, anything later has
    returned [null]. *)
Definition call_at (username : string) (user : JSON) (stage : nat) (pw : string) : Call :=
  match stage with
  | O => Queued (mkCredentials username pw)
  | S O => Awaiting (mkCredentials username pw) user false
  | _ => Resolved None
  end.

(** Every call of the world is at the stage [stage] gives it. *)
Definition staged (username : string) (user : JSON) (passwords : list string)
    (stage : nat -> nat) (w : World) : Prop :=
  forall i pw, passwords !! i = Some pw ->
               calls w !! i = Some (call_at username user (stage i) pw).

Definition advance (stage : nat -> nat) (i : nat) : nat -> nat :=
  fun j => if Nat.eqb j i then S (stage i) else stage j.

(** [c] failures are counted for [key], the last one not before [t0]. *)
Definition tracked (key : string) (t0 : Z) (m : Attempts) (c : Z) : Prop :=
  match m !! key with
  | Some a => count a = c /\ t0 <= lastAttempt a
  | None => c = 0
  end.

(** [c] failures are counted in an entry for [key], which carries the
    lock once [c] has reached the threshold. *)
Definition counted (key : string) (t0 : Z) (m : Attempts) (c : Z) : Prop :=
  exists a,
    m !! key = Some a /\ count a = c /\ t0 <= lastAttempt a
    /\ (maxAttempts <= c -> lockedUntil a = Some (lastAttempt a + lockoutDuration)).

End Interleaving.

(** No lock is in force for [username], and its last counted failure,
    if there is one, is not before [t0]. *)
Definition fresh_since (username : string) (t0 : Z) (m : Attempts) : Prop :=
  match m !! toLowerCase username with
  | Some a => locked_field a = None /\ t0 <= lastAttempt a
  | None => True
  end.

Module RaceExample.

(** Four failures are already counted for [alice]. *)
Definition four_counted : Attempts := {[ "alice" := mkAttempt 4 900 None ]}.

(** Two calls with wrong passwords; the second starts first, both have
    started before either resumes. *)
Definition passwords : list string := ["bad-one"; "bad-two"].
Definition starts : list (nat * Z) := [(1%nat, 1000); (0%nat, 1001)].
Definition finishes : list (nat * Z) := [(0%nat, 1200); (1%nat, 1250)].

End RaceExample.

(** Text that goes on with a comma or a closing brace: what follows a
    member of an object. *)
Definition after_member (rest : string) : Prop :=
  exists c r, rest = String c r /\ (code c = 44 \/ code c = 125)%N.

(** ** Sessions used as examples *)

Module SessionExample.

Definition entropy : string := "0123456789abcdef0123456789abcdef".

(** The cookie of [Scenario.cookie] with the byte at position 39
    replaced: the first character of the token inside changes. *)
Definition tampered : string := Scenario.replace_byte 39 "B" Scenario.cookie.

Definition tampered_session : JSON :=
  sessionData (Some (JStr "alice")) None
    "ADEyMzQ1Njc4OWFiY2RlZjAxMjM0NTY3ODlhYmNkZWY" 1000.

End SessionExample.

(** ** Tactics *)

(** Read the fields of the credentials a call was made with. *)
Ltac read_credentials := cbn [username password].

(** Arithmetic with division and remainder by constants. *)
Ltac solve_div := zify; Z.to_euclidean_division_equations; lia.

(** Case on the condition of the first [if] in sight. *)
Ltac break_if :=
  match goal with
  | |- context [if ?b then _ else _] => destruct b eqn:?
  | H : context [if ?b then _ else _] |- _ => destruct b eqn:?
  end.

(** ** Limiter stores *)

Module RateLimitStore.

Import RateLimit.

(** No address is written twice: what a [Map] guarantees. *)
Fixpoint distinct (m : Requests) : Prop :=
  match m with
  | [] => True
  | (ip, _) :: rest => get ip rest = None /\ distinct rest
  end.

(** No address holds more than [MAX_REQUESTS] timestamps. *)
Definition bounded (m : Requests) : Prop :=
  Forall (fun entry => Z.of_nat (length (snd entry)) <= MAX_REQUESTS) m.

Definition well_kept (m : Requests) : Prop := distinct m /\ bounded m.

(** Two addresses, the first with one request still inside the window
    at time 70000 and one outside of it. *)
Definition two_addresses : Requests :=
  [("1.2.3.4", [5000; 65000]); ("5.6.7.8", [64000])].

End RateLimitStore.

(** ** Lockout states left by calls made one after the other *)

(** An entry as such calls leave it: between one and [maxAttempts]
    failures counted, a time that is not negative, and the lock exactly
    when the count has reached the threshold, ending [lockoutDuration]
    after the last failure. *)
Definition sound_attempt (a : LoginAttempt) : Prop :=
  1 <= count a <= maxAttempts
  /\ 0 <= lastAttempt a
  /\ lockedUntil a
     = if maxAttempts <=? count a then Some (lastAttempt a + lockoutDuration) else None.

Definition sound (m : Attempts) : Prop := map_Forall (fun _ a => sound_attempt a) m.

(** Fewer failures than the threshold are counted for the key. *)
Definition below_threshold (key : string) (m : Attempts) : Prop :=
  match m !! key with
  | Some a => count a < maxAttempts
  | None => True
  end.

(** Each time is more than one attempt window after the one before it,
    [t] being the one before the first. *)
Fixpoint spaced (t : Z) (times : list Z) : Prop :=
  match times with
  | [] => True
  | x :: rest => attemptWindow < x - t /\ spaced x rest
  end.

Module SlowExample.

(** Seven wrong passwords for [alice], six minutes apart. *)
Definition seven_failures : list LoginCall :=
  [mkCall 1000 1300 "guess-1"; mkCall 361000 361300 "guess-2";
   mkCall 721000 721300 "guess-3"; mkCall 1081000 1081300 "guess-4";
   mkCall 1441000 1441300 "guess-5"; mkCall 1801000 1801300 "guess-6";
   mkCall 2161000 2161300 "guess-7"].

End SlowExample.

Module SpellingExample.

(** [alice] is locked until 901000. *)
Definition alice_locked : Attempts :=
  {[ "alice" := mkAttempt 5 1000 (Some (1000 + lockoutDuration)) ]}.

(** Three failures counted for [alice], one for [bob]. *)
Definition two_names : Attempts :=
  <[ "bob" := mkAttempt 1 500 None ]> {[ "alice" := mkAttempt 3 1000 None ]}.

End SpellingExample.

Module UnknownExample.

(** Five calls for a name the store does not have. *)
Definition five_calls : list LoginCall :=
  [mkCall 1000 1300 "any-one"; mkCall 2000 2300 "any-two";
   mkCall 3000 3300 "any-three"; mkCall 4000 4300 "any-four";
   mkCall 5000 5300 "any-five"].

Definition after_five : Attempts :=
  snd (verify_all IdealBcrypt.compare Scenario.store "mallory" five_calls ∅).

End UnknownExample.

(** ** User stores used as examples *)

Module StoreExample.

(** An entry whose user name is the number 7, in front of [alice]. *)
Definition numbered : JSON :=
  JObj [("username", JNum 7 0); ("passwordHash", JStr "x")].

Definition numbered_first : UsersFile :=
  FileContent (stringify (JObj [("users", JArr [numbered; Scenario.alice])])).

(** [alice] with the number 12 where the hash should be. *)
Definition unhashed : JSON :=
  JObj [("username", JStr "alice"); ("passwordHash", JNum 12 0)].

Definition unhashed_alice : UsersFile :=
  FileContent (stringify (JObj [("users", JArr [unhashed])])).

End StoreExample.

(** ** Text as [sanitizeInput] leaves it *)

Module Clean.

Import Validation.

Definition is_cr (c : ascii) : bool := (code c =? 13)%N.
Definition is_tab (c : ascii) : bool := (code c =? 9)%N.
Definition is_lf (c : ascii) : bool := (code c =? 10)%N.
Definition is_sp (c : ascii) : bool := (code c =? 32)%N.

Fixpoint all_chars (p : ascii -> bool) (s : string) : bool :=
  match s with
  | EmptyString => true
  | String c r => p c && all_chars p r
  end.

Definition starts_with_space (s : string) : bool :=
  match s with
  | String c _ => is_sp c
  | EmptyString => false
  end.

(** No space is followed by a space. *)
Fixpoint no_double_space (s : string) : bool :=
  match s with
  | EmptyString => true
  | String c r => negb (is_sp c && starts_with_space r) && no_double_space r
  end.

(** No newline is followed by three newlines. *)
Fixpoint no_four_newlines (s : string) : bool :=
  match s with
  | EmptyString => true
  | String c r => negb (is_lf c && three_newlines_ahead r) && no_four_newlines r
  end.

(** The number of newlines the text begins with. *)
Fixpoint lf_run (s : string) : nat :=
  match s with
  | String c r => if is_lf c then S (lf_run r) else O
  | EmptyString => O
  end.

(** Neither a control character of the removed class nor a carriage
    return nor a tab. *)
Definition plain (c : ascii) : bool :=
  negb (is_control c) && negb (is_cr c) && negb (is_tab c).

(** Text with plain characters only, no two spaces in a row, no four
    newlines in a row and no white space at either end. *)
Definition clean (s : string) : bool :=
  all_chars plain s && no_double_space s && no_four_newlines s && String.eqb (trim s) s.

End Clean.

(** ** Prompt builder ([buildUserPrompt]) and [POST /api/optimize] up to
       the start of the stream *)

Definition MAX_PROMPT_LENGTH : Z := 10000.

Module ERROR_MESSAGES.

Definition MISSING_ROLE : string := "Please enter a role".
Definition MISSING_PROMPT : string := "Please enter a prompt".
Definition RATE_LIMITED : string :=
  "Too many requests. Please wait 60 seconds and try again.".
Definition SERVICE_CONFIG_ERROR : string :=
  "Service configuration error. Please contact support.".
Definition GENERIC_ERROR : string := "Something went wrong. Please try again.".

End ERROR_MESSAGES.

Definition blank_line : string := String (ascii_of_N 10) (String (ascii_of_N 10) EmptyString).

(** The two parts wrapped in tags, a blank line between them. *)
Definition tagged (role prompt : string) : string :=
  "<role>" ++ role ++ "</role>" ++ blank_line ++ "<prompt>" ++ prompt ++ "</prompt>".

Definition buildUserPrompt (role prompt : string) : string :=
  tagged (trim role) (trim prompt).

(** What the handler returns: a JSON response, or the event stream that
    carries the model's answer to [userMessage]. *)
Inductive Reply : Type :=
| Json (response : Response)
| EventStream (userMessage : string).

Section OptimizeRoute.

(** [ERROR_MESSAGES.PROMPT_TOO_LONG]; the number in it is written the
    way the locale of the runtime writes it. *)
Variable PROMPT_TOO_LONG : string.

(** The [try] block of the handler.  [request_body] is what
    [await req.json()] yields, [api_key] the value of
    [process.env.ANTHROPIC_API_KEY].  The session read at the top of
    the handler feeds the log lines only. *)
Definition optimize_try (request_body : Outcome JSON) (headers : Validation.Headers)
    (now : Z) (random : Q) (api_key : option string) (m : RateLimit.Requests)
  : Outcome Reply * RateLimit.Requests :=
  match request_body with
  | Thrown e => (Thrown e, m)
  | Returned body =>
      match getProp body "role", getProp body "prompt" with
      | Returned role, Returned prompt =>
          match role with
          | Some (JStr role) =>
              if is_empty role || (strlen (trim role) =? 0)
              then (Returned (Json (error_response ERROR_MESSAGES.MISSING_ROLE 400)), m)
              else
                match prompt with
                | Some (JStr prompt) =>
                    if is_empty prompt || (strlen (trim prompt) =? 0)
                    then (Returned (Json (error_response ERROR_MESSAGES.MISSING_PROMPT 400)), m)
                    else if MAX_PROMPT_LENGTH <? strlen prompt
                    then (Returned (Json (error_response PROMPT_TOO_LONG 400)), m)
                    else if negb (Validation.isValidUtf8 role)
                            || negb (Validation.isValidUtf8 prompt)
                    then (Returned (Json (error_response "Invalid character encoding" 400)), m)
                    else
                      let role := Validation.sanitizeInput role in
                      let prompt := Validation.sanitizeInput prompt in
                      if (strlen (trim role) =? 0) || (strlen (trim prompt) =? 0)
                      then (Returned
                              (Json (error_response "Input contains only invalid characters"
                                       400)), m)
                      else
                        let userMessage := buildUserPrompt role prompt in
                        let ip := Validation.getClientIp headers in
                        let '(limited, m1) := RateLimit.isRateLimited now random ip m in
                        if limited
                        then (Returned (Json (error_response ERROR_MESSAGES.RATE_LIMITED 429)),
                              m1)
                        else
                          match api_key with
                          | Some (String _ _) => (Returned (EventStream userMessage), m1)
                          | _ =>
                              (Returned
                                 (Json (error_response ERROR_MESSAGES.SERVICE_CONFIG_ERROR
                                          500)), m1)
                          end
                | _ => (Returned (Json (error_response ERROR_MESSAGES.MISSING_PROMPT 400)), m)
                end
          | _ => (Returned (Json (error_response ERROR_MESSAGES.MISSING_ROLE 400)), m)
          end
      | Thrown e, _ => (Thrown e, m)
      | _, Thrown e => (Thrown e, m)
      end
  end.

Definition optimize_POST (request_body : Outcome JSON) (headers : Validation.Headers)
    (now : Z) (random : Q) (api_key : option string) (m : RateLimit.Requests)
  : Reply * RateLimit.Requests :=
  let '(o, m1) := optimize_try request_body headers now random api_key m in
  (tryCatch o (fun _ => Json (error_response ERROR_MESSAGES.GENERIC_ERROR 500)), m1).

End OptimizeRoute.

(** ** Requests to the optimizer used as examples *)

Module OptimizeExample.

(** The text a runtime with an English locale gives the message. *)
Definition PROMPT_TOO_LONG : string := "Prompt is too long (max 10,000 characters)".

Definition forwarded (list : string) : Validation.Headers :=
  fun name => if String.eqb name "x-forwarded-for" then Some list else None.

Definition body : JSON :=
  JObj [("role", JStr "  reviewer  "); ("prompt", JStr (String (ascii_of_N 9) "check  this"))].

Definition no_role : JSON := JObj [("prompt", JStr "check this")].

End OptimizeExample.

(** No comma in the text. *)
Definition comma_free (s : string) : bool :=
  Clean.all_chars (fun c => negb (code c =? 44)%N) s.

(** ** The user management commands ([scripts/manage-users.ts])

    The commands work on the [users] array of the file they loaded and
    write it back; what is modelled is the array before and after.  The
    answers typed at the prompts, the hash [bcrypt.hash] gives and the
    time stamp are arguments. *)

Module ManageUsers.

Record User : Type := mkUser {
  username : string;
  passwordHash : string;
  displayName : option string;
  createdAt : option string;
  lastLogin : option string
}.

Inductive Refusal : Type :=
| NoUsers
| UsernameTooShort
| UsernameRequired
| AlreadyExists
| NotFound
| PasswordTooShort
| PasswordsDoNotMatch
| Cancelled.

(** A command ends with a message and nothing written, or with the
    array it saved. *)
Inductive Ending : Type :=
| Refused (why : Refusal)
| Saved (users : list User).

(** [users.find(u => u.username.toLowerCase() === normalizedUsername)] *)
Definition find (normalizedUsername : string) (users : list User) : option User :=
  List.find (fun u => String.eqb (toLowerCase (username u)) normalizedUsername) users.

(** [users.findIndex(...)], [None] for -1 *)
Fixpoint findIndex (normalizedUsername : string) (users : list User) : option nat :=
  match users with
  | [] => None
  | u :: rest =>
      if String.eqb (toLowerCase (username u)) normalizedUsername then Some O
      else option_map S (findIndex normalizedUsername rest)
  end.

(** [users.splice(index, 1)] *)
Definition splice (index : nat) (users : list User) : list User :=
  (firstn index users ++ skipn (S index) users)%list.

Definition addUser (users : list User)
    (username displayName password passwordConfirm passwordHash createdAt : string)
  : Ending :=
  if is_empty username || (strlen (trim username) <? 3) then Refused UsernameTooShort
  else
    let normalizedUsername := toLowerCase (trim username) in
    match find normalizedUsername users with
    | Some _ => Refused AlreadyExists
    | None =>
        if is_empty password || (strlen password <? 8) then Refused PasswordTooShort
        else if negb (String.eqb password passwordConfirm) then Refused PasswordsDoNotMatch
        else
          let newUser :=
            mkUser (trim username) passwordHash
              (if is_empty (trim displayName) then None else Some (trim displayName))
              (Some createdAt) None in
          Saved (users ++ [newUser])%list
    end.

Definition removeUser (users : list User) (username confirm : string) : Ending :=
  if (length users =? 0)%nat then Refused NoUsers
  else if is_empty username || (strlen (trim username) =? 0) then Refused UsernameRequired
  else
    let normalizedUsername := toLowerCase (trim username) in
    match findIndex normalizedUsername users with
    | None => Refused NotFound
    | Some userIndex =>
        if negb (String.eqb (toLowerCase confirm) "yes") then Refused Cancelled
        else Saved (splice userIndex users)
    end.

(** The record found is the one in the array: writing its hash writes
    the array. *)
Definition updatePassword (users : list User)
    (username password passwordConfirm passwordHash : string) : Ending :=
  if (length users =? 0)%nat then Refused NoUsers
  else if is_empty username || (strlen (trim username) =? 0) then Refused UsernameRequired
  else
    let normalizedUsername := toLowerCase (trim username) in
    match findIndex normalizedUsername users with
    | None => Refused NotFound
    | Some index =>
        if is_empty password || (strlen password <? 8) then Refused PasswordTooShort
        else if negb (String.eqb password passwordConfirm) then Refused PasswordsDoNotMatch
        else
          Saved (alter (fun user =>
                          mkUser (ManageUsers.username user) passwordHash (displayName user)
                            (createdAt user) (lastLogin user))
                   index users)
    end.

(** The lower-cased user names of the array. *)
Definition names (users : list User) : list string :=
  map (fun u => toLowerCase (username u)) users.

(** The record as [JSON.stringify] writes it and [JSON.parse] reads it
    back: a field that is [undefined] is left out. *)
Definition to_json (u : User) : JSON :=
  JObj ([("username", JStr (username u)); ("passwordHash", JStr (passwordHash u))]
        ++ field "displayName" (option_map JStr (displayName u))
        ++ field "createdAt" (option_map JStr (createdAt u))
        ++ field "lastLogin" (option_map JStr (lastLogin u)))%list.

Definition carol : User :=
  mkUser "Carol" (IdealBcrypt.hash "carol-secret") (Some "Carol C.") (Some "2025-01-01") None.

Definition dave : User :=
  mkUser "dave" (IdealBcrypt.hash "dave-secret") None (Some "2025-01-02") None.

Definition two_users : list User := [carol; dave].

End ManageUsers.

(** ** The embedding over the runtime's own string primitives

    [String.prototype.toLowerCase], [String.prototype.trim] and the
    [length] property follow Unicode: the full case mapping, the white
    space class of the language, the count of UTF-16 units.  [JS] above
    is their restriction to ASCII, exact on ASCII text and nowhere else.
    In this module the three are taken as they are, as the operations
    of a runtime, and the code is written out once more over an
    arbitrary runtime: what is proved of it is proved of the code for
    every text.  At the runtime [ascii] the definitions below are the
    ones given before. *)

Module Rt.

Class Runtime : Type := {
  toLowerCase : string -> string;
  trim : string -> string;
  strlen : string -> Z
}.

Definition ascii : Runtime :=
  {| toLowerCase := JS.toLowerCase; trim := JS.trim; strlen := JS.strlen |}.

Section Embedding.

Context {rt : Runtime}.

(** [!s || s.trim().length === 0] *)
Definition blank (s : string) : bool := is_empty s || (strlen (trim s) =? 0).

(** [!s || s.length === 0] *)
Definition missing (s : string) : bool := is_empty s || (strlen s =? 0).

(** *** [lib/auth.ts] *)

Definition loadUsers_try (file : UsersFile) : Outcome (list JSON) :=
  match file with
  | FileAbsent => Returned []
  | FileUnreadable => Thrown IOError
  | FileContent fileContent =>
      if is_empty (trim fileContent) then Returned []
      else
        match parse fileContent with
        | None => Thrown SyntaxError
        | Some data =>
            if negb (truthy (Some data)) then Returned []
            else
              match getProp data "users" with
              | Thrown e => Thrown e
              | Returned (Some (JArr users)) => filter_entries users
              | Returned _ => Returned []
              end
        end
  end.

Definition loadUsers (file : UsersFile) : list JSON :=
  tryCatch (loadUsers_try file) (fun _ => []).

Fixpoint find_entry (users : list JSON) (normalizedUsername : string)
  : Outcome (option JSON) :=
  match users with
  | [] => Returned None
  | u :: r =>
      match getProp u "username" with
      | Thrown e => Thrown e
      | Returned (Some (JStr name)) =>
          if String.eqb (trim (toLowerCase name)) normalizedUsername
          then Returned (Some u)
          else find_entry r normalizedUsername
      | Returned _ => Thrown TypeError
      end
  end.

Definition findUser (file : UsersFile) (username : string) : Outcome (option JSON) :=
  find_entry (loadUsers file) (trim (toLowerCase username)).

Definition isLockedOut (now : Z) (username : string) (m : Attempts) : bool * Attempts :=
  match m !! toLowerCase username with
  | None => (false, m)
  | Some attempts =>
      match locked_field attempts with
      | Some l =>
          if now <? l then (true, m)
          else if l <=? now then (false, delete (toLowerCase username) m)
          else (false, m)
      | None => (false, m)
      end
  end.

Definition recordFailedAttempt (now : Z) (username : string) (m : Attempts)
  : LockoutInfo * Attempts :=
  let normalizedUsername := toLowerCase username in
  match m !! normalizedUsername with
  | None =>
      (mkInfo false None, <[normalizedUsername := mkAttempt 1 now None]> m)
  | Some attempts =>
      if attemptWindow <? now - lastAttempt attempts then
        (mkInfo false None, <[normalizedUsername := mkAttempt 1 now None]> m)
      else
        let c := count attempts + 1 in
        if maxAttempts <=? c then
          (mkInfo true (Some ((lockoutDuration + 999) / 1000)),
           <[normalizedUsername := mkAttempt c now (Some (now + lockoutDuration))]> m)
        else
          (mkInfo false None,
           <[normalizedUsername := mkAttempt c now (lockedUntil attempts)]> m)
  end.

Definition clearFailedAttempts (username : string) (m : Attempts) : Attempts :=
  delete (toLowerCase username) m.

Section Verifier.

Variable bcrypt_compare : string -> string -> bool.

Definition verify_start_try (file : UsersFile) (now : Z) (credentials : AuthCredentials)
    (m : Attempts) : Outcome Pending * Attempts :=
  let username := username credentials in
  let password := password credentials in
  if blank username then (Returned (Settled None), m)
  else if missing password then (Returned (Settled None), m)
  else
    let '(locked, m1) := isLockedOut now username m in
    if locked then (Returned (Settled None), m1)
    else
      match findUser file username with
      | Thrown e => (Thrown e, m1)
      | Returned None =>
          (Returned (Settled None), snd (recordFailedAttempt now username m1))
      | Returned (Some user) =>
          match getProp user "passwordHash" with
          | Thrown e => (Thrown e, m1)
          | Returned (Some (JStr hash)) => (Returned (Comparing user password hash), m1)
          | Returned _ => (Thrown RuntimeError, m1)
          end
      end.

Definition verify_start (file : UsersFile) (now : Z) (credentials : AuthCredentials)
    (m : Attempts) : Pending * Attempts :=
  let '(o, m1) := verify_start_try file now credentials m in
  (tryCatch o (fun _ => Settled None), m1).

Definition verify_finish (now : Z) (credentials : AuthCredentials) (user : JSON)
    (isPasswordValid : bool) (m : Attempts) : option JSON * Attempts :=
  if negb isPasswordValid then
    (None, snd (recordFailedAttempt now (username credentials) m))
  else (Some user, clearFailedAttempts (username credentials) m).

Definition verifyCredentials (file : UsersFile) (now now' : Z)
    (credentials : AuthCredentials) (m : Attempts) : option JSON * Attempts :=
  match verify_start file now credentials m with
  | (Settled result, m1) => (result, m1)
  | (Comparing user candidate hash, m1) =>
      verify_finish now' credentials user (bcrypt_compare candidate hash) m1
  end.

(** The calls run in order, each to its end before the next starts. *)
Fixpoint verify_all (file : UsersFile) (username : string) (calls : list LoginCall)
    (m : Attempts) : list (option JSON) * Attempts :=
  match calls with
  | [] => ([], m)
  | c :: rest =>
      let '(result, m1) :=
        verifyCredentials file (started c) (resumed c)
          (mkCredentials username (given c)) m in
      let '(results, m2) := verify_all file username rest m1 in
      (result :: results, m2)
  end.

(** Call number [i] runs its next stretch while the clock reads [now]. *)
Definition turn (file : UsersFile) (i : nat) (now : Z) (w : EventLoop.World)
  : EventLoop.World :=
  match EventLoop.calls w !! i with
  | Some (EventLoop.Queued c) =>
      let '(p, m1) := verify_start file now c (EventLoop.loginAttempts w) in
      let next :=
        match p with
        | Settled result => EventLoop.Resolved result
        | Comparing user candidate hash =>
            EventLoop.Awaiting c user (bcrypt_compare candidate hash)
        end in
      EventLoop.mkWorld m1 (<[i := next]> (EventLoop.calls w))
  | Some (EventLoop.Awaiting c user valid) =>
      let '(result, m1) := verify_finish now c user valid (EventLoop.loginAttempts w) in
      EventLoop.mkWorld m1 (<[i := EventLoop.Resolved result]> (EventLoop.calls w))
  | _ => w
  end.

Fixpoint run (file : UsersFile) (schedule : list (nat * Z)) (w : EventLoop.World)
  : EventLoop.World :=
  match schedule with
  | [] => w
  | (i, now) :: rest => run file rest (turn file i now w)
  end.

End Verifier.

Definition decodeSession_try (file : UsersFile) (now : Z) (cookieValue : string)
  : Outcome (option JSON) :=
  let sessionJson := Base64.decode cookieValue in
  match parse sessionJson with
  | None => Thrown SyntaxError
  | Some session =>
      match getProp session "username" with
      | Thrown e => Thrown e
      | Returned name =>
          match getProp session "token", getProp session "expiresAt" with
          | Returned token, Returned expiresAt =>
              if negb (truthy name) || negb (truthy token) || negb (truthy expiresAt)
              then Returned None
              else if negb (is_string name) || negb (is_number expiresAt)
              then Returned None
              else
                match name, expiresAt with
                | Some (JStr username), Some (JNum m e) =>
                    if gt_num now m e then
                      if date_in_range m e then Returned None else Thrown RangeError
                    else
                      match findUser file username with
                      | Thrown e => Thrown e
                      | Returned None => Returned None
                      | Returned (Some _) => Returned (Some session)
                      end
                | _, _ => Returned None
                end
          | Thrown e, _ => Thrown e
          | _, Thrown e => Thrown e
          end
      end
  end.

Definition decodeSession (file : UsersFile) (now : Z) (cookieValue : string) : option JSON :=
  tryCatch (decodeSession_try file now cookieValue) (fun _ => None).

Definition isAuthenticated (file : UsersFile) (now : Z) (cookies : Outcome CookieStore)
  : option JSON :=
  match cookies with
  | Thrown _ => None
  | Returned store =>
      match cookie_value store with
      | None => None
      | Some v => decodeSession file now v
      end
  end.

Definition destroySession (file : UsersFile) (now : Z) (cookies : Outcome CookieStore)
  : Outcome CookieStore :=
  match cookies with
  | Thrown e => Thrown e
  | Returned store =>
      let logged :=
        match cookie_value store with
        | Some v => decodeSession file now v
        | None => None
        end in
      Returned None
  end.

(** *** [lib/validation.ts] *)

Definition sanitizeInput (input : string) : string :=
  trim (Validation.cap_newlines
          (Validation.collapse_blanks
             (Validation.cr_to_lf (Validation.crlf_to_lf (Validation.remove_control input))))).

Definition getClientIp (headers : Validation.Headers) : string :=
  let forwardedFor := headers "x-forwarded-for" in
  let realIp := headers "x-real-ip" in
  let cfConnectingIp := headers "cf-connecting-ip" in
  let first :=
    match forwardedFor with
    | Some list =>
        if is_empty list then None
        else
          match map trim (Validation.split_comma list) with
          | ip :: _ => if is_empty ip then None else Some ip
          | [] => None
          end
    | None => None
    end in
  match first with
  | Some ip => ip
  | None =>
      match cfConnectingIp with
      | Some (String c r) => String c r
      | _ =>
          match realIp with
          | Some (String c r) => String c r
          | _ => "unknown"
          end
      end
  end.

Definition isValidLength (input : string) (maxLength : Z) : bool :=
  strlen input <=? maxLength.

(** *** [POST /api/auth/login], [POST /api/auth/logout] *)

Section LoginRoute.

Variable verify : AuthCredentials -> Attempts -> option JSON * Attempts.
Variable create : JSON -> Outcome (string * CookieStore).

Definition login_try (request_body : Outcome JSON) (m : Attempts) (store : CookieStore)
  : Outcome Response * Attempts * CookieStore :=
  match request_body with
  | Thrown e => (Thrown e, m, store)
  | Returned body =>
      match getProp body "username", getProp body "password" with
      | Returned name, Returned pass =>
          match name with
          | Some (JStr username) =>
              if blank username
              then (Returned (error_response "Username is required" 400), m, store)
              else
                match pass with
                | Some (JStr password) =>
                    if missing password
                    then (Returned (error_response "Password is required" 400), m, store)
                    else if negb (Validation.isValidUtf8 username)
                            || negb (Validation.isValidUtf8 password)
                    then (Returned (error_response "Invalid character encoding" 400), m, store)
                    else
                      let username := sanitizeInput username in
                      if (strlen username <? 3) || (100 <? strlen username)
                      then (Returned (error_response "Invalid credentials" 401), m, store)
                      else if (strlen password <? 8) || (128 <? strlen password)
                      then (Returned (error_response "Invalid credentials" 401), m, store)
                      else
                        match verify (mkCredentials username password) m with
                        | (None, m1) =>
                            (Returned (error_response "Invalid credentials" 401), m1, store)
                        | (Some user, m1) =>
                            match create user with
                            | Thrown _ =>
                                (Returned (error_response "Failed to create session" 500),
                                 m1, store)
                            | Returned (_, store1) =>
                                match getProp user "username", getProp user "displayName" with
                                | Returned u, Returned d =>
                                    (Returned
                                       (mkResponse 200
                                          (JObj ([("success", JBool true);
                                                  ("message", JStr "Login successful")]
                                                 ++ field "username" u
                                                 ++ field "displayName" d))),
                                     m1, store1)
                                | Thrown e, _ => (Thrown e, m1, store1)
                                | _, Thrown e => (Thrown e, m1, store1)
                                end
                            end
                        end
                | _ => (Returned (error_response "Password is required" 400), m, store)
                end
          | _ => (Returned (error_response "Username is required" 400), m, store)
          end
      | Thrown e, _ => (Thrown e, m, store)
      | _, Thrown e => (Thrown e, m, store)
      end
  end.

Definition login_POST (request_body : Outcome JSON) (m : Attempts) (store : CookieStore)
  : Response * Attempts * CookieStore :=
  let '(o, m1, store1) := login_try request_body m store in
  (tryCatch o (fun _ => error_response "Invalid request" 400), m1, store1).

End LoginRoute.

Definition logout_POST (file : UsersFile) (now : Z) (cookies : Outcome CookieStore)
    (store : CookieStore) : Response * CookieStore :=
  match destroySession file now cookies with
  | Returned store1 =>
      (mkResponse 200 (JObj [("success", JBool true); ("message", JStr "Logout successful")]),
       store1)
  | Thrown _ => (error_response "Failed to logout" 500, store)
  end.

(** *** [buildUserPrompt] and [POST /api/optimize] *)

Definition buildUserPrompt (role prompt : string) : string :=
  tagged (trim role) (trim prompt).

Section OptimizeRoute.

Variable PROMPT_TOO_LONG : string.

Definition optimize_try (request_body : Outcome JSON) (headers : Validation.Headers)
    (now : Z) (random : Q) (api_key : option string) (m : RateLimit.Requests)
  : Outcome Reply * RateLimit.Requests :=
  match request_body with
  | Thrown e => (Thrown e, m)
  | Returned body =>
      match getProp body "role", getProp body "prompt" with
      | Returned role, Returned prompt =>
          match role with
          | Some (JStr role) =>
              if blank role
              then (Returned (Json (error_response ERROR_MESSAGES.MISSING_ROLE 400)), m)
              else
                match prompt with
                | Some (JStr prompt) =>
                    if blank prompt
                    then (Returned (Json (error_response ERROR_MESSAGES.MISSING_PROMPT 400)), m)
                    else if MAX_PROMPT_LENGTH <? strlen prompt
                    then (Returned (Json (error_response PROMPT_TOO_LONG 400)), m)
                    else if negb (Validation.isValidUtf8 role)
                            || negb (Validation.isValidUtf8 prompt)
                    then (Returned (Json (error_response "Invalid character encoding" 400)), m)
                    else
                      let role := sanitizeInput role in
                      let prompt := sanitizeInput prompt in
                      if (strlen (trim role) =? 0) || (strlen (trim prompt) =? 0)
                      then (Returned
                              (Json (error_response "Input contains only invalid characters"
                                       400)), m)
                      else
                        let userMessage := buildUserPrompt role prompt in
                        let ip := getClientIp headers in
                        let '(limited, m1) := RateLimit.isRateLimited now random ip m in
                        if limited
                        then (Returned (Json (error_response ERROR_MESSAGES.RATE_LIMITED 429)),
                              m1)
                        else
                          match api_key with
                          | Some (String _ _) => (Returned (EventStream userMessage), m1)
                          | _ =>
                              (Returned
                                 (Json (error_response ERROR_MESSAGES.SERVICE_CONFIG_ERROR
                                          500)), m1)
                          end
                | _ => (Returned (Json (error_response ERROR_MESSAGES.MISSING_PROMPT 400)), m)
                end
          | _ => (Returned (Json (error_response ERROR_MESSAGES.MISSING_ROLE 400)), m)
          end
      | Thrown e, _ => (Thrown e, m)
      | _, Thrown e => (Thrown e, m)
      end
  end.

Definition optimize_POST (request_body : Outcome JSON) (headers : Validation.Headers)
    (now : Z) (random : Q) (api_key : option string) (m : RateLimit.Requests)
  : Reply * RateLimit.Requests :=
  let '(o, m1) := optimize_try request_body headers now random api_key m in
  (tryCatch o (fun _ => Json (error_response ERROR_MESSAGES.GENERIC_ERROR 500)), m1).

End OptimizeRoute.

(** *** [scripts/manage-users.ts] *)

Definition users_find (normalizedUsername : string) (users : list ManageUsers.User)
  : option ManageUsers.User :=
  List.find
    (fun u => String.eqb (toLowerCase (ManageUsers.username u)) normalizedUsername) users.

Fixpoint users_findIndex (normalizedUsername : string) (users : list ManageUsers.User)
  : option nat :=
  match users with
  | [] => None
  | u :: rest =>
      if String.eqb (toLowerCase (ManageUsers.username u)) normalizedUsername then Some O
      else option_map S (users_findIndex normalizedUsername rest)
  end.

Definition addUser (users : list ManageUsers.User)
    (username displayName password passwordConfirm passwordHash createdAt : string)
  : ManageUsers.Ending :=
  if is_empty username || (strlen (trim username) <? 3)
  then ManageUsers.Refused ManageUsers.UsernameTooShort
  else
    let normalizedUsername := toLowerCase (trim username) in
    match users_find normalizedUsername users with
    | Some _ => ManageUsers.Refused ManageUsers.AlreadyExists
    | None =>
        if is_empty password || (strlen password <? 8)
        then ManageUsers.Refused ManageUsers.PasswordTooShort
        else if negb (String.eqb password passwordConfirm)
        then ManageUsers.Refused ManageUsers.PasswordsDoNotMatch
        else
          let newUser :=
            ManageUsers.mkUser (trim username) passwordHash
              (if is_empty (trim displayName) then None else Some (trim displayName))
              (Some createdAt) None in
          ManageUsers.Saved (users ++ [newUser])%list
    end.

Definition removeUser (users : list ManageUsers.User) (username confirm : string)
  : ManageUsers.Ending :=
  if (length users =? 0)%nat then ManageUsers.Refused ManageUsers.NoUsers
  else if blank username then ManageUsers.Refused ManageUsers.UsernameRequired
  else
    let normalizedUsername := toLowerCase (trim username) in
    match users_findIndex normalizedUsername users with
    | None => ManageUsers.Refused ManageUsers.NotFound
    | Some userIndex =>
        if negb (String.eqb (toLowerCase confirm) "yes")
        then ManageUsers.Refused ManageUsers.Cancelled
        else ManageUsers.Saved (ManageUsers.splice userIndex users)
    end.

(** The lower-cased user names of the array. *)
Definition names (users : list ManageUsers.User) : list string :=
  map (fun u => toLowerCase (ManageUsers.username u)) users.

(** *** Notions the properties are stated with *)

(** No lock is in force for [username]. *)
Definition unlocked (username : string) (m : Attempts) : Prop :=
  match m !! toLowerCase username with
  | Some a => locked_field a = None
  | None => True
  end.

(** No lock is in force for [username], and its last counted failure,
    if there is one, is not before [t0]. *)
Definition fresh_since (username : string) (t0 : Z) (m : Attempts) : Prop :=
  match m !! toLowerCase username with
  | Some a => locked_field a = None /\ t0 <= lastAttempt a
  | None => True
  end.

(** A users file that is absent, unreadable, empty, unparseable or
    without a [users] sequence. *)
Inductive degraded : UsersFile -> Prop :=
| degraded_absent : degraded FileAbsent
| degraded_unreadable : degraded FileUnreadable
| degraded_empty text : trim text = EmptyString -> degraded (FileContent text)
| degraded_unparseable text : parse text = None -> degraded (FileContent text)
| degraded_invalid text data :
    parse text = Some data -> users_sequence data = None -> degraded (FileContent text).

(** Text with plain characters only, no two spaces in a row, no four
    newlines in a row and nothing for [trim] to take away. *)
Definition clean (s : string) : bool :=
  Clean.all_chars Clean.plain s && Clean.no_double_space s && Clean.no_four_newlines s
  && String.eqb (trim s) s.

End Embedding.

End Rt.

(** ** Entries of the users file, in the words of the specification *)

Module Entry.

(** An entry is missing a field when it does not have it, or has
    [null] or the empty string for it. *)
Definition missing_field (entry : JSON) (k : string) : bool :=
  match prop entry k with
  | None => true
  | Some JNull => true
  | Some (JStr s) => is_empty s
  | Some _ => false
  end.

Definition complete (entry : JSON) : bool :=
  negb (missing_field entry "username") && negb (missing_field entry "passwordHash").



End Entry.

Module StoreFiles.



End StoreFiles.

(** The text [sanitizeInput] hands to its final [trim]. *)
Definition before_trim (s : string) : string :=
  Validation.cap_newlines
    (Validation.collapse_blanks
       (Validation.cr_to_lf (Validation.crlf_to_lf (Validation.remove_control s)))).

(** ** The [length] of text

    [s.length] counts UTF-16 units.  In the UTF-8 bytes of the text a
    character of one, two or three bytes is one unit and a character of
    four bytes is two: a continuation byte counts nothing, the first
    byte of a four-byte character counts two and every other byte
    one. *)

Definition unit_weight (c : ascii) : Z :=
  if JS.between 128 191 c then 0
  else if (240 <=? JS.code c)%N then 2
  else 1.

Fixpoint units (s : string) : Z :=
  match s with
  | EmptyString => 0
  | String c r => unit_weight c + units r
  end.

(** * Properties *)

(** ** The primitives on sample inputs *)

Example toLowerCase_sample : toLowerCase "Alice SMITH-9" = "alice smith-9".
Proof. reflexivity. Qed.

Example trim_sample : trim "  pw 12  " = "pw 12".
Proof. reflexivity. Qed.

Example base64_encode_sample : Base64.encode "hello world!?" = "aGVsbG8gd29ybGQhPw".
Proof. reflexivity. Qed.

Example base64_decode_skips_and_stops :
  Base64.decode "aGVs bG8=d29ybGQ" = "hello" /\ Base64.decode "aGVsbG8h" = "hello!".
Proof. split; reflexivity. Qed.

Example parse_sample :
  parse " [1, -2.50e3, true, null, {}] "
  = Some (JArr [JNum 1 0; JNum (-250) 1; JBool true; JNull; JObj []])
  /\ parse "[1,2,]" = None /\ parse "01" = None /\ parse "nullx" = None.
Proof. repeat split; vm_compute; reflexivity. Qed.

Example stringify_sample :
  parse (stringify Scenario.session) = Some Scenario.session
  /\ String.length Scenario.cookie = 150%nat.
Proof. split; vm_compute; reflexivity. Qed.

Example sanitize_sample :
  Validation.sanitizeInput
    (String (ascii_of_N 9) ("  al" ++ String (ascii_of_N 7) ("ice " ++ String (ascii_of_N 13) "")))
  = "alice".
Proof. vm_compute. reflexivity. Qed.

Example cleanup_sample :
  RateLimit.cleanup_loop 100000 999 [("a", [1]); ("b", [2]); ("c", [99999])]
  = [("b", [2]); ("c", [99999])].
Proof. reflexivity. Qed.


(** ** Session decoding: the two variants *)

Lemma decodeSession_unfold (file : UsersFile) (now : Z) (cookieValue : string) :
  decodeSession file now cookieValue = decode_then_revocation file now cookieValue.
Proof.
  unfold decodeSession, decode_then_revocation, Edge.decodeSession, decodeSession_try,
    Edge.decodeSession_try.
  destruct (parse (Base64.decode cookieValue)) as [v|]; [|reflexivity].
  destruct (getProp v "username") as [name|] eqn:Hn; [|reflexivity].
  destruct (getProp v "token") as [tok|]; [|reflexivity].
  destruct (getProp v "expiresAt") as [ex|]; [|reflexivity].
  destruct (negb (truthy name) || negb (truthy tok) || negb (truthy ex)); [reflexivity|].
  destruct name as [[|b0|m0 e0|username|items0|fields0]|];
    destruct ex as [[|b1|m e|s1|items1|fields1]|]; cbn [is_string is_number negb orb];
    try reflexivity.
  destruct (gt_num now m e).
  - destruct (date_in_range m e); reflexivity.
  - cbn [tryCatch]. unfold user_resolves. rewrite Hn.
    destruct (findUser file username) as [[u|]|err]; reflexivity.
Qed.

(** C7. For every cookie value and every time, the full decoder is the
    restricted decoder followed by the revocation check and nothing
    else: a session the full decoder returns is returned unchanged by
    the restricted one, and what the restricted one rejects the full one
    rejects. *)
Theorem full_decode_is_edge_decode_then_revocation :
  forall (file : UsersFile) (now : Z) (cookieValue : string),
    decodeSession file now cookieValue = decode_then_revocation file now cookieValue
    /\ (forall session,
          decodeSession file now cookieValue = Some session ->
          Edge.decodeSession now cookieValue = Some session)
    /\ (Edge.decodeSession now cookieValue = None ->
        decodeSession file now cookieValue = None).
Proof.
  intros file now cookieValue.
  split; [apply decodeSession_unfold|]. rewrite decodeSession_unfold.
  unfold decode_then_revocation. split.
  - intros session. destruct (Edge.decodeSession now cookieValue) as [s|]; [|discriminate].
    destruct (user_resolves file s); [|discriminate]. intros [= ->]. reflexivity.
  - intros ->. reflexivity.
Qed.

Lemma full_decode_is_edge_decode_witness :
  Edge.decodeSession 5000 Scenario.cookie = Some Scenario.session
  /\ decodeSession FileAbsent 5000 "not a cookie" = None.
Proof.
  destruct (full_decode_is_edge_decode_then_revocation Scenario.store 5000 Scenario.cookie)
    as (_ & Hsome & _).
  destruct (full_decode_is_edge_decode_then_revocation FileAbsent 5000 "not a cookie")
    as (_ & _ & Hnone).
  split.
  - apply Hsome. vm_compute. reflexivity.
  - apply Hnone. vm_compute. reflexivity.
Defined.

(** ** User store *)


Lemma valid_entry_sound entry :
  valid_entry entry = Returned true -> has_credentials entry = true.
Proof.
  destruct entry; try discriminate.
  unfold valid_entry, has_credentials; simpl.
  destruct (truthy (assoc "username" fields)); simpl; [|discriminate].
  intros [= ->]. reflexivity.
Qed.

Lemma filter_entries_sound users kept entry :
  filter_entries users = Returned kept -> In entry kept ->
  has_credentials entry = true /\ In entry users.
Proof.
  revert kept. induction users as [|u r IH]; simpl; intros kept.
  - intros [= <-] [].
  - destruct (valid_entry u) as [keep|] eqn:Hv; [|discriminate].
    destruct (filter_entries r) as [r'|]; [|discriminate].
    intros [= <-] Hin. destruct keep.
    + destruct Hin as [<-|Hin].
      * split; [apply valid_entry_sound; assumption | left; reflexivity].
      * destruct (IH r' eq_refl Hin). split; [assumption | right; assumption].
    + destruct (IH r' eq_refl Hin). split; [assumption | right; assumption].
Qed.

Lemma users_sequence_getProp data users :
  users_sequence data = Some users ->
  truthy (Some data) = true /\ getProp data "users" = Returned (Some (JArr users)).
Proof.
  unfold users_sequence. destruct data; simpl; try discriminate.
  destruct (assoc "users" fields) as [[]|]; try discriminate.
  intros [= ->]. split; reflexivity.
Qed.

(** An entry that is [null] is not a record at all: reading its user
    name throws, the [catch] absorbs it, and the whole load is empty. *)
Example null_entry_empties_the_load :
  loadUsers (FileContent (stringify (JObj [("users", JArr [JNull; Scenario.alice])]))) = [].
Proof. vm_compute. reflexivity. Qed.

(** ** Login endpoint *)

Lemma strlen_zero s : (strlen s =? 0) = is_empty s.
Proof. destruct s; reflexivity. Qed.

Lemma not_blank_checks s :
  trim s <> EmptyString -> is_empty s || (strlen (trim s) =? 0) = false.
Proof.
  intros H. rewrite strlen_zero. destruct s; [contradiction H; reflexivity|].
  simpl is_empty at 1. simpl orb.
  destruct (trim (String a s)); [contradiction H; reflexivity | reflexivity].
Qed.

(** C10 as stated fails: a user name of three spaces is a non-empty
    string whose sanitized length is 0, and the answer is 400
    [Username is required]. *)
Lemma login_blank_name_is_400 :
  is_empty "   " = false
  /\ strlen (Validation.sanitizeInput "   ") < 3
  /\ login_POST Example.verify Example.create (Returned Example.blank_name_body) ∅ None
     = (error_response "Username is required" 400, ∅, None).
Proof. split; [reflexivity|]. split; vm_compute; reflexivity. Qed.

(** ** Where faults go *)

Lemma createSession_throws entropy now production cookies user :
  (exists e, createSession entropy now production cookies user = Thrown e)
  <-> (exists e, entropy = Thrown e) \/ user = JNull \/ (exists e, cookies = Thrown e).
Proof.
  unfold createSession, generateSessionToken. split.
  - intros [e H]. destruct entropy as [bytes|e0]; [|left; eauto]. right.
    destruct user; simpl in H; try (left; reflexivity); right;
      destruct cookies as [c|e1]; try discriminate; eauto.
  - intros [[e ->]|[->|[e ->]]].
    + eauto.
    + destruct entropy; simpl; eauto.
    + destruct entropy; [|eauto].
      destruct user; simpl; eauto.
Qed.

(** C6 as stated fails: with the cookie store out of reach,
    [destroySession] throws instead of returning, and [createSession]
    throws although the token was generated. *)
Lemma session_faults_are_thrown_again :
  destroySession Scenario.store 0 (Thrown IOError) = Thrown IOError
  /\ generateSessionToken (Returned "0123456789abcdef0123456789abcdef")
     = Returned Scenario.token
  /\ createSession (Returned "0123456789abcdef0123456789abcdef") 0 false
       (Thrown IOError) Scenario.alice
     = Thrown IOError.
Proof. repeat split. Qed.

(** ** Lockout after repeated failures *)

Lemma last_cons (x d : Z) (l : list Z) : List.last (x :: l) d = List.last l x.
Proof.
  revert x d. induction l as [|y l IH]; intros x d; [reflexivity|].
  change (List.last (x :: y :: l) d) with (List.last (y :: l) d).
  rewrite IH. symmetry. apply IH.
Qed.

Lemma nondecreasing_last (x : Z) (l : list Z) :
  nondecreasing (x :: l) -> x <= List.last l x.
Proof.
  revert x. induction l as [|y l IH]; intros x H; [simpl; lia|].
  destruct H as [Hxy Hl]. rewrite last_cons. specialize (IH y Hl). lia.
Qed.

Section Lockout.

Variable bcrypt_compare : string -> string -> bool.
Variable file : UsersFile.
Variable username : string.
Variable user : JSON.
Variable hash : string.

Hypothesis name_not_blank : trim username <> EmptyString.
Hypothesis user_found : findUser file username = Returned (Some user).
Hypothesis hash_stored : getProp user "passwordHash" = Returned (Some (JStr hash)).

Let key : string := toLowerCase username.

Lemma isLockedOut_unlocked now (m : Attempts) :
  unlocked username m -> isLockedOut now username m = (false, m).
Proof.
  unfold unlocked, isLockedOut. destruct (m !! toLowerCase username) as [a|]; [|reflexivity].
  intros ->. reflexivity.
Qed.

Lemma password_checks pw :
  pw <> EmptyString -> is_empty pw || (strlen pw =? 0) = false.
Proof. intros H. rewrite strlen_zero. destruct pw; [contradiction|reflexivity]. Qed.

(** A call that finds the user name unlocked goes on to compare. *)
Lemma verify_start_unlocked now pw (m : Attempts) :
  pw <> EmptyString -> unlocked username m ->
  verify_start file now (mkCredentials username pw) m = (Comparing user pw hash, m).
Proof.
  intros Hpw Hun. unfold verify_start, verify_start_try. read_credentials.
  rewrite (not_blank_checks _ name_not_blank), (password_checks _ Hpw).
  rewrite (isLockedOut_unlocked now m Hun), user_found, hash_stored. reflexivity.
Qed.

(** A wrong password against an unlocked name records one failure. *)
Lemma wrong_password_records now now' pw (m : Attempts) :
  pw <> EmptyString -> bcrypt_compare pw hash = false -> unlocked username m ->
  verifyCredentials bcrypt_compare file now now' (mkCredentials username pw) m
  = (None, snd (recordFailedAttempt now' username m)).
Proof.
  intros Hpw Hbad Hun. unfold verifyCredentials.
  rewrite (verify_start_unlocked now pw m Hpw Hun).
  unfold verify_finish. rewrite Hbad. reflexivity.
Qed.

Lemma record_first now (m : Attempts) :
  m !! key = None ->
  snd (recordFailedAttempt now username m) = <[key := mkAttempt 1 now None]> m.
Proof. unfold recordFailedAttempt. fold key. intros ->. reflexivity. Qed.

Lemma isLockedOut_during (m : Attempts) c t l now :
  m !! key = Some (mkAttempt c t (Some l)) -> l <> 0 -> now < l ->
  isLockedOut now username m = (true, m).
Proof.
  intros Hm Hl Hnow. unfold isLockedOut. fold key. rewrite Hm.
  unfold locked_field; cbn [lockedUntil].
  replace (l =? 0) with false by (symmetry; apply Z.eqb_neq; exact Hl).
  replace (now <? l) with true by (symmetry; apply Z.ltb_lt; exact Hnow).
  reflexivity.
Qed.

Lemma isLockedOut_after (m : Attempts) c t l now :
  m !! key = Some (mkAttempt c t (Some l)) -> l <> 0 -> l <= now ->
  isLockedOut now username m = (false, delete key m).
Proof.
  intros Hm Hl Hnow. unfold isLockedOut. fold key. rewrite Hm.
  unfold locked_field; cbn [lockedUntil].
  replace (l =? 0) with false by (symmetry; apply Z.eqb_neq; exact Hl).
  replace (now <? l) with false by (symmetry; apply Z.ltb_ge; exact Hnow).
  replace (l <=? now) with true by (symmetry; apply Z.leb_le; exact Hnow).
  reflexivity.
Qed.

(** While the lock holds, every call is turned away and the state
    stays as it is. *)
Lemma verify_during_lock (m : Attempts) c t l now now' pw :
  m !! key = Some (mkAttempt c t (Some l)) -> l <> 0 -> now < l ->
  verifyCredentials bcrypt_compare file now now' (mkCredentials username pw) m = (None, m).
Proof.
  intros Hm Hl Hnow. unfold verifyCredentials, verify_start, verify_start_try.
  read_credentials.
  rewrite (not_blank_checks _ name_not_blank).
  destruct (is_empty pw || (strlen pw =? 0)); [reflexivity|].
  rewrite (isLockedOut_during m c t l now Hm Hl Hnow). reflexivity.
Qed.

End Lockout.

(** C5, as the code has it.  Against the store holding [alice] with the
    hash of [pw12345678], and with no lockout state for the name given,
    [verify] of the name [Alice ] (capital letter, trailing space) and
    the password [pw12345678] returns the [alice] record as soon as the
    comparison accepts that password for the stored hash; the same name
    with a space in front of the password is turned away as soon as the
    comparison rejects it, and the failure is recorded. *)
Theorem scenario_name_is_normalized_password_is_exact :
  forall (bcrypt_compare : string -> string -> bool) (now now' : Z) (m : Attempts),
    m !! toLowerCase "Alice " = None ->
    (bcrypt_compare "pw12345678" (IdealBcrypt.hash "pw12345678") = true ->
     verifyCredentials bcrypt_compare Scenario.store now now'
       (mkCredentials "Alice " "pw12345678") m
     = (Some Scenario.alice, clearFailedAttempts "Alice " m))
    /\ (bcrypt_compare " pw12345678" (IdealBcrypt.hash "pw12345678") = false ->
        verifyCredentials bcrypt_compare Scenario.store now now'
          (mkCredentials "Alice " " pw12345678") m
        = (None, <[toLowerCase "Alice " := mkAttempt 1 now' None]> m)).
Proof.
  intros bc now now' m Hclean.
  assert (Hname : trim "Alice " <> EmptyString) by (vm_compute; discriminate).
  assert (Hfind : findUser Scenario.store "Alice " = Returned (Some Scenario.alice))
    by (vm_compute; reflexivity).
  assert (Hhash : getProp Scenario.alice "passwordHash"
                  = Returned (Some (JStr (IdealBcrypt.hash "pw12345678"))))
    by reflexivity.
  assert (Hun : unlocked "Alice " m) by (unfold unlocked; rewrite Hclean; exact I).
  split.
  - intros Hok. unfold verifyCredentials.
    rewrite (verify_start_unlocked Scenario.store "Alice " Scenario.alice _
               Hname Hfind Hhash now "pw12345678" m) by (assumption || discriminate).
    unfold verify_finish. rewrite Hok. reflexivity.
  - intros Hbad.
    rewrite (wrong_password_records bc Scenario.store "Alice " Scenario.alice _
               Hname Hfind Hhash now now' " pw12345678" m) by (assumption || discriminate).
    rewrite (record_first "Alice " now' m Hclean). reflexivity.
Qed.

Lemma scenario_name_is_normalized_witness :
  verifyCredentials IdealBcrypt.compare Scenario.store 1000 1300
    (mkCredentials "Alice " "pw12345678") ∅
  = (Some Scenario.alice, clearFailedAttempts "Alice " ∅).
Proof.
  apply (scenario_name_is_normalized_password_is_exact IdealBcrypt.compare 1000 1300 ∅);
    reflexivity.
Defined.

(** C5 as stated fails: the password [ pw12345678] begins with a space
    that the stored password does not have; an exact comparison rejects
    it and [verify] returns [null]. *)
Lemma scenario_leading_space_is_rejected :
  IdealBcrypt.compare "pw12345678" (IdealBcrypt.hash "pw12345678") = true
  /\ fst (verifyCredentials IdealBcrypt.compare Scenario.store 1000 1300
            (mkCredentials "Alice " " pw12345678") ∅)
     = None.
Proof. split; vm_compute; reflexivity. Qed.

(** ** Rate limiter *)

Section RateLimiter.

Import RateLimit RateLimitRuns.

Local Open Scope list_scope.

Variable ip : string.

Lemma get_set_same v (m : Requests) : get ip (set ip v m) = Some v.
Proof.
  induction m as [|[k w] r IH]; simpl.
  - rewrite String.eqb_refl. reflexivity.
  - destruct (String.eqb ip k) eqn:E; simpl; rewrite E; [reflexivity | exact IH].
Qed.

Lemma recent_idempotent now l : recent now (recent now l) = recent now l.
Proof.
  unfold recent. induction l as [|x l IH]; simpl; [reflexivity|].
  destruct (now - x <? WINDOW_MS) eqn:E; simpl; [rewrite E, IH; reflexivity | exact IH].
Qed.

Lemma recent_app now l l' : recent now (l ++ l') = recent now l ++ recent now l'.
Proof. unfold recent. apply List.filter_app. Qed.

Lemma recent_all now l :
  Forall (fun x => now - x < WINDOW_MS) l -> recent now l = l.
Proof.
  unfold recent. induction 1 as [|x l Hx _ IH]; simpl; [reflexivity|].
  replace (now - x <? WINDOW_MS) with true by (symmetry; apply Z.ltb_lt; exact Hx).
  rewrite IH. reflexivity.
Qed.

(** The loop leaves alone an entry whose timestamps are all recent. *)
Lemma cleanup_loop_keeps now l : 
  l <> [] -> recent now l = l ->
  forall (m : Requests) cleaned, get ip m = Some l -> get ip (cleanup_loop now cleaned m) = Some l.
Proof.
  intros Hne Hrec. induction m as [|[k w] r IH]; intros cleaned; simpl; [discriminate|].
  destruct (String.eqb ip k) eqn:E.
  - intros [= ->]. rewrite Hrec. destruct l; [contradiction|]. simpl. rewrite E. reflexivity.
  - intros Hget. destruct (is_nil (recent now w)).
    + destruct (CLEANUP_BATCH_SIZE <=? cleaned + 1); [exact Hget | apply IH; exact Hget].
    + simpl. rewrite E.
      destruct (CLEANUP_BATCH_SIZE <=? cleaned); [exact Hget | apply IH; exact Hget].
Qed.

Lemma cleanup_keeps now l (m : Requests) :
  l <> [] -> recent now l = l -> get ip m = Some l ->
  get ip (cleanupOldEntries now m) = Some l.
Proof.
  intros Hne Hrec Hget. unfold cleanupOldEntries.
  destruct (MAX_IPS_IN_MEMORY <? Z.of_nat (length m)); [|exact Hget].
  apply cleanup_loop_keeps; assumption.
Qed.

(** Below the threshold the request is let through and its time is put
    behind the recent ones. *)
Lemma request_admitted now random (m : Requests) :
  Z.of_nat (length (recent now (stamps ip m))) < MAX_REQUESTS ->
  fst (isRateLimited now random ip m) = false
  /\ stamps ip (snd (isRateLimited now random ip m)) = recent now (stamps ip m) ++ [now].
Proof.
  intros Hlt. unfold isRateLimited. fold (stamps ip m).
  replace (MAX_REQUESTS <=? Z.of_nat (length (recent now (stamps ip m)))) with false
    by (symmetry; apply Z.leb_gt; exact Hlt).
  split; [reflexivity|]. cbn [snd].
  set (l := recent now (stamps ip m) ++ [now]).
  assert (Hne : l <> []) by (unfold l; destruct (recent now (stamps ip m)); discriminate).
  assert (Hrec : recent now l = l).
  { unfold l. rewrite recent_app, recent_idempotent. f_equal.
    apply recent_all. constructor; [|constructor]. unfold WINDOW_MS. lia. }
  unfold stamps at 1.
  destruct (Qlt_le_dec random (1 # 10)).
  - rewrite (cleanup_keeps now l _ Hne Hrec (get_set_same l m)). reflexivity.
  - rewrite get_set_same. reflexivity.
Qed.

(** At the threshold the request is refused and nothing is written. *)
Lemma request_refused now random (m : Requests) :
  MAX_REQUESTS <= Z.of_nat (length (recent now (stamps ip m))) ->
  isRateLimited now random ip m = (true, m).
Proof.
  intros Hge. unfold isRateLimited. fold (stamps ip m).
  replace (MAX_REQUESTS <=? Z.of_nat (length (recent now (stamps ip m)))) with true
    by (symmetry; apply Z.leb_le; exact Hge).
  reflexivity.
Qed.

(** Requests that all fall within one window of [first] pile up. *)
Lemma requests_accumulate (first : Z) (requests : list (Z * Q)) :
  forall m : Requests,
    Forall (fun x => first <= x) (stamps ip m) ->
    Forall (fun r => first <= fst r < first + WINDOW_MS) requests ->
    Z.of_nat (length (stamps ip m)) + Z.of_nat (length requests) <= MAX_REQUESTS ->
    Forall (eq false) (fst (limited_all ip requests m))
    /\ stamps ip (snd (limited_all ip requests m)) = stamps ip m ++ map fst requests.
Proof.
  induction requests as [|[now random] rest IH]; intros m Hold Hin Hlen.
  - simpl. split; [constructor | rewrite app_nil_r; reflexivity].
  - inversion Hin as [|? ? [Hlo Hhi] Hrest]; subst. cbn [fst] in *.
    simpl length in Hlen. rewrite Nat2Z.inj_succ in Hlen.
    assert (Hrec : recent now (stamps ip m) = stamps ip m).
    { apply recent_all. eapply List.Forall_impl; [|exact Hold]. simpl. intros. lia. }
    destruct (request_admitted now random m) as [Hres Hst].
    { rewrite Hrec. lia. }
    cbn [limited_all].
    destruct (isRateLimited now random ip m) as [limited m1]. cbn [fst snd] in *.
    rewrite Hrec in Hst.
    specialize (IH m1).
    destruct (limited_all ip rest m1) as [answers m2]. cbn [fst snd] in *.
    destruct IH as [Hans Hfin].
    + rewrite Hst. apply Forall_app. split; [exact Hold|]. constructor; [lia | constructor].
    + exact Hrest.
    + rewrite Hst, length_app. simpl length. lia.
    + split; [constructor; [symmetry; exact Hres | exact Hans]|].
      rewrite Hfin, Hst, <- app_assoc. reflexivity.
Qed.

End RateLimiter.

(** C4. For an address with no entry in the limiter: ten requests, all
    within one window of the first, are let through and their times are
    kept in order; a further request within that window is refused and
    writes nothing; a request made once the window of the first request
    has passed is let through again. *)
Theorem rate_limiter_admits_ten_per_window :
  forall (ip : string) (m : RateLimit.Requests) (first : Z) (random : Q)
         (rest : list (Z * Q)),
    RateLimit.get ip m = None ->
    length rest = 9%nat ->
    Forall (fun r => first <= fst r < first + RateLimit.WINDOW_MS) rest ->
    let requests := (first, random) :: rest in
    let answers := fst (RateLimitRuns.limited_all ip requests m) in
    let m10 := snd (RateLimitRuns.limited_all ip requests m) in
    Forall (eq false) answers
    /\ RateLimitRuns.stamps ip m10 = map fst requests
    /\ (forall now random',
          now < first + RateLimit.WINDOW_MS ->
          RateLimit.isRateLimited now random' ip m10 = (true, m10))
    /\ (forall now random',
          first + RateLimit.WINDOW_MS <= now ->
          fst (RateLimit.isRateLimited now random' ip m10) = false).
Proof.
  intros ip m first random rest Hnone Hlen Hin requests answers m10.
  assert (Hst0 : RateLimitRuns.stamps ip m = []).
  { unfold RateLimitRuns.stamps. rewrite Hnone. reflexivity. }
  destruct (requests_accumulate ip first requests m) as [Hans Hst].
  { rewrite Hst0. constructor. }
  { constructor; [cbn [fst]; unfold RateLimit.WINDOW_MS; lia | exact Hin]. }
  { rewrite Hst0. unfold requests. simpl length. rewrite Hlen.
    unfold RateLimit.MAX_REQUESTS. lia. }
  rewrite Hst0 in Hst. simpl app in Hst. fold m10 in Hst. fold answers in Hans.
  split; [exact Hans|]. split; [exact Hst|]. split.
  - intros now random' Hnow. apply request_refused. rewrite Hst.
    rewrite recent_all.
    + unfold requests. simpl map. simpl length. rewrite length_map, Hlen.
      unfold RateLimit.MAX_REQUESTS. lia.
    + unfold requests. simpl map. constructor; [lia|].
      apply Forall_map. eapply List.Forall_impl; [|exact Hin]. simpl. intros a Ha. lia.
  - intros now random' Hnow. apply request_admitted. rewrite Hst.
    unfold requests. simpl map. unfold RateLimit.recent. simpl List.filter.
    replace (now - first <? RateLimit.WINDOW_MS) with false
      by (symmetry; apply Z.ltb_ge; lia).
    pose proof (List.filter_length_le (fun t => now - t <? RateLimit.WINDOW_MS)
                  (map fst rest)) as Hle.
    rewrite length_map, Hlen in Hle. unfold RateLimit.MAX_REQUESTS. lia.
Qed.

Lemma rate_limiter_admits_ten_per_window_witness :
  fst (RateLimitRuns.limited_all "1.2.3.4" RateLimitRuns.ten_requests [])
  = [false; false; false; false; false; false; false; false; false; false]
  /\ fst (RateLimit.isRateLimited 11000 (1 # 2) "1.2.3.4"
            (snd (RateLimitRuns.limited_all "1.2.3.4" RateLimitRuns.ten_requests [])))
     = true
  /\ fst (RateLimit.isRateLimited 61000 (1 # 2) "1.2.3.4"
            (snd (RateLimitRuns.limited_all "1.2.3.4" RateLimitRuns.ten_requests [])))
     = false.
Proof.
  destruct (rate_limiter_admits_ten_per_window "1.2.3.4" [] 1000 (1 # 2)
              (List.tl RateLimitRuns.ten_requests))
    as (Hans & _ & Hfull & Hfree).
  - reflexivity.
  - reflexivity.
  - repeat constructor; simpl; unfold RateLimit.WINDOW_MS; lia.
  - split; [|split].
    + vm_compute. reflexivity.
    + change RateLimitRuns.ten_requests
        with ((1000, 1 # 2) :: List.tl RateLimitRuns.ten_requests).
      rewrite (Hfull 11000 (1 # 2)); [reflexivity | unfold RateLimit.WINDOW_MS; lia].
    + change RateLimitRuns.ten_requests
        with ((1000, 1 # 2) :: List.tl RateLimitRuns.ten_requests).
      apply (Hfree 61000 (1 # 2)). unfold RateLimit.WINDOW_MS. lia.
Defined.

Lemma lookup_queued username (passwords : list string) i pw :
  passwords !! i = Some pw ->
  queued username passwords !! i = Some (EventLoop.Queued (mkCredentials username pw)).
Proof.
  unfold queued. revert i. induction passwords as [|p r IH]; intros [|i]; simpl;
    try discriminate.
  - intros [= ->]. reflexivity.
  - apply IH.
Qed.

Example two_calls_from_four_leave_six :
  EventLoop.loginAttempts
    (EventLoop.run IdealBcrypt.compare Scenario.store
       (RaceExample.starts ++ RaceExample.finishes)%list
       (EventLoop.mkWorld RaceExample.four_counted (queued "alice" RaceExample.passwords)))
  !! "alice"
  = Some (mkAttempt 6 1250 (Some (1250 + lockoutDuration))).
Proof. vm_compute. reflexivity. Qed.

(** ** Session codec: what is encoded decodes to itself *)

Lemma base64url_char_valid (v : N) :
  (v < 64)%N ->
  (code (Base64.base64url_char v) =? 61)%N = false
  /\ Base64.unbase64 (Base64.base64url_char v) = Some v.
Proof.
  intros Hv. assert (Hn : exists n, v = N.of_nat n /\ (n < 64)%nat).
  { exists (N.to_nat v). split; [symmetry; apply N2Nat.id | lia]. }
  destruct Hn as (n & -> & Hn).
  do 64 (destruct n as [|n]; [vm_compute; split; reflexivity|]). lia.
Qed.

Lemma sextets_char (v : N) (rest : string) :
  (v < 64)%N ->
  Base64.sextets (String (Base64.base64url_char v) rest) = v :: Base64.sextets rest.
Proof.
  intros Hv. destruct (base64url_char_valid v Hv) as [Hpad Hval].
  cbn [Base64.sextets]. rewrite Hpad, Hval. reflexivity.
Qed.

Lemma code_bound (c : ascii) : (code c < 256)%N.
Proof. apply N_ascii_bounded. Qed.

Lemma byte_of_code (c : ascii) (n : N) : n = code c -> ascii_of_N n = c.
Proof. intros ->. apply ascii_N_embedding. Qed.

Lemma base64_round_trip (bytes : string) : Base64.decode (Base64.encode bytes) = bytes.
Proof.
  unfold Base64.decode.
  enough (H : Base64.bytes_of_sextets (Base64.sextets (Base64.encode bytes)) = bytes
              /\ (forall a, Base64.bytes_of_sextets
                              (Base64.sextets (Base64.encode (String a bytes)))
                            = String a bytes)
              /\ (forall a b, Base64.bytes_of_sextets
                                (Base64.sextets (Base64.encode (String a (String b bytes))))
                              = String a (String b bytes)))
    by apply H.
  induction bytes as [|c r (IH0 & IH1 & IH2)].
  - split; [reflexivity|]. split.
    + intros a. pose proof (code_bound a). cbn [Base64.encode].
      rewrite !sextets_char by solve_div. cbn.
      f_equal. apply byte_of_code. unfold Base64.byte1. solve_div.
    + intros a b. pose proof (code_bound a). pose proof (code_bound b).
      cbn [Base64.encode]. rewrite !sextets_char by solve_div. cbn.
      unfold Base64.byte1, Base64.byte2.
      f_equal; [apply byte_of_code; solve_div|].
      f_equal. apply byte_of_code. solve_div.
  - split; [apply IH1|]. split; [intros a; apply IH2|].
    intros a b. pose proof (code_bound a). pose proof (code_bound b).
    pose proof (code_bound c).
    cbn [Base64.encode]. rewrite !sextets_char by solve_div.
    cbn [Base64.bytes_of_sextets]. rewrite IH0.
    unfold Base64.byte1, Base64.byte2, Base64.byte3.
    f_equal; [apply byte_of_code; solve_div|].
    f_equal; [apply byte_of_code; solve_div|].
    f_equal. apply byte_of_code. solve_div.
Qed.

Lemma append_assoc (a b c : string) : ((a ++ b) ++ c)%string = (a ++ (b ++ c))%string.
Proof. induction a as [|x a IH]; [reflexivity|]. change (String x ((a ++ b) ++ c) = String x (a ++ (b ++ c)))%string. f_equal. exact IH. Qed.

(** One escaped character reads back as that character. *)
Lemma parse_escaped_char (c : ascii) (rest : string) :
  parse_chars (escape_char c ++ rest)%string
  = match parse_chars rest with
    | Some (t, after) => Some (String c t, after)
    | None => None
    end.
Proof.
  destruct c as [[] [] [] [] [] [] [] []]; reflexivity.
Qed.

Lemma parse_escaped (s rest : string) :
  parse_chars (escape s ++ String dquote rest)%string = Some (s, rest).
Proof.
  induction s as [|c s IH]; [reflexivity|].
  cbn [escape]. rewrite append_assoc, parse_escaped_char, IH. reflexivity.
Qed.

Lemma quote_app (s rest : string) :
  (quote s ++ rest)%string = String dquote (escape s ++ String dquote rest)%string.
Proof.
  unfold quote.
  change (String dquote ((escape s ++ String dquote EmptyString) ++ rest)%string
          = String dquote (escape s ++ String dquote rest)%string).
  rewrite append_assoc. reflexivity.
Qed.

Lemma digit_char_ok (d : Z) :
  0 <= d < 10 ->
  is_digit (digit_char d) = true /\ digit_val (digit_char d) = d
  /\ (code (digit_char d) =? 48)%N = (d =? 0).
Proof.
  intros H.
  assert (Hd : d = 0 \/ d = 1 \/ d = 2 \/ d = 3 \/ d = 4 \/ d = 5 \/ d = 6 \/ d = 7
               \/ d = 8 \/ d = 9) by lia.
  repeat (destruct Hd as [->|Hd]; [repeat split|]). subst d. repeat split.
Qed.

Lemma digits_of_app (fuel : nat) :
  forall n acc rest, (digits_of fuel n acc ++ rest)%string = digits_of fuel n (acc ++ rest)%string.
Proof.
  induction fuel as [|f IH]; intros n acc rest; cbn [digits_of]; [reflexivity|].
  destruct (n <? 10); [reflexivity|]. rewrite IH. reflexivity.
Qed.

Lemma digits_step (a k : Z) (d : Z) (acc : string) :
  0 <= d < 10 ->
  digits a k (String (digit_char d) acc) = digits (a * 10 + d) (k + 1) acc.
Proof.
  intros Hd. destruct (digit_char_ok d Hd) as (H1 & H2 & _).
  cbn [digits]. rewrite H1, H2. reflexivity.
Qed.

(** Reading the digits of [n] adds [n] behind what was read so far. *)
Lemma digits_of_read (fuel : nat) :
  forall n acc a k,
    0 <= n < 2 ^ (Z.of_nat fuel + 1) ->
    exists d, 0 < d
              /\ digits a k (digits_of fuel n acc) = digits (a * 10 ^ d + n) (k + d) acc.
Proof.
  induction fuel as [|f IH]; intros n acc a k Hn.
  - change (2 ^ (Z.of_nat 0 + 1)) with 2 in Hn. exists 1. split; [lia|].
    cbn [digits_of]. rewrite digits_step by (apply Z.mod_pos_bound; lia).
    rewrite Z.mod_small by lia. rewrite Z.pow_1_r. reflexivity.
  - cbn [digits_of]. destruct (n <? 10) eqn:E.
    + apply Z.ltb_lt in E. exists 1. split; [lia|].
      rewrite digits_step by (apply Z.mod_pos_bound; lia).
      rewrite Z.mod_small by lia. rewrite Z.pow_1_r. reflexivity.
    + apply Z.ltb_ge in E.
      assert (Hpow : 2 ^ (Z.of_nat (S f) + 1) = 2 * 2 ^ (Z.of_nat f + 1)).
      { rewrite Nat2Z.inj_succ. replace (Z.succ (Z.of_nat f) + 1) with (Z.succ (Z.of_nat f + 1))
          by lia. apply Z.pow_succ_r. lia. }
      rewrite Hpow in Hn.
      assert (Hq : 0 <= n / 10 < 2 ^ (Z.of_nat f + 1)).
      { split; [apply Z.div_pos; lia|]. apply Z.div_lt_upper_bound; lia. }
      destruct (IH (n / 10) (String (digit_char (n mod 10)) acc) a k Hq) as (d & Hd & Hread).
      exists (d + 1). split; [lia|]. rewrite Hread.
      rewrite digits_step by (apply Z.mod_pos_bound; lia).
      rewrite Z.pow_add_r, Z.pow_1_r by lia.
      f_equal; [|lia]. pose proof (Z.div_mod n 10). lia.
Qed.

Lemma pow2_succ (f : nat) : 2 ^ (Z.of_nat (S f) + 1) = 2 * 2 ^ (Z.of_nat f + 1).
Proof.
  rewrite Nat2Z.inj_succ.
  replace (Z.succ (Z.of_nat f) + 1) with (Z.succ (Z.of_nat f + 1)) by lia.
  apply Z.pow_succ_r. lia.
Qed.

(** The first digit written for a positive number is not 0. *)
Lemma digits_of_head (fuel : nat) :
  forall n acc,
    0 < n < 2 ^ (Z.of_nat fuel + 1) ->
    exists c r, digits_of fuel n acc = String c r
                /\ is_digit c = true /\ (code c =? 48)%N = false.
Proof.
  induction fuel as [|f IH]; intros n acc Hn.
  - change (2 ^ (Z.of_nat 0 + 1)) with 2 in Hn. cbn [digits_of].
    destruct (digit_char_ok (n mod 10)) as (H1 & _ & H3); [apply Z.mod_pos_bound; lia|].
    eexists _, _. split; [reflexivity|]. split; [exact H1|]. rewrite H3.
    rewrite Z.mod_small by lia. apply Z.eqb_neq. lia.
  - cbn [digits_of]. destruct (n <? 10) eqn:E.
    + apply Z.ltb_lt in E.
      destruct (digit_char_ok (n mod 10)) as (H1 & _ & H3); [apply Z.mod_pos_bound; lia|].
      eexists _, _. split; [reflexivity|]. split; [exact H1|]. rewrite H3.
      rewrite Z.mod_small by lia. apply Z.eqb_neq. lia.
    + apply Z.ltb_ge in E. rewrite pow2_succ in Hn. apply IH. split.
      * apply Z.div_str_pos. lia.
      * apply Z.div_lt_upper_bound; lia.
Qed.

Lemma print_nat_bound (n : Z) :
  0 <= n -> 0 <= n < 2 ^ (Z.of_nat (Z.to_nat (Z.log2 n)) + 1).
Proof.
  intros Hn. split; [exact Hn|].
  rewrite Z2Nat.id by apply Z.log2_nonneg.
  destruct (Z.eq_dec n 0) as [->|Hz]; [reflexivity|].
  pose proof (Z.log2_spec n). change (Z.log2 n + 1) with (Z.succ (Z.log2 n)). lia.
Qed.

Lemma digit_is_not_minus (c : ascii) : is_digit c = true -> (code c =? 45)%N = false.
Proof.
  unfold is_digit, between. intros H. apply andb_prop in H as [H _].
  apply N.leb_le in H. apply N.eqb_neq. lia.
Qed.

(** After a member no number goes on. *)
Lemma number_ends (rest : string) (a k m : Z) :
  after_member rest ->
  digits a k rest = (a, k, rest)
  /\ parse_frac m rest = Some (m, 0, rest)
  /\ parse_exp rest = Some (0, rest).
Proof.
  intros (c & r & -> & Hc). unfold parse_frac, parse_exp. cbn [digits].
  unfold is_digit, between. destruct Hc as [-> | ->]; repeat split.
Qed.

Lemma parse_number_unsigned (c : ascii) (r : string) :
  (code c =? 45)%N = false ->
  parse_number (String c r)
  = match parse_int (String c r) with
    | None => None
    | Some (i, s2) =>
        match parse_frac i s2 with
        | None => None
        | Some (m, n, s3) =>
            match parse_exp s3 with
            | None => None
            | Some (e, s4) => Some (JNum (1 * m) (e - n), s4)
            end
        end
    end.
Proof. intros H. unfold parse_number. rewrite H. reflexivity. Qed.

(** A non-negative integer reads back as itself. *)
Lemma parse_printed_nat (n : Z) (rest : string) :
  0 <= n -> after_member rest ->
  parse_number (print_int n ++ rest)%string = Some (JNum n 0, rest).
Proof.
  intros Hn Hrest.
  unfold print_int. replace (n <? 0) with false by (symmetry; apply Z.ltb_ge; exact Hn).
  unfold print_nat. rewrite digits_of_app.
  change (EmptyString ++ rest)%string with rest.
  set (fuel := Z.to_nat (Z.log2 n)).
  pose proof (print_nat_bound n Hn) as Hb. fold fuel in Hb.
  destruct (number_ends rest n 0 n Hrest) as (_ & Hfrac & Hexp).
  destruct (Z.eq_dec n 0) as [->|Hz].
  - assert (Hs : digits_of fuel 0 rest = String "0" rest) by (destruct fuel; reflexivity).
    rewrite Hs, parse_number_unsigned by reflexivity.
    change (parse_int (String "0" rest)) with (Some (0, rest)). cbv iota beta.
    rewrite Hfrac, Hexp. reflexivity.
  - destruct (digits_of_head fuel n rest) as (c & r & Hs & Hdig & Hnz); [lia|].
    destruct (digits_of_read fuel n rest 0 0 Hb) as (d & Hd & Hread).
    destruct (number_ends rest (0 * 10 ^ d + n) (0 + d) n Hrest) as (Hstop & _ & _).
    rewrite Hstop in Hread.
    rewrite Hs, (parse_number_unsigned c r (digit_is_not_minus c Hdig)).
    unfold parse_int. rewrite Hnz, Hdig. rewrite <- Hs, Hread.
    replace (0 * 10 ^ d + n) with n by lia.
    rewrite Hfrac, Hexp. f_equal. f_equal. f_equal. lia.
Qed.

Lemma app_cons_assoc (a b d : string) (c : ascii) :
  ((a ++ String c b) ++ d)%string = (a ++ String c (b ++ d))%string.
Proof. rewrite append_assoc. reflexivity. Qed.

Lemma parse_members_quoted (f : nat) (acc : list (string * JSON)) (r0 : string) :
  parse_members (S f) acc (String dquote r0)
  = match parse_chars r0 with
    | None => None
    | Some (k, r1) =>
        match skip_ws r1 with
        | String c r2 =>
            if (code c =? 58)%N then
              match parse_value f r2 with
              | None => None
              | Some (v, rest) =>
                  match skip_ws rest with
                  | String d r3 =>
                      if (code d =? 44)%N then parse_members f (obj_set k v acc) r3
                      else if (code d =? 125)%N then Some (JObj (obj_set k v acc), r3)
                      else None
                  | EmptyString => None
                  end
              end
            else None
        | EmptyString => None
        end
    end.
Proof. reflexivity. Qed.

(** A member followed by a comma hands over to the next member. *)
Lemma parse_member_then (f : nat) (acc : list (string * JSON)) (k : string) (v : JSON)
    (text rest : string) :
  parse_value f text = Some (v, String "," rest) ->
  parse_members (S f) acc (quote k ++ String ":" text)%string
  = parse_members f (obj_set k v acc) rest.
Proof.
  intros Hv. rewrite quote_app, parse_members_quoted, parse_escaped.
  change (skip_ws (String ":" text)) with (String ":" text). cbv iota beta.
  change (code ":" =? 58)%N with true. cbv iota. rewrite Hv. reflexivity.
Qed.

(** A member followed by the closing brace ends the object. *)
Lemma parse_member_last (f : nat) (acc : list (string * JSON)) (k : string) (v : JSON)
    (text rest : string) :
  parse_value f text = Some (v, String "}" rest) ->
  parse_members (S f) acc (quote k ++ String ":" text)%string
  = Some (JObj (obj_set k v acc), rest).
Proof.
  intros Hv. rewrite quote_app, parse_members_quoted, parse_escaped.
  change (skip_ws (String ":" text)) with (String ":" text). cbv iota beta.
  change (code ":" =? 58)%N with true. cbv iota. rewrite Hv. reflexivity.
Qed.

Lemma parse_value_quoted (f : nat) (s rest : string) :
  parse_value (S f) (quote s ++ rest)%string = Some (JStr s, rest).
Proof.
  rewrite quote_app.
  change (parse_value (S f) (String dquote (escape s ++ String dquote rest)%string))
    with (match parse_chars (escape s ++ String dquote rest)%string with
          | Some (t, after) => Some (JStr t, after)
          | None => None
          end).
  rewrite parse_escaped. reflexivity.
Qed.

Lemma parse_value_digit (f : nat) (c : ascii) (r : string) :
  is_digit c = true -> parse_value (S f) (String c r) = parse_number (String c r).
Proof.
  intros H.
  destruct c as [[] [] [] [] [] [] [] []]; try (vm_compute in H; discriminate H);
    reflexivity.
Qed.

Lemma printed_nat_head (n : Z) (rest : string) :
  0 <= n ->
  exists c r, (print_int n ++ rest)%string = String c r /\ is_digit c = true.
Proof.
  intros Hn. unfold print_int.
  replace (n <? 0) with false by (symmetry; apply Z.ltb_ge; exact Hn).
  unfold print_nat. rewrite digits_of_app.
  destruct (Z.eq_dec n 0) as [->|Hz].
  - exists "0"%char, (EmptyString ++ rest)%string. split; [|reflexivity].
    destruct (Z.to_nat (Z.log2 0)); reflexivity.
  - destruct (digits_of_head (Z.to_nat (Z.log2 n)) n (EmptyString ++ rest)%string)
      as (c & r & Hs & Hdig & _).
    { pose proof (print_nat_bound n Hn). lia. }
    exists c, r. split; assumption.
Qed.

Lemma parse_value_printed_nat (f : nat) (n : Z) (rest : string) :
  0 <= n -> after_member rest ->
  parse_value (S f) (print_int n ++ rest)%string = Some (JNum n 0, rest).
Proof.
  intros Hn Hrest. destruct (printed_nat_head n rest Hn) as (c & r & Hs & Hdig).
  rewrite Hs, (parse_value_digit f c r Hdig), <- Hs.
  apply parse_printed_nat; assumption.
Qed.

Lemma print_num_int (m : Z) : print_num m 0 = print_int m.
Proof. reflexivity. Qed.

Lemma parse_value_object (f : nat) (k rest : string) :
  parse_value (S f) (String "{" (quote k ++ rest)%string)
  = parse_members f [] (quote k ++ rest)%string.
Proof. rewrite quote_app. reflexivity. Qed.

Lemma after_comma (rest : string) : after_member (String "," rest).
Proof. exists ","%char, rest. split; [reflexivity | left; reflexivity]. Qed.

Lemma after_brace (rest : string) : after_member (String "}" rest).
Proof. exists "}"%char, rest. split; [reflexivity | right; reflexivity]. Qed.

(** The text of a session parses back to the session. *)
Lemma parse_session_text (name : string) (display : option string) (token : string)
    (now : Z) (f : nat) :
  0 <= now ->
  parse_value (8 + f)
    (stringify (sessionData (Some (JStr name)) (option_map JStr display) token now))
  = Some (sessionData (Some (JStr name)) (option_map JStr display) token now, EmptyString).
Proof.
  intros Hnow.
  assert (Hexp : 0 <= now + SESSION_DURATION_MS) by (unfold SESSION_DURATION_MS; lia).
  destruct display as [d|];
    cbn [sessionData field option_map app stringify map join_fields fold_left fst snd
         Nat.add];
    rewrite !print_num_int, !app_cons_assoc, parse_value_object.
  - erewrite (parse_member_then _ _ _ (JStr name)) by apply parse_value_quoted.
    erewrite (parse_member_then _ _ _ (JStr d)) by apply parse_value_quoted.
    erewrite (parse_member_then _ _ _ (JStr token)) by apply parse_value_quoted.
    erewrite (parse_member_then _ _ _ (JNum now 0))
      by (apply parse_value_printed_nat; [exact Hnow | apply after_comma]).
    rewrite (parse_member_last _ _ _ (JNum (now + SESSION_DURATION_MS) 0)
               _ EmptyString)
      by (apply parse_value_printed_nat; [exact Hexp | apply after_brace]).
    reflexivity.
  - erewrite (parse_member_then _ _ _ (JStr name)) by apply parse_value_quoted.
    erewrite (parse_member_then _ _ _ (JStr token)) by apply parse_value_quoted.
    erewrite (parse_member_then _ _ _ (JNum now 0))
      by (apply parse_value_printed_nat; [exact Hnow | apply after_comma]).
    rewrite (parse_member_last _ _ _ (JNum (now + SESSION_DURATION_MS) 0)
               _ EmptyString)
      by (apply parse_value_printed_nat; [exact Hexp | apply after_brace]).
    reflexivity.
Qed.

Lemma session_text_length (name : string) (display : option string) (token : string)
    (now : Z) :
  exists f,
    (2 * String.length
           (stringify (sessionData (Some (JStr name)) (option_map JStr display) token now))
     + 2)%nat = (8 + f)%nat.
Proof.
  assert (H : exists r,
             stringify (sessionData (Some (JStr name)) (option_map JStr display) token now)
             = String "{" (String dquote (String "u" r))).
  { destruct display as [d|];
      cbn [sessionData field option_map app stringify map join_fields fold_left fst snd];
      rewrite !app_cons_assoc, quote_app; eexists; reflexivity. }
  destruct H as [r ->]. exists (2 * String.length r)%nat. cbn [String.length]. lia.
Qed.

Lemma parse_session (name : string) (display : option string) (token : string) (now : Z) :
  0 <= now ->
  parse (stringify (sessionData (Some (JStr name)) (option_map JStr display) token now))
  = Some (sessionData (Some (JStr name)) (option_map JStr display) token now).
Proof.
  intros Hnow. unfold parse.
  destruct (session_text_length name display token now) as [f ->].
  rewrite (parse_session_text name display token now f Hnow). reflexivity.
Qed.

(** Against a number written as an integer the comparison is the plain
    one: an integer is never inside the gap below another. *)
Lemma gt_num_integer (x n : Z) : gt_num x n 0 = (n <? x).
Proof.
  unfold gt_num. change (0 <=? 0) with true. cbv iota.
  change (10 ^ 0) with 1. rewrite Z.mul_1_r.
  destruct ((0 <? x) && (x <? 2 ^ 52)) eqn:Hx; [|reflexivity].
  apply andb_true_iff in Hx. destruct Hx as [H0 H52].
  apply Z.ltb_lt in H0, H52.
  assert (Hp : 0 <= Z.log2 x < 52).
  { split; [apply Z.log2_nonneg | apply Z.log2_lt_pow2; [exact H0 | exact H52]]. }
  assert (Hgap : 0 < half_gap x <= 2 ^ 52).
  { unfold half_gap. destruct (x =? 2 ^ Z.log2 x).
    - split; [apply Z.pow_pos_nonneg; lia | apply Z.pow_le_mono_r; lia].
    - split; [apply Z.pow_pos_nonneg; lia | apply Z.pow_le_mono_r; lia]. }
  change (2 ^ 52) with 4503599627370496 in Hgap.
  change (2 ^ 54) with 18014398509481984.
  destruct (n <? x) eqn:E.
  - apply Z.ltb_lt in E. apply Z.ltb_lt. lia.
  - apply Z.ltb_ge in E. apply Z.ltb_ge. lia.
Qed.

(** What was encoded at [t] passes the shared checks exactly while
    [now] is not past [t] plus the session duration. *)
Lemma edge_decode_encoded (name : string) (display : option string) (token : string)
    (t now : Z) :
  name <> EmptyString -> token <> EmptyString -> 0 <= t ->
  Edge.decodeSession_try now
    (encodeSession (sessionData (Some (JStr name)) (option_map JStr display) token t))
  = Returned
      (if t + SESSION_DURATION_MS <? now then None
       else Some (sessionData (Some (JStr name)) (option_map JStr display) token t)).
Proof.
  intros Hname Htoken Ht. unfold Edge.decodeSession_try, encodeSession.
  rewrite base64_round_trip, (parse_session name display token t Ht).
  assert (Hnz : (t + SESSION_DURATION_MS =? 0) = false)
    by (apply Z.eqb_neq; unfold SESSION_DURATION_MS; lia).
  destruct name as [|c name]; [contradiction|].
  destruct token as [|c' token]; [contradiction|].
  destruct display as [d|]; cbn -[gt_num]; rewrite Hnz; cbn -[gt_num];
    rewrite gt_num_integer; destruct (t + SESSION_DURATION_MS <? now); reflexivity.
Qed.

Lemma encode_not_empty (bytes : string) :
  bytes <> EmptyString -> Base64.encode bytes <> EmptyString.
Proof. destruct bytes as [|a [|b [|c r]]]; [contradiction | discriminate ..]. Qed.




(** ** What the decoders accept *)

Lemma getProp_prop (v : JSON) (k : string) :
  v <> JNull -> getProp v k = Returned (prop v k).
Proof. destruct v; try reflexivity. contradiction. Qed.

(** C3.  The code does not do what the claim, and its own header,
    say.  The header of [lib/auth.ts] lists a constant-time comparison
    for session validation, and the deployment notes call the sessions
    unforgeable; yet neither decoder compares the token with anything.
    The cookie of a session and the same cookie with the byte at
    position 39 replaced are both accepted, by both decoders, and the
    second is returned with a token that was never issued. *)
Lemma tampered_cookie_is_accepted :
  Scenario.cookie = encodeSession Scenario.session
  /\ Scenario.one_byte_apart Scenario.cookie SessionExample.tampered = true
  /\ Edge.decodeSession 5000 SessionExample.tampered
     = Some SessionExample.tampered_session
  /\ decodeSession Scenario.store 5000 SessionExample.tampered
     = Some SessionExample.tampered_session
  /\ SessionExample.tampered_session <> Scenario.session.
Proof.
  split; [reflexivity|]. split; [vm_compute; reflexivity|].
  split; [vm_compute; reflexivity|]. split; [vm_compute; reflexivity|].
  vm_compute. discriminate.
Qed.

(** ** The parser's fuel

    [parse] starts with two units of fuel per character and two more.
    That is always enough: from there on, more fuel changes nothing, so
    a [None] of [parse] is a syntax error and never a lack of fuel. *)

Lemma skip_ws_length (s : string) : (String.length (skip_ws s) <= String.length s)%nat.
Proof.
  induction s as [|c r IH]; [reflexivity|]. cbn [skip_ws].
  destruct (_ || _)%bool; cbn [String.length]; lia.
Qed.

Lemma skip_ws_cons (s r : string) (c : ascii) :
  skip_ws s = String c r -> (String.length r < String.length s)%nat.
Proof.
  intros H. pose proof (skip_ws_length s) as Hl. rewrite H in Hl.
  cbn [String.length] in Hl. lia.
Qed.

Lemma parse_chars_length (s : string) :
  forall t rest, parse_chars s = Some (t, rest) ->
                 (String.length rest < String.length s)%nat.
Proof.
  induction s as [s IH] using (well_founded_induction
                                 (well_founded_ltof _ String.length)).
  unfold ltof in IH. intros t rest H. destruct s as [|c r]; [discriminate|].
  cbn [parse_chars] in H. cbn [String.length].
  destruct (code c =? 34)%N; [injection H as _ <-; lia|].
  destruct (code c <? 32)%N; [discriminate|].
  destruct (code c =? 92)%N.
  - destruct r as [|e r1]; [discriminate|]. cbn [String.length].
    assert (Hplain : forall x,
               match parse_chars r1 with
               | Some (t0, rest0) => Some (String (ascii_of_N x) t0, rest0)
               | None => None
               end = Some (t, rest) -> (String.length rest < S (S (String.length r1)))%nat).
    { intros x Hx. destruct (parse_chars r1) as [[t0 rest0]|] eqn:Hp; [|discriminate].
      injection Hx as _ <-. specialize (IH r1). cbn [String.length] in IH.
      specialize (IH ltac:(lia) _ _ Hp). lia. }
    repeat (break_if; [eapply Hplain; eassumption|]).
    break_if; [|discriminate].
    destruct r1 as [|h1 [|h2 [|h3 [|h4 r2]]]]; try discriminate.
    destruct (hex_val h1), (hex_val h2), (hex_val h3), (hex_val h4); try discriminate.
    destruct (parse_chars r2) as [[t0 rest0]|] eqn:Hp; [|discriminate].
    injection H as _ <-. specialize (IH r2). cbn [String.length] in IH |- *.
    specialize (IH ltac:(lia) _ _ Hp). lia.
  - destruct (parse_chars r) as [[t0 rest0]|] eqn:Hp; [|discriminate].
    injection H as _ <-. specialize (IH r). cbn [String.length] in IH.
    specialize (IH ltac:(lia) _ _ Hp). lia.
Qed.

Lemma digits_length (s : string) :
  forall a k v n rest, digits a k s = (v, n, rest) ->
                       (String.length rest <= String.length s)%nat.
Proof.
  induction s as [|c r IH]; intros a k v n rest H; cbn [digits] in H.
  - injection H as _ _ <-. reflexivity.
  - destruct (is_digit c).
    + apply IH in H. cbn [String.length]. lia.
    + injection H as _ _ <-. reflexivity.
Qed.

Lemma parse_number_length (s : string) (v : JSON) (rest : string) :
  parse_number s = Some (v, rest) -> (String.length rest < String.length s)%nat.
Proof.
  unfold parse_number. intros H.
  assert (Hint : forall s1 i s2, parse_int s1 = Some (i, s2) ->
                                 (String.length s2 < String.length s1)%nat).
  { intros s1 i s2 Hi. destruct s1 as [|c r]; [discriminate|]. cbn [parse_int] in Hi.
    cbn [String.length].
    destruct (code c =? 48)%N; [injection Hi as _ <-; lia|].
    destruct (is_digit c) eqn:Hd; [|discriminate].
    destruct (digits 0 0 (String c r)) as [[v0 n0] rest0] eqn:Hg.
    injection Hi as _ <-. cbn [digits] in Hg. rewrite Hd in Hg.
    apply digits_length in Hg. lia. }
  assert (Hfrac : forall m s2 m' n s3, parse_frac m s2 = Some (m', n, s3) ->
                                       (String.length s3 <= String.length s2)%nat).
  { intros m s2 m' n s3 Hf. destruct s2 as [|c r]; cbn [parse_frac] in Hf.
    - injection Hf as _ _ <-. reflexivity.
    - destruct (code c =? 46)%N.
      + destruct (digits m 0 r) as [[v0 n0] rest0] eqn:Hg.
        destruct (n0 =? 0); [discriminate|]. injection Hf as _ _ <-.
        apply digits_length in Hg. cbn [String.length]. lia.
      + injection Hf as _ _ <-. reflexivity. }
  assert (Hexp : forall s3 e s4, parse_exp s3 = Some (e, s4) ->
                                 (String.length s4 <= String.length s3)%nat).
  { intros s3 e s4 He. destruct s3 as [|c r]; cbn [parse_exp] in He.
    - injection He as _ <-. reflexivity.
    - destruct ((code c =? 101) || (code c =? 69))%N.
      + assert (Hr1 : forall sign r1, (String.length r1 <= String.length r)%nat ->
                   match digits 0 0 r1 with
                   | (v0, n0, rest0) =>
                       if n0 =? 0 then None else Some (sign * v0, rest0)
                   end = Some (e, s4) ->
                   (String.length s4 <= String.length (String c r))%nat).
        { intros sign r1 Hl Hd.
          destruct (digits 0 0 r1) as [[v0 n0] rest0] eqn:Hg.
          destruct (n0 =? 0); [discriminate|]. injection Hd as _ <-.
          apply digits_length in Hg. cbn [String.length]. lia. }
        destruct r as [|d r']; [apply (Hr1 1 EmptyString); [reflexivity | exact He]|].
        destruct (code d =? 45)%N;
          [apply (Hr1 (-1) r'); [cbn [String.length]; lia | exact He]|].
        destruct (code d =? 43)%N;
          [apply (Hr1 1 r'); [cbn [String.length]; lia | exact He]|].
        apply (Hr1 1 (String d r')); [reflexivity | exact He].
      + injection He as _ <-. reflexivity. }
  assert (Hsign : forall sign s1, (String.length s1 <= String.length s)%nat ->
             match parse_int s1 with
             | None => None
             | Some (i, s2) =>
                 match parse_frac i s2 with
                 | None => None
                 | Some (m, n, s3) =>
                     match parse_exp s3 with
                     | None => None
                     | Some (e, s4) => Some (JNum (sign * m) (e - n), s4)
                     end
                 end
             end = Some (v, rest) -> (String.length rest < String.length s)%nat).
  { intros sign s1 Hl Hs.
    destruct (parse_int s1) as [[i s2]|] eqn:Hi; [|discriminate].
    destruct (parse_frac i s2) as [[[m n] s3]|] eqn:Hf; [|discriminate].
    destruct (parse_exp s3) as [[e s4]|] eqn:He; [|discriminate].
    injection Hs as _ <-.
    apply Hint in Hi. apply Hfrac in Hf. apply Hexp in He. lia. }
  destruct s as [|c r]; [apply (Hsign 1 EmptyString); [reflexivity | exact H]|].
  destruct (code c =? 45)%N.
  - apply (Hsign (-1) r); [cbn [String.length]; lia | exact H].
  - apply (Hsign 1 (String c r)); [reflexivity | exact H].
Qed.

Lemma strip_length (lit s rest : string) :
  strip lit s = Some rest -> (String.length rest <= String.length s)%nat.
Proof.
  revert s. induction lit as [|a l IH]; intros s H; cbn [strip] in H.
  - injection H as <-. reflexivity.
  - destruct s as [|b r]; [discriminate|]. destruct (Ascii.eqb a b); [|discriminate].
    apply IH in H. cbn [String.length]. lia.
Qed.

(** Whatever is parsed takes at least one character. *)
Lemma parse_consumes (fuel : nat) :
  (forall s v rest, parse_value fuel s = Some (v, rest) ->
                    (String.length rest < String.length s)%nat)
  /\ (forall acc s v rest, parse_elements fuel acc s = Some (v, rest) ->
                           (String.length rest < String.length s)%nat)
  /\ (forall acc s v rest, parse_members fuel acc s = Some (v, rest) ->
                           (String.length rest < String.length s)%nat).
Proof.
  induction fuel as [|f (IHv & IHe & IHm)]; [repeat split; intros; discriminate|].
  split; [|split].
  - intros s v rest H. cbn [parse_value] in H.
    destruct (skip_ws s) as [|c r] eqn:Hs; [discriminate|].
    pose proof (skip_ws_cons s r c Hs) as Hr.
    destruct (code c =? 123)%N.
    { destruct (skip_ws r) as [|c1 r1] eqn:Hs1; [discriminate|].
      pose proof (skip_ws_cons r r1 c1 Hs1) as Hr1.
      destruct (code c1 =? 125)%N; [injection H as _ <-; lia|].
      apply IHm in H. pose proof (skip_ws_length r). rewrite Hs1 in *. lia. }
    destruct (code c =? 91)%N.
    { destruct (skip_ws r) as [|c1 r1] eqn:Hs1; [discriminate|].
      pose proof (skip_ws_cons r r1 c1 Hs1) as Hr1.
      destruct (code c1 =? 93)%N; [injection H as _ <-; lia|].
      apply IHe in H. pose proof (skip_ws_length r). rewrite Hs1 in *. lia. }
    destruct (code c =? 34)%N.
    { destruct (parse_chars r) as [[t rest0]|] eqn:Hp; [|discriminate].
      injection H as _ <-. apply parse_chars_length in Hp. lia. }
    destruct (code c =? 116)%N.
    { destruct (strip "rue" r) as [rest0|] eqn:Hp; [|discriminate].
      injection H as _ <-. apply strip_length in Hp. lia. }
    destruct (code c =? 102)%N.
    { destruct (strip "alse" r) as [rest0|] eqn:Hp; [|discriminate].
      injection H as _ <-. apply strip_length in Hp. lia. }
    destruct (code c =? 110)%N.
    { destruct (strip "ull" r) as [rest0|] eqn:Hp; [|discriminate].
      injection H as _ <-. apply strip_length in Hp. lia. }
    apply parse_number_length in H. cbn [String.length] in H. lia.
  - intros acc s v rest H. cbn [parse_elements] in H.
    destruct (parse_value f s) as [[v0 rest0]|] eqn:Hv; [|discriminate].
    apply IHv in Hv.
    destruct (skip_ws rest0) as [|c r] eqn:Hs; [discriminate|].
    pose proof (skip_ws_cons rest0 r c Hs) as Hr.
    destruct (code c =? 44)%N; [apply IHe in H; lia|].
    destruct (code c =? 93)%N; [injection H as _ <-; lia | discriminate].
  - intros acc s v rest H. cbn [parse_members] in H.
    destruct (skip_ws s) as [|q r0] eqn:Hs; [discriminate|].
    pose proof (skip_ws_cons s r0 q Hs) as Hr0.
    destruct (code q =? 34)%N; [|discriminate].
    destruct (parse_chars r0) as [[k r1]|] eqn:Hp; [|discriminate].
    apply parse_chars_length in Hp.
    destruct (skip_ws r1) as [|c r2] eqn:Hs1; [discriminate|].
    pose proof (skip_ws_cons r1 r2 c Hs1) as Hr2.
    destruct (code c =? 58)%N; [|discriminate].
    destruct (parse_value f r2) as [[v0 rest0]|] eqn:Hv; [|discriminate].
    apply IHv in Hv.
    destruct (skip_ws rest0) as [|d r3] eqn:Hs2; [discriminate|].
    pose proof (skip_ws_cons rest0 r3 d Hs2) as Hr3.
    destruct (code d =? 44)%N; [apply IHm in H; lia|].
    destruct (code d =? 125)%N; [injection H as _ <-; lia | discriminate].
Qed.

(** One more unit of fuel changes nothing once there are two per
    character. *)
Lemma parse_fuel_step (fuel : nat) :
  (forall s, (2 * String.length s + 1 <= fuel)%nat ->
             parse_value (S fuel) s = parse_value fuel s)
  /\ (forall acc s, (2 * String.length s + 2 <= fuel)%nat ->
                    parse_elements (S fuel) acc s = parse_elements fuel acc s)
  /\ (forall acc s, (2 * String.length s + 2 <= fuel)%nat ->
                    parse_members (S fuel) acc s = parse_members fuel acc s).
Proof.
  induction fuel as [|f (IHv & IHe & IHm)]; [repeat split; intros; lia|].
  split; [|split].
  - intros s Hf. cbn [parse_value].
    destruct (skip_ws s) as [|c r] eqn:Hs; [reflexivity|].
    pose proof (skip_ws_cons s r c Hs) as Hr.
    destruct (code c =? 123)%N.
    { destruct (skip_ws r) as [|c1 r1] eqn:Hs1; [reflexivity|].
      destruct (code c1 =? 125)%N; [reflexivity|].
      apply IHm. pose proof (skip_ws_length r). rewrite Hs1 in *. lia. }
    destruct (code c =? 91)%N; [|reflexivity].
    destruct (skip_ws r) as [|c1 r1] eqn:Hs1; [reflexivity|].
    destruct (code c1 =? 93)%N; [reflexivity|].
    apply IHe. pose proof (skip_ws_length r). rewrite Hs1 in *. lia.
  - intros acc s Hf. cbn [parse_elements].
    rewrite IHv by lia.
    destruct (parse_value f s) as [[v0 rest0]|] eqn:Hv; [|reflexivity].
    apply (proj1 (parse_consumes f)) in Hv.
    destruct (skip_ws rest0) as [|c r] eqn:Hs; [reflexivity|].
    pose proof (skip_ws_cons rest0 r c Hs) as Hr.
    destruct (code c =? 44)%N; [|reflexivity].
    apply IHe. lia.
  - intros acc s Hf. cbn [parse_members].
    destruct (skip_ws s) as [|q r0] eqn:Hs; [reflexivity|].
    pose proof (skip_ws_cons s r0 q Hs) as Hr0.
    destruct (code q =? 34)%N; [|reflexivity].
    destruct (parse_chars r0) as [[k r1]|] eqn:Hp; [|reflexivity].
    apply parse_chars_length in Hp.
    destruct (skip_ws r1) as [|c r2] eqn:Hs1; [reflexivity|].
    pose proof (skip_ws_cons r1 r2 c Hs1) as Hr2.
    destruct (code c =? 58)%N; [|reflexivity].
    rewrite IHv by lia.
    destruct (parse_value f r2) as [[v0 rest0]|] eqn:Hv; [|reflexivity].
    apply (proj1 (parse_consumes f)) in Hv.
    destruct (skip_ws rest0) as [|d r3] eqn:Hs2; [reflexivity|].
    pose proof (skip_ws_cons rest0 r3 d Hs2) as Hr3.
    destruct (code d =? 44)%N; [|reflexivity].
    apply IHm. lia.
Qed.

(** [parse] does not depend on its fuel: any larger amount gives the
    same answer. *)
Theorem parse_fuel_is_enough (s : string) (extra : nat) :
  parse_value (2 * String.length s + 2 + extra) s
  = parse_value (2 * String.length s + 2) s.
Proof.
  induction extra as [|n IH]; [rewrite Nat.add_0_r; reflexivity|].
  rewrite Nat.add_succ_r, <- IH. apply (proj1 (parse_fuel_step _)). lia.
Qed.

(** ** The limiter's store *)

Section LimiterStore.

Import RateLimit RateLimitRuns RateLimitStore.

Local Open Scope list_scope.

Lemma get_set_other ip ip' v (m : Requests) :
  ip' <> ip -> get ip' (set ip v m) = get ip' m.
Proof.
  intros Hne. induction m as [|[k w] r IH]; simpl.
  - replace (String.eqb ip' ip) with false by (symmetry; apply String.eqb_neq; exact Hne).
    reflexivity.
  - destruct (String.eqb ip k) eqn:E; simpl.
    + apply String.eqb_eq in E. subst k.
      replace (String.eqb ip' ip) with false by (symmetry; apply String.eqb_neq; exact Hne).
      reflexivity.
    + destruct (String.eqb ip' k); [reflexivity | exact IH].
Qed.

Lemma get_cleanup_loop_none now k (m : Requests) :
  forall cleaned, get k m = None -> get k (cleanup_loop now cleaned m) = None.
Proof.
  induction m as [|[k0 w] r IH]; intros cleaned; simpl; [reflexivity|].
  destruct (String.eqb k k0) eqn:E; [discriminate|]. intros Hr.
  destruct (is_nil (recent now w)).
  - destruct (CLEANUP_BATCH_SIZE <=? cleaned + 1); [exact Hr | apply IH; exact Hr].
  - simpl. rewrite E.
    destruct (CLEANUP_BATCH_SIZE <=? cleaned); [exact Hr | apply IH; exact Hr].
Qed.

Lemma distinct_set ip v (m : Requests) : distinct m -> distinct (set ip v m).
Proof.
  induction m as [|[k w] r IH]; simpl; [intros _; split; [reflexivity | exact I]|].
  intros [Hk Hr]. destruct (String.eqb ip k) eqn:E; simpl.
  - split; assumption.
  - split; [|apply IH; exact Hr].
    rewrite get_set_other; [exact Hk|].
    intros ->. rewrite String.eqb_refl in E. discriminate.
Qed.

Lemma distinct_cleanup_loop now (m : Requests) :
  forall cleaned, distinct m -> distinct (cleanup_loop now cleaned m).
Proof.
  induction m as [|[k w] r IH]; intros cleaned; simpl; [exact id|].
  intros [Hk Hr]. destruct (is_nil (recent now w)).
  - destruct (CLEANUP_BATCH_SIZE <=? cleaned + 1); [exact Hr | apply IH; exact Hr].
  - simpl. destruct (CLEANUP_BATCH_SIZE <=? cleaned); split; try assumption.
    + apply get_cleanup_loop_none. exact Hk.
    + apply IH. exact Hr.
Qed.

Lemma recent_length now l : (length (recent now l) <= length l)%nat.
Proof. unfold recent. apply List.filter_length_le. Qed.

Lemma bounded_set ip v (m : Requests) :
  Z.of_nat (length v) <= MAX_REQUESTS -> bounded m -> bounded (set ip v m).
Proof.
  intros Hv. unfold bounded. induction m as [|[k w] r IH]; simpl; intros Hm.
  - constructor; [exact Hv | constructor].
  - inversion Hm as [|? ? Hw Hr]; subst.
    destruct (String.eqb ip k); constructor; try assumption. apply IH. exact Hr.
Qed.

Lemma bounded_cleanup_loop now (m : Requests) :
  forall cleaned, bounded m -> bounded (cleanup_loop now cleaned m).
Proof.
  unfold bounded. induction m as [|[k w] r IH]; intros cleaned Hm; simpl; [constructor|].
  inversion Hm as [|? ? Hw Hr]; subst. cbn [snd] in Hw.
  destruct (is_nil (recent now w)).
  - destruct (CLEANUP_BATCH_SIZE <=? cleaned + 1); [exact Hr | apply IH; exact Hr].
  - constructor.
    + cbn [snd]. pose proof (recent_length now w). lia.
    + destruct (CLEANUP_BATCH_SIZE <=? cleaned); [exact Hr | apply IH; exact Hr].
Qed.

(** What is outside the window now is outside of it later. *)
Lemma recent_later now t l : now <= t -> recent t (recent now l) = recent t l.
Proof.
  intros Hle. unfold recent. induction l as [|x l IH]; simpl; [reflexivity|].
  destruct (now - x <? WINDOW_MS) eqn:E; simpl; [rewrite IH; reflexivity|].
  replace (t - x <? WINDOW_MS) with false; [exact IH|].
  symmetry. apply Z.ltb_ge. apply Z.ltb_ge in E. lia.
Qed.

(** The loop changes nothing that a later reader of the store could
    see: only timestamps outside the window go. *)
Lemma cleanup_loop_view now t k (m : Requests) :
  now <= t -> forall cleaned, distinct m ->
  recent t (stamps k (cleanup_loop now cleaned m)) = recent t (stamps k m).
Proof.
  intros Hle. induction m as [|[k0 w] r IH]; intros cleaned; [reflexivity|].
  intros [Hk Hr]. cbn [cleanup_loop]. unfold stamps in *. cbn [get].
  destruct (String.eqb k k0) eqn:E.
  - apply String.eqb_eq in E. subst k0.
    destruct (recent now w) as [|x l] eqn:Hw; cbn [is_nil].
    + assert (Hnone : recent t w = []).
      { rewrite <- (recent_later now t w Hle), Hw. reflexivity. }
      rewrite Hnone.
      destruct (CLEANUP_BATCH_SIZE <=? cleaned + 1).
      * rewrite Hk. reflexivity.
      * rewrite (get_cleanup_loop_none now k r _ Hk). reflexivity.
    + cbn [get]. rewrite String.eqb_refl. rewrite <- Hw. apply recent_later. exact Hle.
  - destruct (recent now w) as [|x l] eqn:Hw; cbn [is_nil].
    + destruct (CLEANUP_BATCH_SIZE <=? cleaned + 1); [reflexivity | apply IH; exact Hr].
    + cbn [get]. rewrite E.
      destruct (CLEANUP_BATCH_SIZE <=? cleaned); [reflexivity | apply IH; exact Hr].
Qed.

(** With [cleaned] deletions made so far, the loop makes no more than
    the rest of the batch. *)
Lemma cleanup_loop_length now (m : Requests) :
  forall cleaned, 0 <= cleaned < CLEANUP_BATCH_SIZE ->
    Z.of_nat (length (cleanup_loop now cleaned m)) <= Z.of_nat (length m)
    /\ Z.of_nat (length m) - (CLEANUP_BATCH_SIZE - cleaned)
       <= Z.of_nat (length (cleanup_loop now cleaned m)).
Proof.
  induction m as [|[k w] r IH]; intros cleaned Hc.
  - simpl. lia.
  - cbn [cleanup_loop]. simpl length. rewrite Nat2Z.inj_succ.
    destruct (is_nil (recent now w)).
    + destruct (CLEANUP_BATCH_SIZE <=? cleaned + 1) eqn:E.
      * apply Z.leb_le in E. lia.
      * apply Z.leb_gt in E. specialize (IH (cleaned + 1)). lia.
    + replace (CLEANUP_BATCH_SIZE <=? cleaned) with false
        by (symmetry; apply Z.leb_gt; lia).
      simpl length. rewrite Nat2Z.inj_succ. specialize (IH cleaned Hc). lia.
Qed.

Lemma remaining_stamps now ip (m : Requests) :
  getRemainingRequests now ip m
  = Z.max 0 (MAX_REQUESTS - Z.of_nat (length (recent now (stamps ip m)))).
Proof. reflexivity. Qed.

Lemma limited_stamps now random ip (m : Requests) :
  fst (isRateLimited now random ip m)
  = (MAX_REQUESTS <=? Z.of_nat (length (recent now (stamps ip m)))).
Proof.
  unfold isRateLimited. fold (stamps ip m).
  destruct (MAX_REQUESTS <=? Z.of_nat (length (recent now (stamps ip m)))); reflexivity.
Qed.

End LimiterStore.

(** X1.  [getRemainingRequests] and [isRateLimited] agree: the number
    of requests left is between zero and the maximum, and a request is
    refused exactly when no request is left at that instant. *)
Theorem remaining_is_zero_exactly_when_limited :
  forall (now : Z) (random : Q) (ip : string) (m : RateLimit.Requests),
    0 <= RateLimit.getRemainingRequests now ip m <= RateLimit.MAX_REQUESTS
    /\ (fst (RateLimit.isRateLimited now random ip m) = true
        <-> RateLimit.getRemainingRequests now ip m = 0).
Proof.
  intros now random ip m. rewrite remaining_stamps, limited_stamps.
  unfold RateLimit.MAX_REQUESTS. split; [lia|].
  rewrite Z.leb_le. lia.
Qed.

Lemma admitted_takes_one now random ip (m : RateLimit.Requests) :
  fst (RateLimit.isRateLimited now random ip m) = false ->
  RateLimit.getRemainingRequests now ip (snd (RateLimit.isRateLimited now random ip m))
  = RateLimit.getRemainingRequests now ip m - 1.
Proof.
  intros Hfree. rewrite limited_stamps in Hfree. apply Z.leb_gt in Hfree.
  rewrite !remaining_stamps.
  rewrite (proj2 (request_admitted ip now random m Hfree)).
  rewrite recent_app, recent_idempotent, length_app.
  unfold RateLimit.recent at 2. cbn [List.filter].
  replace (now - now <? RateLimit.WINDOW_MS) with true
    by (symmetry; apply Z.ltb_lt; unfold RateLimit.WINDOW_MS; lia).
  simpl length. unfold RateLimit.MAX_REQUESTS in *. lia.
Qed.

(** X2.  A request that is let through uses up exactly one of the
    requests left to its address, whether or not the cleanup runs. *)
Theorem admitted_request_takes_one_slot :
  forall (now : Z) (random : Q) (ip : string) (m : RateLimit.Requests),
    fst (RateLimit.isRateLimited now random ip m) = false ->
    RateLimit.getRemainingRequests now ip (snd (RateLimit.isRateLimited now random ip m))
    = RateLimit.getRemainingRequests now ip m - 1.
Proof. exact admitted_takes_one. Qed.

Lemma admitted_request_takes_one_slot_witness :
  RateLimit.getRemainingRequests 70000 "1.2.3.4"
    (snd (RateLimit.isRateLimited 70000 (1 # 20) "1.2.3.4" RateLimitStore.two_addresses))
  = RateLimit.getRemainingRequests 70000 "1.2.3.4" RateLimitStore.two_addresses - 1.
Proof.
  apply (admitted_request_takes_one_slot 70000 (1 # 20) "1.2.3.4"
           RateLimitStore.two_addresses).
  reflexivity.
Defined.

(** X3.  [isRateLimited] keeps the store in shape: when no address is
    written twice and none holds more than the maximum of timestamps,
    the same is true after the call, refused or not, cleaned or not. *)
Theorem isRateLimited_keeps_the_store_well_kept :
  forall (now : Z) (random : Q) (ip : string) (m : RateLimit.Requests),
    RateLimitStore.well_kept m ->
    RateLimitStore.well_kept (snd (RateLimit.isRateLimited now random ip m)).
Proof.
  intros now random ip m [Hd Hb]. unfold RateLimit.isRateLimited.
  set (l := RateLimit.recent now _).
  destruct (RateLimit.MAX_REQUESTS <=? Z.of_nat (length l)) eqn:E; [split; assumption|].
  apply Z.leb_gt in E. cbn [snd].
  assert (Hl : Z.of_nat (length (l ++ [now])%list) <= RateLimit.MAX_REQUESTS).
  { rewrite length_app. simpl length. lia. }
  pose proof (distinct_set ip (l ++ [now])%list m Hd) as Hd1.
  pose proof (bounded_set ip (l ++ [now])%list m Hl Hb) as Hb1.
  destruct (Qlt_le_dec random (1 # 10)); [|split; assumption].
  unfold RateLimit.cleanupOldEntries.
  destruct (RateLimit.MAX_IPS_IN_MEMORY <? _); [|split; assumption].
  split; [apply distinct_cleanup_loop | apply bounded_cleanup_loop]; assumption.
Qed.

Lemma isRateLimited_keeps_the_store_well_kept_witness :
  RateLimitStore.well_kept
    (snd (RateLimit.isRateLimited 70000 (1 # 20) "9.9.9.9" RateLimitStore.two_addresses)).
Proof.
  apply (isRateLimited_keeps_the_store_well_kept 70000 (1 # 20) "9.9.9.9"
           RateLimitStore.two_addresses).
  split.
  - simpl. repeat split; reflexivity.
  - repeat constructor; simpl; unfold RateLimit.MAX_REQUESTS; lia.
Defined.

(** X4.  A call for one address changes nothing another address can
    observe: at the time of the call and at any later time, the
    timestamps of the other address that are still inside the window
    are the same before and after, so every later answer and every
    later count for it is the same. *)
Theorem isRateLimited_leaves_other_addresses :
  forall (now t : Z) (random : Q) (ip other : string) (m : RateLimit.Requests),
    RateLimitStore.distinct m -> other <> ip -> now <= t ->
    RateLimit.recent t
      (RateLimitRuns.stamps other (snd (RateLimit.isRateLimited now random ip m)))
    = RateLimit.recent t (RateLimitRuns.stamps other m).
Proof.
  intros now t random ip other m Hd Hne Hle. unfold RateLimit.isRateLimited.
  set (l := RateLimit.recent now _).
  destruct (RateLimit.MAX_REQUESTS <=? Z.of_nat (length l)); [reflexivity|]. cbn [snd].
  assert (Hset : RateLimitRuns.stamps other (RateLimit.set ip (l ++ [now])%list m)
                 = RateLimitRuns.stamps other m).
  { unfold RateLimitRuns.stamps. rewrite get_set_other by exact Hne. reflexivity. }
  destruct (Qlt_le_dec random (1 # 10)); [|rewrite Hset; reflexivity].
  unfold RateLimit.cleanupOldEntries.
  destruct (RateLimit.MAX_IPS_IN_MEMORY <? _); [|rewrite Hset; reflexivity].
  rewrite cleanup_loop_view; [rewrite Hset; reflexivity | exact Hle |].
  apply distinct_set. exact Hd.
Qed.

Lemma isRateLimited_leaves_other_addresses_witness :
  RateLimit.recent 70500
    (RateLimitRuns.stamps "5.6.7.8"
       (snd (RateLimit.isRateLimited 70000 (1 # 20) "1.2.3.4" RateLimitStore.two_addresses)))
  = RateLimit.recent 70500 (RateLimitRuns.stamps "5.6.7.8" RateLimitStore.two_addresses).
Proof.
  apply (isRateLimited_leaves_other_addresses 70000 70500 (1 # 20) "1.2.3.4" "5.6.7.8"
           RateLimitStore.two_addresses).
  - simpl. repeat split; reflexivity.
  - discriminate.
  - lia.
Defined.

(** X5.  One run of [cleanupOldEntries] never adds an address and
    deletes no more than one batch of them, so a store far above the
    ceiling stays above it after the run. *)
Theorem cleanup_deletes_at_most_one_batch :
  forall (now : Z) (m : RateLimit.Requests),
    Z.of_nat (length (RateLimit.cleanupOldEntries now m)) <= Z.of_nat (length m)
    /\ Z.of_nat (length m) - RateLimit.CLEANUP_BATCH_SIZE
       <= Z.of_nat (length (RateLimit.cleanupOldEntries now m)).
Proof.
  intros now m. unfold RateLimit.cleanupOldEntries.
  destruct (RateLimit.MAX_IPS_IN_MEMORY <? Z.of_nat (length m)).
  - pose proof (cleanup_loop_length now m 0) as H.
    unfold RateLimit.CLEANUP_BATCH_SIZE in *. lia.
  - unfold RateLimit.CLEANUP_BATCH_SIZE. lia.
Qed.

(** X6.  Nothing that a later reader of the limiter could see is lost
    in a cleanup: for every address of a store that writes no address
    twice, the timestamps still inside the window at the time of the
    cleanup or later are the same before and after it. *)
Theorem cleanup_forgets_nothing_live :
  forall (now t : Z) (ip : string) (m : RateLimit.Requests),
    RateLimitStore.distinct m -> now <= t ->
    RateLimit.recent t (RateLimitRuns.stamps ip (RateLimit.cleanupOldEntries now m))
    = RateLimit.recent t (RateLimitRuns.stamps ip m).
Proof.
  intros now t ip m Hd Hle. unfold RateLimit.cleanupOldEntries.
  destruct (RateLimit.MAX_IPS_IN_MEMORY <? _); [|reflexivity].
  apply cleanup_loop_view; assumption.
Qed.

Lemma cleanup_forgets_nothing_live_witness :
  RateLimit.recent 70500
    (RateLimitRuns.stamps "1.2.3.4"
       (RateLimit.cleanupOldEntries 70000 RateLimitStore.two_addresses))
  = RateLimit.recent 70500 (RateLimitRuns.stamps "1.2.3.4" RateLimitStore.two_addresses).
Proof.
  apply (cleanup_forgets_nothing_live 70000 70500 "1.2.3.4" RateLimitStore.two_addresses).
  - simpl. repeat split; reflexivity.
  - lia.
Defined.

(** ** The lockout tracker, further *)

Section Tracker.

Variable bcrypt_compare : string -> string -> bool.
Variable file : UsersFile.

Lemma isLockedOut_sound now u (m : Attempts) :
  sound m -> sound (snd (isLockedOut now u m)).
Proof.
  intros Hs. unfold isLockedOut.
  destruct (m !! toLowerCase u) as [a|]; [|exact Hs].
  destruct (locked_field a) as [l|]; [|exact Hs].
  destruct (now <? l); [exact Hs|].
  destruct (l <=? now); [|exact Hs].
  apply map_Forall_delete. exact Hs.
Qed.

(** A name that is let past the lock has fewer failures counted than
    the threshold. *)
Lemma isLockedOut_below now u (m : Attempts) :
  sound m -> fst (isLockedOut now u m) = false ->
  below_threshold (toLowerCase u) (snd (isLockedOut now u m)).
Proof.
  intros Hs. unfold isLockedOut, below_threshold.
  destruct (m !! toLowerCase u) as [a|] eqn:Hm;
    [|cbn [snd]; rewrite Hm; intros _; exact I].
  destruct (Hs _ _ Hm) as (Hc & Ht & Hl).
  unfold locked_field. rewrite Hl.
  destruct (maxAttempts <=? count a) eqn:E.
  - replace (lastAttempt a + lockoutDuration =? 0) with false
      by (symmetry; apply Z.eqb_neq; unfold lockoutDuration; lia).
    destruct (now <? lastAttempt a + lockoutDuration) eqn:E1; [discriminate|].
    replace (lastAttempt a + lockoutDuration <=? now) with true
      by (symmetry; apply Z.leb_le; apply Z.ltb_ge in E1; exact E1).
    intros _. cbn [snd]. rewrite lookup_delete_eq. exact I.
  - intros _. cbn [snd]. rewrite Hm. apply Z.leb_gt in E. exact E.
Qed.

Lemma record_sound now u (m : Attempts) :
  0 <= now -> sound m -> below_threshold (toLowerCase u) m ->
  sound (snd (recordFailedAttempt now u m)).
Proof.
  intros Hnow Hs. unfold below_threshold, recordFailedAttempt.
  assert (Hfirst : sound_attempt (mkAttempt 1 now None)).
  { unfold sound_attempt, maxAttempts. simpl. repeat split; lia || reflexivity. }
  destruct (m !! toLowerCase u) as [a|] eqn:Hm.
  - intros Hlt. destruct (Hs _ _ Hm) as (Hc & Ht & Hl).
    destruct (attemptWindow <? now - lastAttempt a);
      [cbn [snd]; apply map_Forall_insert_2; assumption|].
    destruct (maxAttempts <=? count a + 1) eqn:E; cbn [snd]; apply map_Forall_insert_2;
      try assumption; unfold sound_attempt; cbn [count lastAttempt lockedUntil]; rewrite E.
    + repeat split; lia || reflexivity.
    + rewrite Hl. replace (maxAttempts <=? count a) with false
        by (symmetry; apply Z.leb_gt; exact Hlt).
      repeat split; lia || reflexivity.
  - intros _. cbn [snd]. apply map_Forall_insert_2; assumption.
Qed.

Variable username : string.
Variable user : JSON.
Variable hash : string.

Hypothesis name_not_blank : trim username <> EmptyString.

Let key : string := toLowerCase username.

Hypothesis user_found : findUser file username = Returned (Some user).
Hypothesis hash_stored : getProp user "passwordHash" = Returned (Some (JStr hash)).

(** The right password against an unlocked name returns the record and
    drops what was counted. *)
Lemma right_password_accepted now now' pw (m : Attempts) :
  pw <> EmptyString -> bcrypt_compare pw hash = true -> unlocked username m ->
  verifyCredentials bcrypt_compare file now now' (mkCredentials username pw) m
  = (Some user, delete key m).
Proof.
  intros Hpw Hok Hun. unfold verifyCredentials.
  rewrite (verify_start_unlocked file username user hash name_not_blank user_found
             hash_stored now pw m Hpw Hun).
  unfold verify_finish. rewrite Hok. reflexivity.
Qed.

End Tracker.

(** X8.  Calls made one after the other keep the lockout state sound:
    if every entry counts between one and five failures, has a time
    that is not negative, and carries a lock exactly when its count is
    five, ending fifteen minutes after its last failure, then the same
    holds after any call of [verifyCredentials] that runs to its end at
    times that are not negative. *)
Theorem verifyCredentials_keeps_the_state_sound :
  forall (bcrypt_compare : string -> string -> bool) (file : UsersFile) (now now' : Z)
         (credentials : AuthCredentials) (m : Attempts),
    0 <= now -> 0 <= now' -> sound m ->
    sound (snd (verifyCredentials bcrypt_compare file now now' credentials m)).
Proof.
  intros bc file now now' c m Hnow Hnow' Hs.
  unfold verifyCredentials, verify_start, verify_start_try.
  destruct (is_empty (username c) || (strlen (trim (username c)) =? 0)); [exact Hs|].
  destruct (is_empty (password c) || (strlen (password c) =? 0)); [exact Hs|].
  pose proof (isLockedOut_sound now (username c) m Hs) as Hs1.
  pose proof (isLockedOut_below now (username c) m Hs) as Hb.
  destruct (isLockedOut now (username c) m) as [locked m1]. cbn [fst snd] in *.
  destruct locked; [exact Hs1|]. specialize (Hb eq_refl).
  destruct (findUser file (username c)) as [[user|]|e]; cbn [tryCatch snd].
  - destruct (getProp user "passwordHash") as [[[| | |h| |]|]|]; cbn [tryCatch]; try exact Hs1.
    unfold verify_finish. destruct (bc (password c) h); cbn [negb snd].
    + apply map_Forall_delete. exact Hs1.
    + apply record_sound; assumption.
  - apply record_sound; assumption.
  - exact Hs1.
Qed.

Lemma verifyCredentials_keeps_the_state_sound_witness :
  sound (snd (verifyCredentials IdealBcrypt.compare Scenario.store 2000 2300
                (mkCredentials "alice" "not-the-password") ∅)).
Proof.
  apply (verifyCredentials_keeps_the_state_sound IdealBcrypt.compare Scenario.store
           2000 2300 (mkCredentials "alice" "not-the-password") ∅).
  - lia.
  - lia.
  - apply map_Forall_empty.
Defined.

(** X10.  A lock that has run out is forgotten together with its count:
    a wrong password given at or after the end of the lock is counted
    as the first failure of a new run, with no lock. *)
Theorem expired_lock_restarts_the_count :
  forall (bcrypt_compare : string -> string -> bool) (file : UsersFile)
         (username : string) (user : JSON) (hash : string) (m : Attempts)
         (c t l now now' : Z) (pw : string),
    trim username <> EmptyString ->
    findUser file username = Returned (Some user) ->
    getProp user "passwordHash" = Returned (Some (JStr hash)) ->
    m !! toLowerCase username = Some (mkAttempt c t (Some l)) -> l <> 0 -> l <= now ->
    pw <> EmptyString -> bcrypt_compare pw hash = false ->
    verifyCredentials bcrypt_compare file now now' (mkCredentials username pw) m
    = (None, <[toLowerCase username := mkAttempt 1 now' None]> m).
Proof.
  intros bc file username user hash m c t l now now' pw Hname Hfind Hhash Hm Hl Hnow
    Hpw Hbad.
  unfold verifyCredentials, verify_start, verify_start_try. read_credentials.
  rewrite (not_blank_checks _ Hname), (password_checks _ Hpw).
  rewrite (isLockedOut_after username m c t l now Hm Hl Hnow), Hfind, Hhash.
  cbn [tryCatch]. unfold verify_finish. rewrite Hbad. cbn [negb].
  rewrite (record_first username now' (delete (toLowerCase username) m))
    by apply lookup_delete_eq.
  rewrite insert_delete_eq. reflexivity.
Qed.

Lemma expired_lock_restarts_the_count_witness :
  verifyCredentials IdealBcrypt.compare Scenario.store 901000 901300
    (mkCredentials "alice" "not-the-password") SpellingExample.alice_locked
  = (None, <[toLowerCase "alice" := mkAttempt 1 901300 None]> SpellingExample.alice_locked).
Proof.
  apply (expired_lock_restarts_the_count IdealBcrypt.compare Scenario.store "alice"
           Scenario.alice (IdealBcrypt.hash "pw12345678") SpellingExample.alice_locked
           5 1000 (1000 + lockoutDuration) 901000 901300 "not-the-password").
  - vm_compute. discriminate.
  - vm_compute. reflexivity.
  - reflexivity.
  - reflexivity.
  - vm_compute. discriminate.
  - vm_compute. discriminate.
  - discriminate.
  - reflexivity.
Defined.

(** X12.  The lock is kept under the lower-cased name as it was typed,
    the user is looked up under the lower-cased and trimmed name: for
    two spellings of one name that differ in the white space around it,
    a lock in force for the first does not stop the second.  The first
    is turned away whatever the password; the second, with nothing
    counted against it, returns the user record for the right
    password. *)
Theorem lock_is_kept_per_spelling :
  forall (bcrypt_compare : string -> string -> bool) (file : UsersFile)
         (locked other : string) (user : JSON) (hash : string) (m : Attempts)
         (c t l now now' : Z) (pw : string),
    trim (toLowerCase other) = trim (toLowerCase locked) ->
    toLowerCase other <> toLowerCase locked ->
    trim locked <> EmptyString -> trim other <> EmptyString ->
    findUser file locked = Returned (Some user) ->
    getProp user "passwordHash" = Returned (Some (JStr hash)) ->
    m !! toLowerCase locked = Some (mkAttempt c t (Some l)) -> l <> 0 -> now < l ->
    m !! toLowerCase other = None ->
    pw <> EmptyString -> bcrypt_compare pw hash = true ->
    verifyCredentials bcrypt_compare file now now' (mkCredentials locked pw) m = (None, m)
    /\ fst (verifyCredentials bcrypt_compare file now now' (mkCredentials other pw) m)
       = Some user.
Proof.
  intros bc file locked other user hash m c t l now now' pw Hsame Hdiff Hname Hname'
    Hfind Hhash Hm Hl Hnow Hclean Hpw Hok.
  split.
  - apply (verify_during_lock bc file locked Hname m c t l now now' pw Hm Hl Hnow).
  - assert (Hfind' : findUser file other = Returned (Some user)).
    { unfold findUser in *. rewrite Hsame. exact Hfind. }
    assert (Hun : unlocked other m) by (unfold unlocked; rewrite Hclean; exact I).
    rewrite (right_password_accepted bc file other user hash Hname' Hfind' Hhash
               now now' pw m Hpw Hok Hun).
    reflexivity.
Qed.

Lemma lock_is_kept_per_spelling_witness :
  verifyCredentials IdealBcrypt.compare Scenario.store 2000 2300
    (mkCredentials "alice" "pw12345678") SpellingExample.alice_locked
  = (None, SpellingExample.alice_locked)
  /\ fst (verifyCredentials IdealBcrypt.compare Scenario.store 2000 2300
            (mkCredentials "alice " "pw12345678") SpellingExample.alice_locked)
     = Some Scenario.alice.
Proof.
  apply (lock_is_kept_per_spelling IdealBcrypt.compare Scenario.store "alice" "alice "
           Scenario.alice (IdealBcrypt.hash "pw12345678") SpellingExample.alice_locked
           5 1000 (1000 + lockoutDuration) 2000 2300 "pw12345678").
  - reflexivity.
  - vm_compute. discriminate.
  - vm_compute. discriminate.
  - vm_compute. discriminate.
  - vm_compute. reflexivity.
  - reflexivity.
  - reflexivity.
  - vm_compute. discriminate.
  - vm_compute. reflexivity.
  - reflexivity.
  - discriminate.
  - reflexivity.
Defined.

(** ** Case and white space of names *)

Section Names.

Lemma trimStart_head s :
  trimStart s = EmptyString
  \/ exists c r, trimStart s = String c r /\ is_space c = false.
Proof.
  induction s as [|c r IH]; simpl; [left; reflexivity|].
  destruct (is_space c) eqn:E; [exact IH|]. right. exists c, r. split; [reflexivity | exact E].
Qed.

Lemma trimEnd_keeps_head c r :
  is_space c = false -> exists r', trimEnd (String c r) = String c r'.
Proof.
  intros E. simpl. rewrite E. destruct (trimEnd r) as [|d r'].
  - exists EmptyString. reflexivity.
  - exists (String d r'). reflexivity.
Qed.

Lemma trimEnd_idempotent s : trimEnd (trimEnd s) = trimEnd s.
Proof.
  induction s as [|c r IH]; [reflexivity|]. simpl.
  destruct (trimEnd r) as [|d r'] eqn:E.
  - destruct (is_space c) eqn:Ec; simpl; [reflexivity|]. rewrite Ec. reflexivity.
  - change (trimEnd (String c (String d r')))
      with (match trimEnd (String d r') with
            | EmptyString => if is_space c then EmptyString else String c EmptyString
            | r'' => String c r''
            end).
    rewrite IH. reflexivity.
Qed.

Lemma trim_idempotent s : trim (trim s) = trim s.
Proof.
  unfold trim. destruct (trimStart_head s) as [->|(c & r & -> & Hc)]; [reflexivity|].
  destruct (trimEnd_keeps_head c r Hc) as [r' Hr]. rewrite Hr.
  assert (Hs : trimStart (String c r') = String c r') by (simpl; rewrite Hc; reflexivity).
  rewrite Hs, <- Hr. apply trimEnd_idempotent.
Qed.

End Names.

Lemma has_credentials_not_null entry : has_credentials entry = true -> entry <> JNull.
Proof. intros H ->. discriminate. Qed.

(** X16.  A fault while the user is looked up, or a stored hash that is
    not a string, is absorbed by [verifyCredentials]: the call returns
    [null] and counts no failure, so that the lockout state is what the
    lock check left. *)
Theorem lookup_faults_count_no_failure :
  forall (bcrypt_compare : string -> string -> bool) (file : UsersFile)
         (now now' : Z) (username pw : string) (m : Attempts),
    trim username <> EmptyString -> pw <> EmptyString ->
    (forall user hash,
       findUser file username = Returned (Some user) ->
       getProp user "passwordHash" <> Returned (Some (JStr hash))) ->
    findUser file username <> Returned None ->
    verifyCredentials bcrypt_compare file now now' (mkCredentials username pw) m
    = (None, snd (isLockedOut now username m)).
Proof.
  intros bc file now now' username pw m Hname Hpw Hhash Hsome.
  unfold verifyCredentials, verify_start, verify_start_try. read_credentials.
  rewrite (not_blank_checks _ Hname), (password_checks _ Hpw).
  destruct (isLockedOut now username m) as [locked m1]. cbn [snd].
  destruct locked; [reflexivity|].
  destruct (findUser file username) as [[user|]|e]; [|contradiction|reflexivity].
  specialize (Hhash user).
  destruct (getProp user "passwordHash") as [[[| | |h| |]|]|]; try reflexivity.
  contradiction (Hhash h); reflexivity.
Qed.

Lemma lookup_faults_count_no_failure_witness :
  verifyCredentials IdealBcrypt.compare StoreExample.numbered_first 2000 2300
    (mkCredentials "alice" "pw12345678") ∅
  = (None, snd (isLockedOut 2000 "alice" ∅))
  /\ verifyCredentials IdealBcrypt.compare StoreExample.unhashed_alice 2000 2300
       (mkCredentials "alice" "pw12345678") ∅
     = (None, snd (isLockedOut 2000 "alice" ∅)).
Proof.
  split.
  - apply (lookup_faults_count_no_failure IdealBcrypt.compare StoreExample.numbered_first
             2000 2300 "alice" "pw12345678" ∅).
    + vm_compute. discriminate.
    + discriminate.
    + vm_compute. discriminate.
    + vm_compute. discriminate.
  - apply (lookup_faults_count_no_failure IdealBcrypt.compare StoreExample.unhashed_alice
             2000 2300 "alice" "pw12345678" ∅).
    + vm_compute. discriminate.
    + discriminate.
    + intros user hash. vm_compute. intros [= <-]. discriminate.
    + vm_compute. discriminate.
Defined.

(** ** [sanitizeInput] *)

Section Sanitize.

Import Validation Clean.

(** Induction that steps over two characters at once. *)
Lemma string_ind2 (P : string -> Prop) :
  P EmptyString ->
  (forall c, P (String c EmptyString)) ->
  (forall c d r, P r -> P (String d r) -> P (String c (String d r))) ->
  forall s, P s.
Proof.
  intros H0 H1 H2 s.
  assert (H : P s /\ forall c, P (String c s)).
  { induction s as [|d r [IHr IHc]]; [split; [exact H0 | exact H1]|].
    split; [apply IHc|]. intros c. apply H2; [exact IHr | apply IHc]. }
  exact (proj1 H).
Qed.

Lemma code_inj c d : code c = code d -> c = d.
Proof.
  unfold code. intros H.
  rewrite <- (ascii_N_embedding c), <- (ascii_N_embedding d), H. reflexivity.
Qed.

Lemma is_sp_space c : is_sp c = true -> c = " "%char.
Proof. unfold is_sp. intros H. apply N.eqb_eq in H. apply code_inj. exact H. Qed.

Lemma is_blank_split c : is_blank c = is_sp c || is_tab c.
Proof. reflexivity. Qed.

Lemma is_lf_not_sp c : is_lf c = true -> is_sp c = false.
Proof.
  unfold is_lf, is_sp. intros H. apply N.eqb_eq in H. rewrite H. reflexivity.
Qed.

(** *** Each step keeps what the steps before it established *)

Lemma remove_control_all s : all_chars (fun c => negb (is_control c)) (remove_control s) = true.
Proof.
  induction s as [|c r IH]; simpl; [reflexivity|].
  destruct (is_control c) eqn:E; simpl; [exact IH | rewrite E, IH; reflexivity].
Qed.

Lemma crlf_to_lf_all p s : all_chars p s = true -> all_chars p (crlf_to_lf s) = true.
Proof.
  induction s as [|c|c d r IHr IHd] using string_ind2; intros H.
  - reflexivity.
  - simpl. destruct (code c =? 13)%N; exact H.
  - change (all_chars p (String c (String d r)))
      with (p c && all_chars p (String d r)) in H.
    apply andb_true_iff in H. destruct H as [Hc Hd].
    change (crlf_to_lf (String c (String d r)))
      with (if (code c =? 13)%N
            then if (code d =? 10)%N then String d (crlf_to_lf r)
                 else String c (crlf_to_lf (String d r))
            else String c (crlf_to_lf (String d r))).
    assert (Hkeep : all_chars p (String c (crlf_to_lf (String d r))) = true).
    { cbn [all_chars]. rewrite Hc, (IHd Hd). reflexivity. }
    destruct (code c =? 13)%N; [|exact Hkeep].
    destruct (code d =? 10)%N; [|exact Hkeep].
    cbn [all_chars] in Hd |- *. apply andb_true_iff in Hd. destruct Hd as [Hd Hr].
    rewrite Hd, (IHr Hr). reflexivity.
Qed.

Lemma cr_to_lf_all p s :
  p (ascii_of_N 10) = true -> all_chars p s = true -> all_chars p (cr_to_lf s) = true.
Proof.
  intros Hlf. induction s as [|c r IH]; [reflexivity|]. cbn [all_chars cr_to_lf].
  intros H. apply andb_true_iff in H. destruct H as [Hc Hr].
  rewrite (IH Hr). destruct (code c =? 13)%N; [rewrite Hlf | rewrite Hc]; reflexivity.
Qed.

Lemma cr_to_lf_no_cr s : all_chars (fun c => negb (is_cr c)) (cr_to_lf s) = true.
Proof.
  induction s as [|c r IH]; [reflexivity|]. cbn [all_chars cr_to_lf]. rewrite IH.
  unfold is_cr. destruct (code c =? 13)%N eqn:E; [reflexivity | rewrite E; reflexivity].
Qed.

Lemma collapse_blanks_all p s :
  p " "%char = true -> all_chars p s = true -> all_chars p (collapse_blanks s) = true.
Proof.
  intros Hsp. induction s as [|c r IH]; [reflexivity|].
  cbn [all_chars]. intros H. apply andb_true_iff in H. destruct H as [Hc Hr].
  specialize (IH Hr). cbn [collapse_blanks].
  destruct (is_blank c).
  - destruct r as [|d r']; [cbn [all_chars]; rewrite Hsp; reflexivity|].
    destruct (is_blank d); [exact IH|]. cbn [all_chars]. rewrite Hsp. exact IH.
  - cbn [all_chars]. rewrite Hc. exact IH.
Qed.

Lemma collapse_blanks_no_tab s :
  all_chars (fun c => negb (is_tab c)) (collapse_blanks s) = true.
Proof.
  induction s as [|c r IH]; [reflexivity|]. cbn [collapse_blanks].
  destruct (is_blank c) eqn:E.
  - destruct r as [|d r']; [reflexivity|].
    destruct (is_blank d); [exact IH|]. cbn [all_chars]. rewrite IH. reflexivity.
  - cbn [all_chars]. rewrite IH. rewrite is_blank_split in E.
    apply orb_false_iff in E. destruct E as [_ ->]. reflexivity.
Qed.

Lemma collapse_blanks_head s :
  starts_with_space (collapse_blanks s)
  = match s with String c _ => is_blank c | EmptyString => false end.
Proof.
  induction s as [|c r IH]; [reflexivity|]. cbn [collapse_blanks].
  destruct (is_blank c) eqn:E.
  - destruct r as [|d r']; [reflexivity|].
    destruct (is_blank d) eqn:Ed; [exact IH | reflexivity].
  - cbn [starts_with_space]. rewrite is_blank_split in E.
    apply orb_false_iff in E. destruct E as [-> _]. reflexivity.
Qed.

Lemma collapse_blanks_single s : no_double_space (collapse_blanks s) = true.
Proof.
  induction s as [|c r IH]; [reflexivity|]. cbn [collapse_blanks].
  destruct (is_blank c) eqn:E.
  - destruct r as [|d r']; [reflexivity|].
    destruct (is_blank d) eqn:Ed; [exact IH|].
    cbn [no_double_space]. rewrite IH, collapse_blanks_head, Ed. reflexivity.
  - cbn [no_double_space]. rewrite IH. rewrite is_blank_split in E.
    apply orb_false_iff in E. destruct E as [-> _]. reflexivity.
Qed.

Lemma three_newlines_run s : three_newlines_ahead s = (3 <=? lf_run s)%nat.
Proof.
  destruct s as [|a [|b [|c r]]]; cbn [three_newlines_ahead lf_run]; unfold is_lf;
    repeat match goal with
           | |- context [(code ?x =? 10)%N] => destruct (code x =? 10)%N
           end; reflexivity.
Qed.

Lemma cap_newlines_run s : lf_run (cap_newlines s) = Nat.min 3 (lf_run s).
Proof.
  induction s as [|c r IH]; [reflexivity|]. cbn [cap_newlines lf_run].
  rewrite three_newlines_run. unfold is_lf in *.
  destruct (code c =? 10)%N eqn:E; cbn [andb].
  - destruct (3 <=? lf_run r)%nat eqn:E3.
    + apply Nat.leb_le in E3. rewrite IH. lia.
    + apply Nat.leb_gt in E3. cbn [lf_run]. unfold is_lf. rewrite E, IH. lia.
  - cbn [lf_run]. unfold is_lf. rewrite E. reflexivity.
Qed.

Lemma cap_newlines_ahead s :
  three_newlines_ahead (cap_newlines s) = three_newlines_ahead s.
Proof.
  rewrite !three_newlines_run, cap_newlines_run.
  destruct (3 <=? lf_run s)%nat eqn:E.
  - apply Nat.leb_le in E. apply Nat.leb_le. lia.
  - apply Nat.leb_gt in E. apply Nat.leb_gt. lia.
Qed.

Lemma ahead_starts_with_lf s :
  three_newlines_ahead s = true -> starts_with_space s = false.
Proof.
  destruct s as [|a [|b [|c r]]]; cbn [three_newlines_ahead starts_with_space];
    try discriminate.
  intros H. apply andb_true_iff in H. destruct H as [H _].
  apply andb_true_iff in H. destruct H as [H _]. apply is_lf_not_sp. exact H.
Qed.

Lemma cap_newlines_head s : starts_with_space (cap_newlines s) = starts_with_space s.
Proof.
  induction s as [|c r IH]; [reflexivity|]. cbn [cap_newlines].
  destruct ((code c =? 10)%N && three_newlines_ahead r) eqn:E; [|reflexivity].
  apply andb_true_iff in E. destruct E as [Ec Er].
  rewrite IH, (ahead_starts_with_lf r Er). cbn [starts_with_space].
  symmetry. apply is_lf_not_sp. exact Ec.
Qed.

Lemma cap_newlines_all p s : all_chars p s = true -> all_chars p (cap_newlines s) = true.
Proof.
  induction s as [|c r IH]; [reflexivity|]. cbn [all_chars cap_newlines].
  intros H. apply andb_true_iff in H. destruct H as [Hc Hr].
  destruct ((code c =? 10)%N && three_newlines_ahead r); [exact (IH Hr)|].
  cbn [all_chars]. rewrite Hc. exact (IH Hr).
Qed.

Lemma cap_newlines_single s :
  no_double_space s = true -> no_double_space (cap_newlines s) = true.
Proof.
  induction s as [|c r IH]; [reflexivity|]. cbn [no_double_space cap_newlines].
  intros H. apply andb_true_iff in H. destruct H as [Hc Hr].
  destruct ((code c =? 10)%N && three_newlines_ahead r); [exact (IH Hr)|].
  cbn [no_double_space]. rewrite cap_newlines_head, Hc. exact (IH Hr).
Qed.

Lemma cap_newlines_capped s : no_four_newlines (cap_newlines s) = true.
Proof.
  induction s as [|c r IH]; [reflexivity|]. cbn [cap_newlines].
  destruct ((code c =? 10)%N && three_newlines_ahead r) eqn:E; [exact IH|].
  cbn [no_four_newlines]. rewrite cap_newlines_ahead. unfold is_lf. rewrite E, IH.
  reflexivity.
Qed.

Lemma trimEnd_unfold c r :
  trimEnd (String c r)
  = match trimEnd r with
    | EmptyString => if is_space c then EmptyString else String c EmptyString
    | String d r' => String c (String d r')
    end.
Proof. cbn [trimEnd]. destruct (trimEnd r); reflexivity. Qed.

(** What [trimEnd] leaves is a beginning of the text. *)
Lemma trimEnd_prefix s : exists t, s = trimEnd s ++ t.
Proof.
  induction s as [|c r [t IH]]; [exists EmptyString; reflexivity|].
  rewrite trimEnd_unfold. destruct (trimEnd r) as [|d r'].
  - destruct (is_space c).
    + exists (String c r). reflexivity.
    + exists r. reflexivity.
  - exists t. change (String c r = String c (String d r' ++ t)). f_equal. exact IH.
Qed.

Lemma three_newlines_prefix s t :
  three_newlines_ahead s = true -> three_newlines_ahead (s ++ t) = true.
Proof. destruct s as [|a [|b [|c r]]]; try discriminate. exact id. Qed.

Lemma all_chars_and p q s :
  all_chars (fun c => p c && q c) s = all_chars p s && all_chars q s.
Proof.
  induction s as [|c r IH]; [reflexivity|]. cbn [all_chars]. rewrite IH.
  destruct (p c), (q c), (all_chars p r), (all_chars q r); reflexivity.
Qed.

(** *** Clean text passes every step unchanged *)

Lemma remove_control_fixed s :
  all_chars (fun c => negb (is_control c)) s = true -> remove_control s = s.
Proof.
  induction s as [|c r IH]; [reflexivity|]. cbn [all_chars remove_control].
  intros H. apply andb_true_iff in H. destruct H as [Hc Hr].
  apply negb_true_iff in Hc. rewrite Hc, (IH Hr). reflexivity.
Qed.

Lemma crlf_to_lf_fixed s :
  all_chars (fun c => negb (is_cr c)) s = true -> crlf_to_lf s = s.
Proof.
  induction s as [|c r IH]; [reflexivity|]. cbn [all_chars crlf_to_lf].
  intros H. apply andb_true_iff in H. destruct H as [Hc Hr].
  apply negb_true_iff in Hc. unfold is_cr in Hc. rewrite Hc, (IH Hr). reflexivity.
Qed.

Lemma cr_to_lf_fixed s :
  all_chars (fun c => negb (is_cr c)) s = true -> cr_to_lf s = s.
Proof.
  induction s as [|c r IH]; [reflexivity|]. cbn [all_chars cr_to_lf].
  intros H. apply andb_true_iff in H. destruct H as [Hc Hr].
  apply negb_true_iff in Hc. unfold is_cr in Hc. rewrite Hc, (IH Hr). reflexivity.
Qed.

Lemma collapse_blanks_fixed s :
  all_chars (fun c => negb (is_tab c)) s = true -> no_double_space s = true ->
  collapse_blanks s = s.
Proof.
  induction s as [|c r IH]; [reflexivity|]. cbn [all_chars no_double_space].
  intros H H'. apply andb_true_iff in H. destruct H as [Hc Hr].
  apply andb_true_iff in H'. destruct H' as [Hd Hr'].
  specialize (IH Hr Hr'). cbn [collapse_blanks].
  apply negb_true_iff in Hc. rewrite is_blank_split, Hc, orb_false_r.
  destruct (is_sp c) eqn:E; [|rewrite IH; reflexivity].
  apply is_sp_space in E. subst c.
  destruct r as [|d r']; [reflexivity|].
  cbn [all_chars] in Hr. apply andb_true_iff in Hr. destruct Hr as [Hdt _].
  apply negb_true_iff in Hdt. cbn [starts_with_space andb] in Hd.
  change (is_sp " ") with true in Hd. cbn [andb] in Hd. apply negb_true_iff in Hd.
  rewrite is_blank_split, Hd, Hdt. cbn [orb]. rewrite IH. reflexivity.
Qed.

Lemma cap_newlines_fixed s : no_four_newlines s = true -> cap_newlines s = s.
Proof.
  induction s as [|c r IH]; [reflexivity|]. cbn [no_four_newlines cap_newlines].
  intros H. apply andb_true_iff in H. destruct H as [Hc Hr].
  apply negb_true_iff in Hc. unfold is_lf in Hc. rewrite Hc, (IH Hr). reflexivity.
Qed.

End Sanitize.

(** ** The address of the client *)

Section ClientIp.

Import Validation.

Lemma split_comma_free entry : comma_free entry = true -> split_comma entry = [entry].
Proof.
  unfold comma_free. induction entry as [|c e IH]; [reflexivity|].
  cbn [Clean.all_chars split_comma]. intros H. apply andb_true_iff in H.
  destruct H as [Hc He]. apply negb_true_iff in Hc. rewrite Hc, (IH He). reflexivity.
Qed.

Lemma split_comma_first entry rest :
  comma_free entry = true ->
  split_comma (entry ++ String "," rest) = entry :: split_comma rest.
Proof.
  unfold comma_free. induction entry as [|c e IH]; [reflexivity|].
  cbn [Clean.all_chars]. intros H. apply andb_true_iff in H.
  destruct H as [Hc He]. apply negb_true_iff in Hc.
  change (split_comma (String c e ++ String "," rest))
    with (if (code c =? 44)%N then EmptyString :: split_comma (e ++ String "," rest)
          else match split_comma (e ++ String "," rest) with
               | piece :: pieces => String c piece :: pieces
               | [] => [String c EmptyString]
               end).
  rewrite Hc, (IH He). reflexivity.
Qed.

Lemma is_empty_false s : s <> EmptyString -> is_empty s = false.
Proof. destruct s; [contradiction | reflexivity]. Qed.

End ClientIp.

(** X22.  [getClientIp] never returns the empty string, whatever the
    headers hold: the limiter is never asked about an empty address. *)
Theorem getClientIp_is_never_empty :
  forall headers : Validation.Headers, Validation.getClientIp headers <> EmptyString.
Proof.
  intros headers. unfold Validation.getClientIp.
  set (first := match headers "x-forwarded-for" with Some _ => _ | None => _ end).
  assert (Hfirst : forall ip, first = Some ip -> ip <> EmptyString).
  { intros ip. unfold first.
    destruct (headers "x-forwarded-for") as [list|]; [|discriminate].
    destruct (is_empty list); [discriminate|].
    destruct (map trim (Validation.split_comma list)) as [|ip0 pieces]; [discriminate|].
    destruct ip0; [discriminate|]. intros [= <-]. discriminate. }
  destruct first as [ip|]; [apply Hfirst; reflexivity|].
  destruct (headers "cf-connecting-ip") as [[|c r]|];
    destruct (headers "x-real-ip") as [[|c' r']|]; discriminate.
Qed.

(** ** The optimizer's handler *)

Lemma limited_leaves_store now random ip (m m1 : RateLimit.Requests) :
  RateLimit.isRateLimited now random ip m = (true, m1) -> m1 = m.
Proof.
  unfold RateLimit.isRateLimited.
  destruct (RateLimit.MAX_REQUESTS <=? _); [|discriminate]. intros [= <-]. reflexivity.
Qed.

(** X23.  A request that [POST /api/optimize] answers with status 400
    or 429 costs nothing: the limiter is left as it was.  Input is
    checked before the limiter is asked, and a refused request is not
    recorded. *)
Theorem optimize_rejections_cost_no_request :
  forall (PROMPT_TOO_LONG : string) (request_body : Outcome JSON)
         (headers : Validation.Headers) (now : Z) (random : Q) (api_key : option string)
         (m : RateLimit.Requests) (response : Response),
    fst (optimize_POST PROMPT_TOO_LONG request_body headers now random api_key m)
    = Json response ->
    status response = 400 \/ status response = 429 ->
    snd (optimize_POST PROMPT_TOO_LONG request_body headers now random api_key m) = m.
Proof.
  intros msg request_body headers now random api_key m response.
  unfold optimize_POST, optimize_try.
  destruct request_body as [body|e]; [|reflexivity].
  destruct (getProp body "role") as [role|e]; [|reflexivity].
  destruct (getProp body "prompt") as [prompt|e]; [|reflexivity].
  destruct role as [[| | |role| |]|]; try reflexivity.
  destruct (is_empty role || (strlen (trim role) =? 0)); [reflexivity|].
  destruct prompt as [[| | |prompt| |]|]; try reflexivity.
  destruct (is_empty prompt || (strlen (trim prompt) =? 0)); [reflexivity|].
  destruct (MAX_PROMPT_LENGTH <? strlen prompt); [reflexivity|].
  destruct (negb (Validation.isValidUtf8 role) || negb (Validation.isValidUtf8 prompt));
    [reflexivity|].
  destruct ((strlen (trim (Validation.sanitizeInput role)) =? 0)
            || (strlen (trim (Validation.sanitizeInput prompt)) =? 0)); [reflexivity|].
  destruct (RateLimit.isRateLimited now random (Validation.getClientIp headers) m)
    as [limited m1] eqn:Hl.
  destruct limited.
  - intros _ _. cbn [snd]. apply (limited_leaves_store _ _ _ _ _ Hl).
  - destruct api_key as [[|c k]|]; cbn [fst tryCatch]; try discriminate;
      intros [= <-]; cbn [status error_response]; intros [H|H]; discriminate.
Qed.

Lemma optimize_rejections_cost_no_request_witness :
  snd (optimize_POST OptimizeExample.PROMPT_TOO_LONG (Returned OptimizeExample.no_role)
         (OptimizeExample.forwarded "1.2.3.4") 70000 (1 # 20) (Some "key")
         RateLimitStore.two_addresses)
  = RateLimitStore.two_addresses.
Proof.
  apply (optimize_rejections_cost_no_request OptimizeExample.PROMPT_TOO_LONG
           (Returned OptimizeExample.no_role) (OptimizeExample.forwarded "1.2.3.4")
           70000 (1 # 20) (Some "key") RateLimitStore.two_addresses
           (error_response ERROR_MESSAGES.MISSING_ROLE 400)).
  - reflexivity.
  - left. reflexivity.
Defined.

(** ** The user management commands *)

Section Commands.

Import ManageUsers.

Local Open Scope list_scope.

Lemma find_none_names n (users : list User) :
  find n users = None <-> n ∉ names users.
Proof.
  unfold find, names. induction users as [|u rest IH]; simpl.
  - split; [intros _; apply not_elem_of_nil | reflexivity].
  - rewrite not_elem_of_cons. destruct (String.eqb (toLowerCase (username u)) n) eqn:E.
    + apply String.eqb_eq in E. split; [discriminate | intros [H _]; congruence].
    + apply String.eqb_neq in E. rewrite IH. split; [intros H; split; congruence | tauto].
Qed.

Lemma findIndex_new n (users : list User) u :
  find n users = None -> toLowerCase (username u) = n ->
  findIndex n (users ++ [u]) = Some (length users).
Proof.
  unfold find. intros Hnone Hu. induction users as [|x rest IH]; simpl in *.
  - rewrite Hu, String.eqb_refl. reflexivity.
  - destruct (String.eqb (toLowerCase (username x)) n); [discriminate|].
    rewrite (IH Hnone). reflexivity.
Qed.

Lemma splice_new (users : list User) u : splice (length users) (users ++ [u]) = users.
Proof.
  unfold splice. induction users as [|x rest IH]; [reflexivity|].
  simpl in *. rewrite IH. reflexivity.
Qed.

Lemma splice_delete i (users : list User) : splice i users = delete i users.
Proof. unfold splice. symmetry. apply delete_take_drop. Qed.

Lemma names_alter f i (users : list User) :
  (forall u, username (f u) = username u) -> names (alter f i users) = names users.
Proof.
  intros Hf. unfold names. revert i. induction users as [|x rest IH]; intros [|i];
    simpl; try reflexivity.
  - rewrite Hf. reflexivity.
  - f_equal. apply IH.
Qed.

Lemma splice_length i (users : list User) :
  (i < length users)%nat -> S (length (splice i users)) = length users.
Proof.
  revert i. induction users as [|u rest IH]; intros i Hi; [simpl in Hi; lia|].
  destruct i as [|i]; [reflexivity|].
  change (splice (S i) (u :: rest)) with (u :: splice i rest).
  simpl length in *. rewrite IH by lia. reflexivity.
Qed.

(** The checks [addUser] makes before it writes. *)
Lemma addUser_saved (users users' : list User) u d p p' h c :
  addUser users u d p p' h c = Saved users' ->
  3 <= strlen (trim u)
  /\ find (toLowerCase (trim u)) users = None
  /\ 8 <= strlen p /\ p' = p
  /\ users' = users ++ [mkUser (trim u) h
                          (if is_empty (trim d) then None else Some (trim d)) (Some c) None].
Proof.
  unfold addUser.
  destruct (is_empty u || (strlen (trim u) <? 3)) eqn:Hu; [discriminate|].
  destruct (find (toLowerCase (trim u)) users); [discriminate|].
  destruct (is_empty p || (strlen p <? 8)) eqn:Hp; [discriminate|].
  destruct (String.eqb p p') eqn:Hpp; [|discriminate]. cbn [negb].
  intros [= <-]. apply orb_false_iff in Hu, Hp. destruct Hu as [_ Hu], Hp as [_ Hp].
  apply Z.ltb_ge in Hu, Hp. apply String.eqb_eq in Hpp.
  repeat split; try assumption. symmetry. exact Hpp.
Qed.

(** A record of the commands as [findUser] sees it. *)
Lemma to_json_username u : getProp (to_json u) "username" = Returned (Some (JStr (username u))).
Proof. reflexivity. Qed.

End Commands.

(** X25.  Removing a user that was just added gives back the array as
    it was before: [removeUser], asked for the name [addUser] was given
    and answered yes, undoes [addUser]. *)
Theorem removeUser_undoes_addUser :
  forall (users users' : list ManageUsers.User)
         (username displayName password passwordConfirm passwordHash createdAt confirm
            : string),
    ManageUsers.addUser users username displayName password passwordConfirm passwordHash
      createdAt = ManageUsers.Saved users' ->
    toLowerCase confirm = "yes" ->
    ManageUsers.removeUser users' username confirm = ManageUsers.Saved users.
Proof.
  intros users users' u d p p' h c confirm Hadd Hyes.
  destruct (addUser_saved _ _ _ _ _ _ _ _ Hadd) as (Hlen & Hnone & _ & _ & ->).
  unfold ManageUsers.removeUser. rewrite length_app. simpl length.
  replace (length users + 1 =? 0)%nat with false by (symmetry; apply Nat.eqb_neq; lia).
  assert (Hu : is_empty u || (strlen (trim u) =? 0) = false).
  { apply orb_false_iff. split.
    - destruct u; [|reflexivity]. vm_compute in Hlen. contradiction Hlen. reflexivity.
    - apply Z.eqb_neq. lia. }
  rewrite Hu, (findIndex_new (toLowerCase (trim u)) users (ManageUsers.mkUser (trim u) h _ _ _)
                 Hnone eq_refl), Hyes.
  rewrite splice_new. reflexivity.
Qed.

Lemma removeUser_undoes_addUser_witness :
  ManageUsers.removeUser
    (ManageUsers.two_users
     ++ [ManageUsers.mkUser "Erin" "$2b$12$erin" None (Some "2025-02-01") None])%list
    "  Erin " "YES"
  = ManageUsers.Saved ManageUsers.two_users.
Proof.
  apply (removeUser_undoes_addUser ManageUsers.two_users _ "  Erin " "  " "erin-secret"
           "erin-secret" "$2b$12$erin" "2025-02-01" "YES").
  - vm_compute. reflexivity.
  - reflexivity.
Defined.

(** X26.  The commands keep the lower-cased user names distinct: from
    an array in which no two records have the same lower-cased name,
    whatever [addUser], [removeUser] or [updatePassword] saves is such
    an array again, and [updatePassword] changes no name. *)
Theorem commands_keep_names_distinct :
  forall users : list ManageUsers.User,
    NoDup (ManageUsers.names users) ->
    (forall username displayName password passwordConfirm passwordHash createdAt users',
        ManageUsers.addUser users username displayName password passwordConfirm
          passwordHash createdAt = ManageUsers.Saved users' ->
        NoDup (ManageUsers.names users'))
    /\ (forall username confirm users',
          ManageUsers.removeUser users username confirm = ManageUsers.Saved users' ->
          NoDup (ManageUsers.names users'))
    /\ (forall username password passwordConfirm passwordHash users',
          ManageUsers.updatePassword users username password passwordConfirm passwordHash
          = ManageUsers.Saved users' ->
          ManageUsers.names users' = ManageUsers.names users).
Proof.
  intros users Hnd. split; [|split].
  - intros u d p p' h c users' Hadd.
    destruct (addUser_saved _ _ _ _ _ _ _ _ Hadd) as (_ & Hnone & _ & _ & ->).
    unfold ManageUsers.names. rewrite map_app. apply NoDup_app.
    split; [exact Hnd|]. split; [|apply NoDup_singleton].
    intros x Hx. cbn [map ManageUsers.username]. rewrite list_elem_of_singleton.
    intros ->. apply (proj1 (find_none_names _ _) Hnone). exact Hx.
  - intros u confirm users'. unfold ManageUsers.removeUser.
    destruct (length users =? 0)%nat; [discriminate|].
    destruct (is_empty u || (strlen (trim u) =? 0)); [discriminate|].
    destruct (ManageUsers.findIndex (toLowerCase (trim u)) users) as [i|]; [|discriminate].
    destruct (negb (String.eqb (toLowerCase confirm) "yes")); [discriminate|].
    intros [= <-]. rewrite splice_delete.
    apply (sublist_NoDup _ (ManageUsers.names users)); [exact Hnd|].
    unfold ManageUsers.names.
    apply (fmap_sublist (fun u => toLowerCase (ManageUsers.username u)) _ _
             (sublist_delete users i)).
  - intros u p p' h users'. unfold ManageUsers.updatePassword.
    destruct (length users =? 0)%nat; [discriminate|].
    destruct (is_empty u || (strlen (trim u) =? 0)); [discriminate|].
    destruct (ManageUsers.findIndex (toLowerCase (trim u)) users) as [i|]; [|discriminate].
    destruct (is_empty p || (strlen p <? 8)); [discriminate|].
    destruct (negb (String.eqb p p')); [discriminate|].
    intros [= <-]. apply names_alter. reflexivity.
Qed.

Lemma commands_keep_names_distinct_witness :
  NoDup (ManageUsers.names
           (ManageUsers.two_users
            ++ [ManageUsers.mkUser "Erin" "$2b$12$erin" None (Some "2025-02-01") None])%list).
Proof.
  assert (Hnd : NoDup (ManageUsers.names ManageUsers.two_users)).
  { vm_compute. apply NoDup_cons. split.
    - rewrite list_elem_of_singleton. discriminate.
    - apply NoDup_singleton. }
  apply (proj1 (commands_keep_names_distinct ManageUsers.two_users Hnd)
           "  Erin " "  " "erin-secret" "erin-secret" "$2b$12$erin" "2025-02-01").
  vm_compute. reflexivity.
Defined.

(** ** Logging in, end to end *)

Lemma createSession_reads_user entropy t production cookies user token store1 :
  createSession entropy t production cookies user = Returned (token, store1) ->
  (exists name display,
     getProp user "username" = Returned name
     /\ getProp user "displayName" = Returned display)
  /\ exists value,
       store1 = Some (mkCookie value true production "lax" (t + SESSION_DURATION_MS) "/").
Proof.
  unfold createSession.
  destruct (generateSessionToken entropy) as [sessionToken|e]; [|discriminate].
  destruct (getProp user "username") as [name|e]; [|discriminate].
  destruct (getProp user "displayName") as [display|e]; [|discriminate].
  destruct cookies as [c|e]; [|discriminate].
  intros [= <- <-]. split; [exists name, display; split; reflexivity|].
  eexists. reflexivity.
Qed.

Lemma stringify_session_not_empty name display token t :
  stringify (sessionData name display token t) <> EmptyString.
Proof. unfold sessionData. destruct name, display; discriminate. Qed.

Lemma login_cookie_cases :
  forall (verify : AuthCredentials -> Attempts -> option JSON * Attempts)
         (entropy : Outcome string) (t : Z) (production : bool)
         (cookies : Outcome CookieStore) (request_body : Outcome JSON)
         (m m' : Attempts) (store store' : CookieStore) (response : Response),
    login_POST verify (createSession entropy t production cookies) request_body m store
    = (response, m', store') ->
    (status response = 200
     /\ exists cookie,
          store' = Some cookie
          /\ httpOnly cookie = true /\ sameSite cookie = "lax" /\ path cookie = "/"
          /\ secure cookie = production
          /\ expires cookie = t + SESSION_DURATION_MS)
    \/ ((status response = 400 \/ status response = 401 \/ status response = 500)
        /\ store' = store).
Proof.
  intros verify entropy t production cookies request_body m m' store store' response.
  unfold login_POST, login_try.
  assert (H400 : forall msg, (status (error_response msg 400) = 400
                              \/ status (error_response msg 400) = 401
                              \/ status (error_response msg 400) = 500))
    by (intros; left; reflexivity).
  assert (H401 : forall msg, (status (error_response msg 401) = 400
                              \/ status (error_response msg 401) = 401
                              \/ status (error_response msg 401) = 500))
    by (intros; right; left; reflexivity).
  destruct request_body as [body|e];
    [|intros [= <- <- <-]; right; split; [apply H400 | reflexivity]].
  destruct (getProp body "username") as [name|e];
    [|intros [= <- <- <-]; right; split; [apply H400 | reflexivity]].
  destruct (getProp body "password") as [pass|e];
    [|intros [= <- <- <-]; right; split; [apply H400 | reflexivity]].
  destruct name as [[| | |username| |]|];
    try (intros [= <- <- <-]; right; split; [apply H400 | reflexivity]).
  destruct (is_empty username || (strlen (trim username) =? 0));
    [intros [= <- <- <-]; right; split; [apply H400 | reflexivity]|].
  destruct pass as [[| | |password| |]|];
    try (intros [= <- <- <-]; right; split; [apply H400 | reflexivity]).
  destruct (is_empty password || (strlen password =? 0));
    [intros [= <- <- <-]; right; split; [apply H400 | reflexivity]|].
  destruct (negb (Validation.isValidUtf8 username) || negb (Validation.isValidUtf8 password));
    [intros [= <- <- <-]; right; split; [apply H400 | reflexivity]|].
  destruct ((strlen (Validation.sanitizeInput username) <? 3)
            || (100 <? strlen (Validation.sanitizeInput username)));
    [intros [= <- <- <-]; right; split; [apply H401 | reflexivity]|].
  destruct ((strlen password <? 8) || (128 <? strlen password));
    [intros [= <- <- <-]; right; split; [apply H401 | reflexivity]|].
  destruct (verify (mkCredentials (Validation.sanitizeInput username) password) m)
    as [[user|] m1];
    [|intros [= <- <- <-]; right; split; [apply H401 | reflexivity]].
  destruct (createSession entropy t production cookies user) as [[token store1]|e] eqn:Hc;
    [|intros [= <- <- <-]; right; split; [right; right; reflexivity | reflexivity]].
  destruct (createSession_reads_user _ _ _ _ _ _ _ Hc)
    as [(name & display & -> & ->) (value & ->)].
  intros [= <- <- <-]. left. split; [reflexivity|].
  eexists. split; [reflexivity|]. repeat split.
Qed.

(** X29.  The login handler writes the session cookie with status 200
    and never otherwise: whatever the verifier answers, either the
    status is 200 and the cookie store holds a cookie that is
    [httpOnly], [sameSite=lax], on path [/], [secure] exactly in
    production and expiring one session duration after its creation, or
    the status is 400, 401 or 500 and the cookie store is as it was. *)
Theorem login_writes_the_cookie_only_with_200 :
  forall (verify : AuthCredentials -> Attempts -> option JSON * Attempts)
         (entropy : Outcome string) (t : Z) (production : bool)
         (cookies : Outcome CookieStore) (request_body : Outcome JSON)
         (m : Attempts) (store : CookieStore),
    let out :=
      login_POST verify (createSession entropy t production cookies) request_body m store in
    let response := fst (fst out) in
    (status response = 200
     /\ exists cookie,
          snd out = Some cookie
          /\ httpOnly cookie = true /\ sameSite cookie = "lax" /\ path cookie = "/"
          /\ secure cookie = production
          /\ expires cookie = t + SESSION_DURATION_MS)
    \/ ((status response = 400 \/ status response = 401 \/ status response = 500)
        /\ snd out = store).
Proof.
  intros verify entropy t production cookies request_body m store. cbv zeta.
  destruct (login_POST verify (createSession entropy t production cookies) request_body
              m store) as [[response m'] store'] eqn:H.
  exact (login_cookie_cases _ _ _ _ _ _ _ _ _ _ _ H).
Qed.


(** * Properties over every runtime

    From here on the code is read over an arbitrary runtime: the case
    mapping, [trim] and the length are whatever the runtime computes. *)

(** At the ASCII runtime the embedding over a runtime is the one given
    first. *)
Lemma ascii_runtime_is_the_first_embedding :
  @Rt.findUser Rt.ascii = findUser
  /\ @Rt.isLockedOut Rt.ascii = isLockedOut
  /\ @Rt.recordFailedAttempt Rt.ascii = recordFailedAttempt
  /\ @Rt.verifyCredentials Rt.ascii = verifyCredentials
  /\ @Rt.decodeSession Rt.ascii = decodeSession
  /\ @Rt.sanitizeInput Rt.ascii = Validation.sanitizeInput
  /\ @Rt.getClientIp Rt.ascii = Validation.getClientIp
  /\ @Rt.login_POST Rt.ascii = login_POST
  /\ @Rt.optimize_POST Rt.ascii = optimize_POST
  /\ @Rt.addUser Rt.ascii = ManageUsers.addUser
  /\ @Rt.removeUser Rt.ascii = ManageUsers.removeUser.
Proof. repeat split. Qed.

(** ** Lockout after repeated failures *)

Section LockoutOverRuntime.

Import Rt.

Context {rt : Runtime}.

Variable bcrypt_compare : string -> string -> bool.
Variable file : UsersFile.

Lemma isLockedOut_unlocked_rt now u (m : Attempts) :
  unlocked u m -> isLockedOut now u m = (false, m).
Proof.
  unfold unlocked, isLockedOut. destruct (m !! toLowerCase u) as [a|]; [|reflexivity].
  intros ->. reflexivity.
Qed.

Lemma isLockedOut_other_rt now u (m : Attempts) k :
  k <> toLowerCase u -> snd (isLockedOut now u m) !! k = m !! k.
Proof.
  intros Hne. unfold isLockedOut.
  destruct (m !! toLowerCase u) as [a|]; [|reflexivity].
  destruct (locked_field a) as [l|]; [|reflexivity].
  destruct (now <? l); [reflexivity|].
  destruct (l <=? now); [|reflexivity].
  cbn [snd]. apply lookup_delete_ne. congruence.
Qed.

Lemma record_other_rt now u (m : Attempts) k :
  k <> toLowerCase u -> snd (recordFailedAttempt now u m) !! k = m !! k.
Proof.
  intros Hne. unfold recordFailedAttempt.
  destruct (m !! toLowerCase u) as [a|].
  - destruct (attemptWindow <? now - lastAttempt a);
      [|destruct (maxAttempts <=? count a + 1)];
      cbn [snd]; apply lookup_insert_ne; congruence.
  - cbn [snd]. apply lookup_insert_ne. congruence.
Qed.

Lemma verify_start_other_rt now c (m : Attempts) k :
  k <> toLowerCase (username c) -> snd (verify_start file now c m) !! k = m !! k.
Proof.
  intros Hne. unfold verify_start, verify_start_try.
  destruct (blank (username c)); [reflexivity|].
  destruct (missing (password c)); [reflexivity|].
  pose proof (isLockedOut_other_rt now (username c) m k Hne) as Hl.
  destruct (isLockedOut now (username c) m) as [locked m1]. cbn [snd] in Hl.
  destruct locked; [exact Hl|].
  destruct (findUser file (username c)) as [[user|]|e]; cbn [snd].
  - destruct (getProp user "passwordHash") as [[[]|]|]; exact Hl.
  - rewrite record_other_rt by exact Hne. exact Hl.
  - exact Hl.
Qed.

Lemma verify_finish_other_rt now c user valid (m : Attempts) k :
  k <> toLowerCase (username c) -> snd (verify_finish now c user valid m) !! k = m !! k.
Proof.
  intros Hne. unfold verify_finish. destruct valid; cbn [negb snd].
  - unfold clearFailedAttempts. apply lookup_delete_ne. congruence.
  - apply record_other_rt. exact Hne.
Qed.

(** X7.  A call of [verifyCredentials] reads and writes the lockout
    entry of one key only, the user name it was given as the runtime
    lower-cases it: the entry of every other key is the same after the
    call, whatever the outcome. *)
Theorem verifyCredentials_touches_one_key :
  forall (now now' : Z) (credentials : AuthCredentials) (m : Attempts) (k : string),
    k <> toLowerCase (username credentials) ->
    snd (verifyCredentials bcrypt_compare file now now' credentials m) !! k = m !! k.
Proof.
  intros now now' c m k Hne. unfold verifyCredentials.
  pose proof (verify_start_other_rt now c m k Hne) as Hs.
  destruct (verify_start file now c m) as [[result|user candidate hash] m1]; cbn [snd] in *.
  - exact Hs.
  - rewrite verify_finish_other_rt by exact Hne. exact Hs.
Qed.

Variable username : string.
Variable user : JSON.
Variable hash : string.

Hypothesis name_given : blank username = false.

Let key : string := toLowerCase username.

Lemma record_first_rt now (m : Attempts) :
  m !! key = None ->
  snd (recordFailedAttempt now username m) = <[key := mkAttempt 1 now None]> m.
Proof. unfold recordFailedAttempt. fold key. intros ->. reflexivity. Qed.

Lemma record_next_rt now (m : Attempts) c t l :
  m !! key = Some (mkAttempt c t l) -> now - t <= attemptWindow ->
  snd (recordFailedAttempt now username m)
  = <[key := mkAttempt (c + 1) now
               (if maxAttempts <=? c + 1 then Some (now + lockoutDuration) else l)]> m.
Proof.
  unfold recordFailedAttempt. fold key. intros -> Hw. cbn [lastAttempt count lockedUntil].
  replace (attemptWindow <? now - t) with false by (symmetry; apply Z.ltb_ge; lia).
  destruct (maxAttempts <=? c + 1); reflexivity.
Qed.

Lemma record_reset_rt now (m : Attempts) a :
  m !! key = Some a -> attemptWindow < now - lastAttempt a ->
  snd (recordFailedAttempt now username m) = <[key := mkAttempt 1 now None]> m.
Proof.
  unfold recordFailedAttempt. fold key. intros -> Hw.
  replace (attemptWindow <? now - lastAttempt a) with true
    by (symmetry; apply Z.ltb_lt; exact Hw).
  reflexivity.
Qed.

Lemma isLockedOut_during_rt (m : Attempts) c t l now :
  m !! key = Some (mkAttempt c t (Some l)) -> l <> 0 -> now < l ->
  isLockedOut now username m = (true, m).
Proof.
  intros Hm Hl Hnow. unfold isLockedOut. fold key. rewrite Hm.
  unfold locked_field; cbn [lockedUntil].
  replace (l =? 0) with false by (symmetry; apply Z.eqb_neq; exact Hl).
  replace (now <? l) with true by (symmetry; apply Z.ltb_lt; exact Hnow).
  reflexivity.
Qed.

Lemma isLockedOut_after_rt (m : Attempts) c t l now :
  m !! key = Some (mkAttempt c t (Some l)) -> l <> 0 -> l <= now ->
  isLockedOut now username m = (false, delete key m).
Proof.
  intros Hm Hl Hnow. unfold isLockedOut. fold key. rewrite Hm.
  unfold locked_field; cbn [lockedUntil].
  replace (l =? 0) with false by (symmetry; apply Z.eqb_neq; exact Hl).
  replace (now <? l) with false by (symmetry; apply Z.ltb_ge; exact Hnow).
  replace (l <=? now) with true by (symmetry; apply Z.leb_le; exact Hnow).
  reflexivity.
Qed.

(** While the lock holds, every call is turned away and the state
    stays as it is. *)
Lemma verify_during_lock_rt (m : Attempts) c t l now now' pw :
  m !! key = Some (mkAttempt c t (Some l)) -> l <> 0 -> now < l ->
  verifyCredentials bcrypt_compare file now now' (mkCredentials username pw) m = (None, m).
Proof.
  intros Hm Hl Hnow. unfold verifyCredentials, verify_start, verify_start_try.
  read_credentials. rewrite name_given.
  destruct (missing pw); [reflexivity|].
  rewrite (isLockedOut_during_rt m c t l now Hm Hl Hnow). reflexivity.
Qed.

(** A name the store does not have is counted like any other, with the
    clock as it was when the call began. *)
Lemma unknown_name_records_rt now now' pw (m : Attempts) :
  findUser file username = Returned None ->
  missing pw = false -> unlocked username m ->
  verifyCredentials bcrypt_compare file now now' (mkCredentials username pw) m
  = (None, snd (recordFailedAttempt now username m)).
Proof.
  intros Hnone Hpw Hun. unfold verifyCredentials, verify_start, verify_start_try.
  read_credentials. rewrite name_given, Hpw.
  rewrite (isLockedOut_unlocked_rt now username m Hun), Hnone. reflexivity.
Qed.

Lemma unknown_accumulate_rt (calls : list LoginCall) :
  findUser file username = Returned None ->
  forall (m : Attempts) (c t : Z),
    m !! key = Some (tally c t) ->
    c + Z.of_nat (length calls) <= maxAttempts ->
    nondecreasing (t :: map started calls) ->
    List.last (map started calls) t - t <= attemptWindow ->
    Forall (fun f => missing (given f) = false) calls ->
    Forall (eq None) (fst (verify_all bcrypt_compare file username calls m))
    /\ snd (verify_all bcrypt_compare file username calls m) !! key
       = Some (tally (c + Z.of_nat (length calls)) (List.last (map started calls) t)).
Proof.
  intros Hnone. induction calls as [|f rest IH]; intros m c t Hm Hc Hnd Hspan Hpws.
  - simpl. split; [constructor|]. rewrite Z.add_0_r. exact Hm.
  - inversion Hpws as [|? ? Hpw Hrest]; subst.
    cbn [verify_all]. simpl length in Hc. rewrite Nat2Z.inj_succ in Hc.
    assert (Hlt : (maxAttempts <=? c) = false).
    { apply Z.leb_gt. unfold maxAttempts in *. lia. }
    assert (Hun : unlocked username m).
    { unfold unlocked. fold key. rewrite Hm. unfold tally, locked_field; simpl.
      rewrite Hlt. reflexivity. }
    rewrite (unknown_name_records_rt _ _ _ m Hnone Hpw Hun).
    assert (Hstep : t <= started f /\ nondecreasing (started f :: map started rest)).
    { simpl in Hnd. exact Hnd. }
    destruct Hstep as [Hle Hnd'].
    pose proof (nondecreasing_last _ _ Hnd') as Hlast.
    assert (Heq : List.last (map started (f :: rest)) t
                  = List.last (map started rest) (started f)) by apply last_cons.
    rewrite Heq in Hspan |- *.
    unfold tally in Hm. rewrite Hlt in Hm.
    rewrite (record_next_rt (started f) m c t _ Hm) by lia.
    set (m1 := <[key := _]> m).
    specialize (IH m1 (c + 1) (started f)).
    destruct (verify_all bcrypt_compare file username rest m1) as [results m2] eqn:Hall.
    simpl length. cbn [fst snd] in *.
    assert (Hm1 : m1 !! key = Some (tally (c + 1) (started f))).
    { unfold m1. rewrite lookup_insert_eq. unfold tally.
      destruct (maxAttempts <=? c + 1); reflexivity. }
    destruct (IH Hm1) as [Hres Hfin]; try assumption; try lia.
    split; [constructor; [reflexivity | exact Hres]|].
    rewrite Hfin. simpl length. rewrite Nat2Z.inj_succ. f_equal. f_equal. lia.
Qed.

(** X13.  A name that the user store does not have is counted and
    locked like any other: five calls for it with any passwords, begun
    within one attempt window, all return [null], leave five failures
    counted and the lock set, and from then until fifteen minutes after
    the fifth began [isLockedOut] answers [true] for the name. *)
Theorem unknown_names_are_locked_too :
  forall (m : Attempts) (calls : list LoginCall),
    findUser file username = Returned None ->
    m !! toLowerCase username = None ->
    length calls = 5%nat ->
    Forall (fun f => missing (given f) = false) calls ->
    within_attempt_window (map started calls) ->
    0 <= List.hd 0 (map started calls) ->
    let results := fst (verify_all bcrypt_compare file username calls m) in
    let m5 := snd (verify_all bcrypt_compare file username calls m) in
    let t5 := List.last (map started calls) 0 in
    Forall (eq None) results
    /\ m5 !! toLowerCase username = Some (mkAttempt 5 t5 (Some (t5 + lockoutDuration)))
    /\ (forall now, now < t5 + lockoutDuration -> fst (isLockedOut now username m5) = true).
Proof.
  intros m calls Hnone Hclean Hlen Hpws [Hnd Hspan] Hpos.
  destruct calls as [|f rest]; [discriminate|].
  inversion Hpws as [|? ? Hpw Hrest]; subst.
  simpl map in *. cbn [List.hd] in *. rewrite last_cons in Hspan |- *.
  cbn [verify_all].
  assert (Hun : unlocked username m) by (unfold unlocked; rewrite Hclean; exact I).
  rewrite (unknown_name_records_rt _ _ _ m Hnone Hpw Hun).
  rewrite (record_first_rt _ m Hclean). fold key.
  set (m1 := <[key := _]> m).
  assert (Hm1 : m1 !! key = Some (tally 1 (started f))).
  { unfold m1. rewrite lookup_insert_eq. reflexivity. }
  destruct (unknown_accumulate_rt rest Hnone m1 1 (started f) Hm1)
    as [Hres Hfin]; try assumption.
  { simpl length in Hlen. unfold maxAttempts. lia. }
  destruct (verify_all bcrypt_compare file username rest m1) as [results m5] eqn:Hall.
  cbn [fst snd] in *.
  replace (1 + Z.of_nat (length rest)) with 5 in Hfin
    by (simpl length in Hlen; lia).
  unfold tally in Hfin. change (maxAttempts <=? 5) with true in Hfin. cbv iota in Hfin.
  pose proof (nondecreasing_last _ _ Hnd) as Hlast.
  set (t5 := List.last (map started rest) (started f)) in *.
  assert (Hl : t5 + lockoutDuration <> 0) by (unfold lockoutDuration; lia).
  split; [constructor; [reflexivity | exact Hres]|]. split; [exact Hfin|].
  intros now Hnow.
  rewrite (isLockedOut_during_rt m5 5 t5 _ now Hfin Hl Hnow). reflexivity.
Qed.

Hypothesis user_found : findUser file username = Returned (Some user).
Hypothesis hash_stored : getProp user "passwordHash" = Returned (Some (JStr hash)).

(** A call that finds the user name unlocked goes on to compare. *)
Lemma verify_start_unlocked_rt now pw (m : Attempts) :
  missing pw = false -> unlocked username m ->
  verify_start file now (mkCredentials username pw) m = (Comparing user pw hash, m).
Proof.
  intros Hpw Hun. unfold verify_start, verify_start_try. read_credentials.
  rewrite name_given, Hpw.
  rewrite (isLockedOut_unlocked_rt now username m Hun), user_found, hash_stored. reflexivity.
Qed.

(** A wrong password against an unlocked name records one failure. *)
Lemma wrong_password_records_rt now now' pw (m : Attempts) :
  missing pw = false -> bcrypt_compare pw hash = false -> unlocked username m ->
  verifyCredentials bcrypt_compare file now now' (mkCredentials username pw) m
  = (None, snd (recordFailedAttempt now' username m)).
Proof.
  intros Hpw Hbad Hun. unfold verifyCredentials.
  rewrite (verify_start_unlocked_rt now pw m Hpw Hun).
  unfold verify_finish. rewrite Hbad. reflexivity.
Qed.

(** The right password against an unlocked name returns the record and
    drops what was counted. *)
Lemma right_password_accepted_rt now now' pw (m : Attempts) :
  missing pw = false -> bcrypt_compare pw hash = true -> unlocked username m ->
  verifyCredentials bcrypt_compare file now now' (mkCredentials username pw) m
  = (Some user, delete key m).
Proof.
  intros Hpw Hok Hun. unfold verifyCredentials.
  rewrite (verify_start_unlocked_rt now pw m Hpw Hun).
  unfold verify_finish. rewrite Hok. reflexivity.
Qed.

(** Once the lock has run out, the right password is accepted. *)
Lemma verify_after_lock_rt (m : Attempts) c t l now now' pw :
  m !! key = Some (mkAttempt c t (Some l)) -> l <> 0 -> l <= now ->
  missing pw = false -> bcrypt_compare pw hash = true ->
  verifyCredentials bcrypt_compare file now now' (mkCredentials username pw) m
  = (Some user, delete key (delete key m)).
Proof.
  intros Hm Hl Hnow Hpw Hok. unfold verifyCredentials, verify_start, verify_start_try.
  read_credentials. rewrite name_given, Hpw.
  rewrite (isLockedOut_after_rt m c t l now Hm Hl Hnow), user_found, hash_stored.
  cbn [tryCatch]. unfold verify_finish. rewrite Hok. reflexivity.
Qed.

Lemma failures_accumulate_rt (failures : list LoginCall) :
  forall (m : Attempts) (c t : Z),
    m !! key = Some (tally c t) ->
    c + Z.of_nat (length failures) <= maxAttempts ->
    nondecreasing (t :: map resumed failures) ->
    List.last (map resumed failures) t - t <= attemptWindow ->
    Forall (fun f => missing (given f) = false /\ bcrypt_compare (given f) hash = false)
      failures ->
    Forall (eq None) (fst (verify_all bcrypt_compare file username failures m))
    /\ snd (verify_all bcrypt_compare file username failures m) !! key
       = Some (tally (c + Z.of_nat (length failures)) (List.last (map resumed failures) t)).
Proof.
  induction failures as [|f rest IH]; intros m c t Hm Hc Hnd Hspan Hbad.
  - simpl. split; [constructor|]. rewrite Z.add_0_r. exact Hm.
  - inversion Hbad as [|? ? [Hpw Hcmp] Hrest]; subst.
    cbn [verify_all]. simpl length in Hc. rewrite Nat2Z.inj_succ in Hc.
    assert (Hlt : (maxAttempts <=? c) = false).
    { apply Z.leb_gt. unfold maxAttempts in *. lia. }
    assert (Hun : unlocked username m).
    { unfold unlocked. fold key. rewrite Hm. unfold tally, locked_field; simpl.
      rewrite Hlt. reflexivity. }
    rewrite (wrong_password_records_rt _ _ _ m Hpw Hcmp Hun).
    assert (Hstep : t <= resumed f /\ nondecreasing (resumed f :: map resumed rest)).
    { simpl in Hnd. exact Hnd. }
    destruct Hstep as [Hle Hnd'].
    pose proof (nondecreasing_last _ _ Hnd') as Hlast.
    assert (Heq : List.last (map resumed (f :: rest)) t
                  = List.last (map resumed rest) (resumed f)) by apply last_cons.
    rewrite Heq in Hspan |- *.
    unfold tally in Hm. rewrite Hlt in Hm.
    rewrite (record_next_rt (resumed f) m c t _ Hm) by lia.
    set (m1 := <[key := _]> m).
    specialize (IH m1 (c + 1) (resumed f)).
    destruct (verify_all bcrypt_compare file username rest m1) as [results m2] eqn:Hall.
    simpl length. cbn [fst snd] in *.
    assert (Hm1 : m1 !! key = Some (tally (c + 1) (resumed f))).
    { unfold m1. rewrite lookup_insert_eq. unfold tally.
      destruct (maxAttempts <=? c + 1); reflexivity. }
    destruct (IH Hm1) as [Hres Hfin]; try assumption; try lia.
    split; [constructor; [reflexivity | exact Hres]|].
    rewrite Hfin. simpl length. rewrite Nat2Z.inj_succ. f_equal. f_equal. lia.
Qed.

(** Wrong passwords that are each more than one window after the one
    before keep the count at one. *)
Lemma spaced_failures_restart_rt (failures : list LoginCall) :
  forall (m : Attempts) (t : Z),
    m !! key = Some (mkAttempt 1 t None) ->
    spaced t (map resumed failures) ->
    Forall (fun f => missing (given f) = false /\ bcrypt_compare (given f) hash = false)
      failures ->
    Forall (eq None) (fst (verify_all bcrypt_compare file username failures m))
    /\ snd (verify_all bcrypt_compare file username failures m) !! key
       = Some (mkAttempt 1 (List.last (map resumed failures) t) None).
Proof.
  induction failures as [|f rest IH]; intros m t Hm Hsp Hbad.
  - simpl. split; [constructor | exact Hm].
  - inversion Hbad as [|? ? [Hpw Hcmp] Hrest]; subst.
    destruct Hsp as [Hgap Hsp]. cbn [verify_all].
    assert (Hun : unlocked username m).
    { unfold unlocked. fold key. rewrite Hm. reflexivity. }
    rewrite (wrong_password_records_rt _ _ _ m Hpw Hcmp Hun).
    rewrite (record_reset_rt (resumed f) m _ Hm) by exact Hgap.
    set (m1 := <[key := _]> m).
    assert (Hm1 : m1 !! key = Some (mkAttempt 1 (resumed f) None))
      by (unfold m1; apply lookup_insert_eq).
    specialize (IH m1 (resumed f) Hm1 Hsp Hrest).
    destruct (verify_all bcrypt_compare file username rest m1) as [results m2].
    cbn [fst snd] in *. destruct IH as [Hres Hfin].
    split; [constructor; [reflexivity | exact Hres]|].
    simpl map. rewrite last_cons. exact Hfin.
Qed.

(** C1.  For every user name that passes the guard of
    [verifyCredentials] and that the store resolves: after exactly five
    failed attempts whose failures are recorded within one attempt
    window, a further call before the lockout has run out returns
    [null] whatever the password, leaves the state as it is, and
    [isLockedOut] answers [true]; once the lockout duration has passed
    since the fifth failure, the right password returns the user
    record. *)
Theorem lockout_after_five_failures :
  forall (m : Attempts) (failures : list LoginCall),
    m !! toLowerCase username = None ->
    length failures = 5%nat ->
    Forall (fun f => missing (given f) = false /\ bcrypt_compare (given f) hash = false)
      failures ->
    within_attempt_window (map resumed failures) ->
    0 <= List.hd 0 (map resumed failures) ->
    let results := fst (verify_all bcrypt_compare file username failures m) in
    let m5 := snd (verify_all bcrypt_compare file username failures m) in
    let t5 := List.last (map resumed failures) 0 in
    Forall (eq None) results
    /\ (forall now now' pw,
          now < t5 + lockoutDuration ->
          verifyCredentials bcrypt_compare file now now' (mkCredentials username pw) m5
          = (None, m5)
          /\ fst (isLockedOut now username m5) = true)
    /\ (forall now now' pw,
          t5 + lockoutDuration <= now ->
          missing pw = false -> bcrypt_compare pw hash = true ->
          fst (verifyCredentials bcrypt_compare file now now' (mkCredentials username pw) m5)
          = Some user).
Proof.
  intros m failures Hclean Hlen Hbad [Hnd Hspan] Hpos.
  destruct failures as [|f rest]; [discriminate|].
  inversion Hbad as [|? ? [Hpw Hcmp] Hrest]; subst.
  simpl map in *. cbn [List.hd] in *. rewrite last_cons in Hspan |- *.
  cbn [verify_all].
  assert (Hun : unlocked username m) by (unfold unlocked; rewrite Hclean; exact I).
  rewrite (wrong_password_records_rt _ _ _ m Hpw Hcmp Hun).
  rewrite (record_first_rt _ m Hclean). fold key.
  set (m1 := <[key := _]> m).
  assert (Hm1 : m1 !! key = Some (tally 1 (resumed f))).
  { unfold m1. rewrite lookup_insert_eq. reflexivity. }
  destruct (failures_accumulate_rt rest m1 1 (resumed f) Hm1) as [Hres Hfin];
    try assumption.
  { simpl length in Hlen. unfold maxAttempts. lia. }
  destruct (verify_all bcrypt_compare file username rest m1) as [results m5] eqn:Hall.
  cbn [fst snd] in *.
  replace (1 + Z.of_nat (length rest)) with 5 in Hfin
    by (simpl length in Hlen; lia).
  unfold tally in Hfin. change (maxAttempts <=? 5) with true in Hfin. cbv iota in Hfin.
  pose proof (nondecreasing_last _ _ Hnd) as Hlast.
  set (t5 := List.last (map resumed rest) (resumed f)) in *.
  assert (Hl : t5 + lockoutDuration <> 0) by (unfold lockoutDuration; lia).
  split; [constructor; [reflexivity | exact Hres]|]. split.
  - intros now now' pw Hnow. split.
    + apply (verify_during_lock_rt m5 5 t5 _ now now' pw Hfin Hl Hnow).
    + rewrite (isLockedOut_during_rt m5 5 t5 _ now Hfin Hl Hnow). reflexivity.
  - intros now now' pw Hnow Hpw' Hok.
    rewrite (verify_after_lock_rt m5 5 t5 _ now now' pw Hfin Hl Hnow Hpw' Hok).
    reflexivity.
Qed.

(** X9.  Wrong passwords never lock a name when each failure comes more
    than one attempt window after the one before: however many there
    are, every call returns [null] and the entry left behind counts one
    failure and carries no lock. *)
Theorem spaced_failures_never_lock :
  forall (m : Attempts) (first : LoginCall) (rest : list LoginCall),
    m !! toLowerCase username = None ->
    Forall (fun f => missing (given f) = false /\ bcrypt_compare (given f) hash = false)
      (first :: rest) ->
    spaced (resumed first) (map resumed rest) ->
    Forall (eq None) (fst (verify_all bcrypt_compare file username (first :: rest) m))
    /\ snd (verify_all bcrypt_compare file username (first :: rest) m) !! toLowerCase username
       = Some (mkAttempt 1 (List.last (map resumed rest) (resumed first)) None).
Proof.
  intros m f rest Hclean Hbad Hsp.
  inversion Hbad as [|? ? [Hpw Hcmp] Hrest]; subst. cbn [verify_all].
  assert (Hun : unlocked username m) by (unfold unlocked; rewrite Hclean; exact I).
  rewrite (wrong_password_records_rt _ _ _ m Hpw Hcmp Hun).
  rewrite (record_first_rt _ m Hclean). fold key.
  set (m1 := <[key := _]> m).
  assert (Hm1 : m1 !! key = Some (mkAttempt 1 (resumed f) None))
    by (unfold m1; apply lookup_insert_eq).
  destruct (spaced_failures_restart_rt rest m1 (resumed f) Hm1 Hsp Hrest) as [Hres Hfin].
  destruct (verify_all bcrypt_compare file username rest m1) as [results m2].
  cbn [fst snd] in *.
  split; [constructor; [reflexivity | exact Hres] | exact Hfin].
Qed.

(** X11.  The right password for a name with no lock in force returns
    the user record and deletes the entry of the name, so that failures
    counted before it are forgotten. *)
Theorem right_password_clears_the_failures :
  forall (m : Attempts) (now now' : Z) (pw : string),
    unlocked username m ->
    missing pw = false -> bcrypt_compare pw hash = true ->
    verifyCredentials bcrypt_compare file now now' (mkCredentials username pw) m
    = (Some user, delete (toLowerCase username) m)
    /\ prior_count (toLowerCase username)
         (snd (verifyCredentials bcrypt_compare file now now' (mkCredentials username pw) m))
       = 0.
Proof.
  intros m now now' pw Hun Hpw Hok.
  rewrite (right_password_accepted_rt now now' pw m Hpw Hok Hun).
  split; [reflexivity|]. cbn [snd]. unfold prior_count. fold key.
  rewrite lookup_delete_eq. reflexivity.
Qed.

End LockoutOverRuntime.

Lemma verifyCredentials_touches_one_key_witness :
  snd (@Rt.verifyCredentials Rt.ascii IdealBcrypt.compare Scenario.store 2000 2300
         (mkCredentials "Alice" "not-the-password") SpellingExample.two_names) !! "bob"
  = SpellingExample.two_names !! "bob".
Proof.
  apply (@verifyCredentials_touches_one_key Rt.ascii IdealBcrypt.compare Scenario.store
           2000 2300 (mkCredentials "Alice" "not-the-password")
           SpellingExample.two_names "bob").
  vm_compute. discriminate.
Defined.

Lemma unknown_names_are_locked_too_witness :
  Forall (eq None)
    (fst (@Rt.verify_all Rt.ascii IdealBcrypt.compare Scenario.store "mallory"
            UnknownExample.five_calls ∅))
  /\ fst (@Rt.isLockedOut Rt.ascii 6000 "mallory" UnknownExample.after_five) = true.
Proof.
  destruct (@unknown_names_are_locked_too Rt.ascii IdealBcrypt.compare Scenario.store
              "mallory" eq_refl ∅ UnknownExample.five_calls) as (Hres & _ & Hlock).
  - vm_compute. reflexivity.
  - reflexivity.
  - reflexivity.
  - repeat constructor.
  - split; [simpl; lia | vm_compute; discriminate].
  - simpl. lia.
  - split; [exact Hres|]. apply (Hlock 6000). vm_compute. reflexivity.
Defined.

Lemma lockout_after_five_failures_witness :
  (@Rt.verifyCredentials Rt.ascii IdealBcrypt.compare Scenario.store 6000 6300
     (mkCredentials "alice" "pw12345678") LockoutExample.after_five
   = (None, LockoutExample.after_five)
   /\ fst (@Rt.isLockedOut Rt.ascii 6000 "alice" LockoutExample.after_five) = true)
  /\ fst (@Rt.verifyCredentials Rt.ascii IdealBcrypt.compare Scenario.store
            (5300 + lockoutDuration) (5600 + lockoutDuration)
            (mkCredentials "alice" "pw12345678") LockoutExample.after_five)
     = Some Scenario.alice.
Proof.
  destruct (@lockout_after_five_failures Rt.ascii IdealBcrypt.compare Scenario.store
              "alice" Scenario.alice (IdealBcrypt.hash "pw12345678")
              eq_refl eq_refl eq_refl ∅ LockoutExample.five_failures)
    as (_ & Hlock & Hafter).
  - reflexivity.
  - reflexivity.
  - repeat constructor.
  - split; [simpl; lia | vm_compute; discriminate].
  - simpl. lia.
  - split.
    + apply (Hlock 6000 6300 "pw12345678"). vm_compute. reflexivity.
    + apply (Hafter (5300 + lockoutDuration) (5600 + lockoutDuration) "pw12345678").
      * vm_compute. discriminate.
      * reflexivity.
      * reflexivity.
Defined.

Lemma spaced_failures_never_lock_witness :
  Forall (eq None)
    (fst (@Rt.verify_all Rt.ascii IdealBcrypt.compare Scenario.store "alice"
            SlowExample.seven_failures ∅))
  /\ snd (@Rt.verify_all Rt.ascii IdealBcrypt.compare Scenario.store "alice"
            SlowExample.seven_failures ∅) !! "alice"
     = Some (mkAttempt 1 2161300 None).
Proof.
  apply (@spaced_failures_never_lock Rt.ascii IdealBcrypt.compare Scenario.store "alice"
           Scenario.alice (IdealBcrypt.hash "pw12345678") eq_refl eq_refl eq_refl ∅
           (mkCall 1000 1300 "guess-1") (List.tl SlowExample.seven_failures)).
  - reflexivity.
  - repeat constructor.
  - simpl. unfold attemptWindow. repeat split; lia.
Defined.

Lemma right_password_clears_the_failures_witness :
  @Rt.verifyCredentials Rt.ascii IdealBcrypt.compare Scenario.store 2000 2300
    (mkCredentials "alice" "pw12345678") SpellingExample.two_names
  = (Some Scenario.alice, delete "alice" SpellingExample.two_names)
  /\ prior_count "alice"
       (snd (@Rt.verifyCredentials Rt.ascii IdealBcrypt.compare Scenario.store 2000 2300
               (mkCredentials "alice" "pw12345678") SpellingExample.two_names))
     = 0.
Proof.
  apply (@right_password_clears_the_failures Rt.ascii IdealBcrypt.compare Scenario.store
           "alice" Scenario.alice (IdealBcrypt.hash "pw12345678") eq_refl eq_refl eq_refl
           SpellingExample.two_names 2000 2300 "pw12345678").
  - vm_compute. reflexivity.
  - reflexivity.
  - reflexivity.
Defined.

(** ** Failures of calls in flight at once *)

Section ConcurrentOverRuntime.

Import EventLoop Interleaving Rt.

Context {rt : Runtime}.

Variable bcrypt_compare : string -> string -> bool.
Variable file : UsersFile.
Variable username : string.
Variable user : JSON.
Variable hash : string.
Variable passwords : list string.
Variable t0 : Z.

Hypothesis name_given : blank username = false.
Hypothesis user_found : findUser file username = Returned (Some user).
Hypothesis hash_stored : getProp user "passwordHash" = Returned (Some (JStr hash)).
Hypothesis all_wrong :
  Forall (fun pw => missing pw = false /\ bcrypt_compare pw hash = false) passwords.

Let key : string := toLowerCase username.

Lemma wrong_at i pw :
  passwords !! i = Some pw -> missing pw = false /\ bcrypt_compare pw hash = false.
Proof.
  intros H. rewrite List.Forall_forall in all_wrong. apply all_wrong.
  apply list_elem_of_In. eapply list_elem_of_lookup_2. exact H.
Qed.

Lemma run_app s1 s2 w :
  run bcrypt_compare file (s1 ++ s2)%list w
  = run bcrypt_compare file s2 (run bcrypt_compare file s1 w).
Proof.
  revert w. induction s1 as [|[i now] s1 IH]; intros w; [reflexivity|]. simpl. apply IH.
Qed.

Lemma staged_advance stage i next (w : World) m1 :
  staged username user passwords stage w ->
  (forall pw, passwords !! i = Some pw -> next = call_at username user (S (stage i)) pw) ->
  staged username user passwords (advance stage i) (mkWorld m1 (<[i := next]> (calls w))).
Proof.
  intros Hst Hnext j pw Hj. unfold advance. cbn [calls].
  destruct (Nat.eqb j i) eqn:E.
  - apply Nat.eqb_eq in E. subst j. rewrite (Hnext pw Hj).
    apply list_lookup_insert_eq. apply lookup_lt_is_Some. rewrite (Hst i pw Hj). eauto.
  - apply Nat.eqb_neq in E. rewrite list_lookup_insert_ne by congruence. apply Hst. exact Hj.
Qed.

(** A call that starts while no lock is in force goes to wait for its
    comparison and leaves the lockout state alone. *)
Lemma turn_start stage i now (w : World) :
  staged username user passwords stage w ->
  (i < length passwords)%nat -> stage i = O ->
  unlocked username (loginAttempts w) ->
  loginAttempts (turn bcrypt_compare file i now w) = loginAttempts w
  /\ staged username user passwords (advance stage i) (turn bcrypt_compare file i now w).
Proof.
  intros Hst Hi Hs Hun.
  destruct (lookup_lt_is_Some_2 passwords i Hi) as [pw Hpw].
  destruct (wrong_at i pw Hpw) as [Hne Hbad].
  unfold turn. rewrite (Hst i pw Hpw), Hs. cbn [call_at].
  rewrite (verify_start_unlocked_rt file username user hash name_given user_found
             hash_stored now pw _ Hne Hun).
  rewrite Hbad. split; [reflexivity|].
  apply staged_advance; [exact Hst|].
  intros pw' Hpw'. rewrite Hs. cbn [call_at]. congruence.
Qed.

Lemma starts_leave_state (starts : list (nat * Z)) :
  forall stage (w : World),
    staged username user passwords stage w ->
    NoDup (map fst starts) ->
    (forall i, i ∈ map fst starts -> (i < length passwords)%nat /\ stage i = O) ->
    unlocked username (loginAttempts w) ->
    loginAttempts (run bcrypt_compare file starts w) = loginAttempts w
    /\ exists stage',
         staged username user passwords stage' (run bcrypt_compare file starts w)
         /\ (forall i, i ∈ map fst starts -> stage' i = 1%nat)
         /\ (forall i, i ∉ map fst starts -> stage' i = stage i).
Proof.
  induction starts as [|[i now] rest IH]; intros stage w Hst Hnd Hin Hun.
  - split; [reflexivity|]. exists stage. split; [exact Hst|].
    split; [intros i Hi; inversion Hi | reflexivity].
  - simpl map in *. apply NoDup_cons in Hnd as [Hnotin Hnd].
    destruct (Hin i (list_elem_of_here _ _)) as [Hi Hs].
    destruct (turn_start stage i now w Hst Hi Hs Hun) as [Hm Hst1].
    cbn [run].
    destruct (IH (advance stage i) (turn bcrypt_compare file i now w) Hst1 Hnd)
      as [Hm' (stage' & Hst' & Hone & Hsame)].
    + intros j Hj. destruct (Hin j (list_elem_of_further _ _ _ Hj)) as [Hj1 Hj2].
      split; [exact Hj1|].
      unfold advance. destruct (Nat.eqb j i) eqn:E; [|exact Hj2].
      apply Nat.eqb_eq in E. subst j. contradiction.
    + rewrite Hm. exact Hun.
    + split; [rewrite Hm', Hm; reflexivity|].
      exists stage'. split; [exact Hst'|]. split.
      * intros j Hj. apply elem_of_cons in Hj as [->|Hj]; [|apply Hone; exact Hj].
        rewrite (Hsame i Hnotin). unfold advance. rewrite Nat.eqb_refl, Hs. reflexivity.
      * intros j Hj. apply not_elem_of_cons in Hj as [Hne Hj].
        rewrite (Hsame j Hj). unfold advance.
        destruct (Nat.eqb j i) eqn:E; [|reflexivity].
        apply Nat.eqb_eq in E. contradiction.
Qed.

Lemma counted_tracked (m : Attempts) c : counted key t0 m c -> tracked key t0 m c.
Proof. intros (a & Ha & Hc & Ht & _). unfold tracked. rewrite Ha. split; assumption. Qed.

(** One more failure within the window is one more in the count, and
    the lock is set when the threshold is reached. *)
Lemma record_counts (m : Attempts) c now :
  tracked key t0 m c -> t0 <= now <= t0 + attemptWindow ->
  counted key t0 (snd (recordFailedAttempt now username m)) (c + 1).
Proof.
  unfold tracked, counted, recordFailedAttempt. fold key. intros Htr Hnow.
  destruct (m !! key) as [a|].
  - destruct Htr as [Hc Ht].
    replace (attemptWindow <? now - lastAttempt a) with false
      by (symmetry; apply Z.ltb_ge; lia).
    rewrite Hc. destruct (maxAttempts <=? c + 1) eqn:E; cbn [snd];
      rewrite lookup_insert_eq; eexists; (split; [reflexivity|]); cbn;
      (split; [reflexivity|]); (split; [lia|]); intros Hmax.
    + reflexivity.
    + apply Z.leb_gt in E. lia.
  - subst c. cbn [snd]. rewrite lookup_insert_eq. eexists. split; [reflexivity|]. cbn.
    split; [reflexivity|]. split; [lia|]. unfold maxAttempts. lia.
Qed.

Lemma turn_finish stage i now (w : World) c :
  staged username user passwords stage w ->
  (i < length passwords)%nat -> stage i = 1%nat ->
  tracked key t0 (loginAttempts w) c -> t0 <= now <= t0 + attemptWindow ->
  counted key t0 (loginAttempts (turn bcrypt_compare file i now w)) (c + 1)
  /\ staged username user passwords (advance stage i) (turn bcrypt_compare file i now w).
Proof.
  intros Hst Hi Hs Htr Hnow.
  destruct (lookup_lt_is_Some_2 passwords i Hi) as [pw Hpw].
  unfold turn. rewrite (Hst i pw Hpw), Hs. cbn [call_at].
  unfold verify_finish. read_credentials. cbn [negb loginAttempts]. split.
  - apply record_counts; assumption.
  - apply staged_advance; [exact Hst|].
    intros pw' Hpw'. rewrite Hs. reflexivity.
Qed.

Lemma finishes_counted (finishes : list (nat * Z)) :
  forall stage (w : World) c,
    staged username user passwords stage w ->
    NoDup (map fst finishes) ->
    (forall i, i ∈ map fst finishes -> (i < length passwords)%nat /\ stage i = 1%nat) ->
    Forall (fun s => t0 <= snd s <= t0 + attemptWindow) finishes ->
    counted key t0 (loginAttempts w) c ->
    counted key t0 (loginAttempts (run bcrypt_compare file finishes w))
      (c + Z.of_nat (length finishes)).
Proof.
  induction finishes as [|[i now] rest IH]; intros stage w c Hst Hnd Hin Htimes Hc.
  - simpl. rewrite Z.add_0_r. exact Hc.
  - simpl map in *. apply NoDup_cons in Hnd as [Hnotin Hnd].
    apply Forall_cons in Htimes as [Hnow Htimes]. cbn [snd] in Hnow.
    destruct (Hin i (list_elem_of_here _ _)) as [Hi Hs].
    destruct (turn_finish stage i now w c Hst Hi Hs (counted_tracked _ _ Hc) Hnow)
      as [Hc1 Hst1].
    cbn [run]. simpl length. rewrite Nat2Z.inj_succ.
    replace (c + Z.succ (Z.of_nat (length rest))) with (c + 1 + Z.of_nat (length rest))
      by lia.
    apply (IH (advance stage i)); try assumption.
    intros j Hj. destruct (Hin j (list_elem_of_further _ _ _ Hj)) as [Hj1 Hj2].
    split; [exact Hj1|].
    unfold advance. destruct (Nat.eqb j i) eqn:E; [|exact Hj2].
    apply Nat.eqb_eq in E. subst j. contradiction.
Qed.

(** C9. Calls of [verifyCredentials] for one user name that are all in
    flight at once (each has started before any of them resumes), all
    with a wrong password: in whatever order they start and in whatever
    order they resume within the attempt window, after [k] of them have
    resumed exactly [k] failures have been added to the count kept
    under the name as the runtime lower-cases it, and the lock is set
    whenever the count is at or above the threshold.  So no two calls
    write the same count, and from a count of 4 two calls in flight
    leave 6 and the lock set. *)
Theorem concurrent_failures_are_all_counted :
  forall (m : Attempts) (starts finishes : list (nat * Z)),
    fresh_since username t0 m ->
    Permutation (map fst starts) (seq 0 (length passwords)) ->
    Permutation (map fst finishes) (seq 0 (length passwords)) ->
    Forall (fun s => t0 <= snd s <= t0 + attemptWindow) finishes ->
    forall k : nat,
      (1 <= k <= length passwords)%nat ->
      exists a : LoginAttempt,
        loginAttempts
          (run bcrypt_compare file (starts ++ firstn k finishes)%list
             (mkWorld m (queued username passwords)))
        !! toLowerCase username = Some a
        /\ count a = prior_count (toLowerCase username) m + Z.of_nat k
        /\ (maxAttempts <= count a ->
            lockedUntil a = Some (lastAttempt a + lockoutDuration)).
Proof.
  intros m starts finishes Hfresh Hps Hpf Htimes k [Hk1 Hk2].
  set (w0 := mkWorld m (queued username passwords)).
  assert (Hst0 : staged username user passwords (fun _ => O) w0).
  { intros i pw Hi. apply lookup_queued. exact Hi. }
  fold key. fold key in Hfresh.
  assert (Hun : unlocked username m).
  { unfold unlocked. unfold fresh_since in Hfresh. fold key in Hfresh |- *.
    destruct (m !! key); [apply Hfresh | exact I]. }
  assert (Htr : tracked key t0 m (prior_count key m)).
  { unfold tracked, prior_count. unfold fresh_since in Hfresh. fold key in Hfresh.
    destruct (m !! key); [split; [reflexivity | apply Hfresh] | reflexivity]. }
  assert (Hrange : forall l, Permutation l (seq 0 (length passwords)) ->
                             NoDup l /\ forall i, i ∈ l <-> (i < length passwords)%nat).
  { intros l Hl. split.
    - rewrite Hl. apply NoDup_seq.
    - intros i. rewrite Hl, elem_of_seq. lia. }
  destruct (Hrange _ Hps) as [Hnds Hins]. destruct (Hrange _ Hpf) as [Hndf Hinf].
  destruct (starts_leave_state starts (fun _ => O) w0 Hst0 Hnds)
    as [Hm (stage & Hst & Hone & _)].
  { intros i Hi. split; [apply Hins; exact Hi | reflexivity]. }
  { exact Hun. }
  rewrite run_app. set (w1 := run bcrypt_compare file starts w0) in *.
  change (loginAttempts w0) with m in Hm.
  assert (Hlenf : length finishes = length passwords).
  { rewrite <- (length_map fst finishes), (Permutation_length Hpf). apply length_seq. }
  assert (Hndk : NoDup (map fst (firstn k finishes))).
  { rewrite <- List.firstn_map. apply (sublist_NoDup _ _ Hndf (sublist_take _ _)). }
  assert (Hink : forall i, i ∈ map fst (firstn k finishes) ->
                           (i < length passwords)%nat /\ stage i = 1%nat).
  { intros i Hi. rewrite <- List.firstn_map in Hi. apply subseteq_take in Hi.
    split; [apply Hinf; exact Hi | apply Hone, Hins, Hinf; exact Hi]. }
  assert (Htk : Forall (fun s => t0 <= snd s <= t0 + attemptWindow) (firstn k finishes)).
  { apply Forall_take. exact Htimes. }
  assert (Hlenk : length (firstn k finishes) = k).
  { apply length_take_le. lia. }
  destruct (firstn k finishes) as [|[i now] rest]; [simpl in Hlenk; lia|].
  simpl map in *. apply NoDup_cons in Hndk as [Hnotin Hndk].
  apply Forall_cons in Htk as [Hnow Htk]. cbn [snd] in Hnow.
  destruct (Hink i (list_elem_of_here _ _)) as [Hi Hs].
  assert (Htr1 : tracked key t0 (loginAttempts w1) (prior_count key m))
    by (rewrite Hm; exact Htr).
  destruct (turn_finish stage i now w1 (prior_count key m) Hst Hi Hs Htr1 Hnow)
    as [Hc1 Hst1].
  cbn [run].
  pose proof (finishes_counted rest (advance stage i) (turn bcrypt_compare file i now w1)
                (prior_count key m + 1) Hst1 Hndk) as Hfin.
  destruct Hfin as (a & Ha & Hcount & _ & Hlock); try assumption.
  - intros j Hj. destruct (Hink j (list_elem_of_further _ _ _ Hj)) as [Hj1 Hj2].
    split; [exact Hj1|].
    unfold advance. destruct (Nat.eqb j i) eqn:E; [|exact Hj2].
    apply Nat.eqb_eq in E. subst j. contradiction.
  - exists a. split; [exact Ha|]. simpl length in Hlenk.
    split; [lia|]. intros Hmax. apply Hlock. lia.
Qed.

End ConcurrentOverRuntime.

Lemma concurrent_failures_witness :
  exists a : LoginAttempt,
    EventLoop.loginAttempts
      (@Rt.run Rt.ascii IdealBcrypt.compare Scenario.store
         (RaceExample.starts ++ firstn 2 RaceExample.finishes)%list
         (EventLoop.mkWorld RaceExample.four_counted (queued "alice" RaceExample.passwords)))
    !! "alice" = Some a
    /\ count a = 6.
Proof.
  destruct (@concurrent_failures_are_all_counted Rt.ascii IdealBcrypt.compare
              Scenario.store "alice" Scenario.alice (IdealBcrypt.hash "pw12345678")
              RaceExample.passwords 900 eq_refl eq_refl eq_refl)
    with (m := RaceExample.four_counted) (starts := RaceExample.starts)
         (finishes := RaceExample.finishes) (k := 2%nat) as (a & Ha & Hcount & _).
  - repeat constructor.
  - vm_compute. split; [reflexivity | discriminate].
  - apply perm_swap.
  - apply Permutation_refl.
  - repeat constructor; vm_compute; discriminate.
  - simpl. lia.
  - exists a. split; [exact Ha|]. rewrite Hcount. vm_compute. reflexivity.
Defined.

(** ** Length rejection at the login endpoint *)

Section LoginOverRuntime.

Import Rt.

Context {rt : Runtime}.

(** C10, as the code has it.  A login request whose user name is a
    string that passes the handler's first guard (it is not empty and
    the runtime's [trim] leaves it a length other than 0) and whose
    password is a string that passes the second, with a sanitized user
    name of [length] below 3 or above 100, or a password of [length]
    below 8 or above 128, is answered 401 [Invalid credentials]; the
    answer and the state after it are the same whatever the verifier
    would have done, so the verifier is not called, and the lockout
    state is the one before the request. *)
Theorem login_length_rejection_leaves_lockout_state :
  forall (verify : AuthCredentials -> Attempts -> option JSON * Attempts)
         (create : JSON -> Outcome (string * CookieStore))
         (body : JSON) (username password : string) (m : Attempts) (store : CookieStore),
    getProp body "username" = Returned (Some (JStr username)) ->
    getProp body "password" = Returned (Some (JStr password)) ->
    blank username = false ->
    missing password = false ->
    strlen (sanitizeInput username) < 3
    \/ 100 < strlen (sanitizeInput username)
    \/ strlen password < 8
    \/ 128 < strlen password ->
    login_POST verify create (Returned body) m store
    = (error_response "Invalid credentials" 401, m, store).
Proof.
  intros verify create body username password m store Hu Hp Hblank Hpw Hlen.
  unfold login_POST, login_try. rewrite Hu, Hp, Hblank, Hpw.
  cbn [Validation.isValidUtf8 negb orb].
  destruct (strlen (sanitizeInput username) <? 3) eqn:H1; [reflexivity|].
  destruct (100 <? strlen (sanitizeInput username)) eqn:H2; [reflexivity|].
  destruct (strlen password <? 8) eqn:H3; [reflexivity|].
  destruct (128 <? strlen password) eqn:H4; [reflexivity|].
  apply Z.ltb_ge in H1, H2, H3, H4. lia.
Qed.

End LoginOverRuntime.

Lemma login_length_rejection_witness :
  @Rt.login_POST Rt.ascii Example.verify Example.create
    (Returned (JObj [("username", JStr "al"); ("password", JStr "password123")]))
    ∅ None
  = (error_response "Invalid credentials" 401, ∅, None).
Proof.
  apply (@login_length_rejection_leaves_lockout_state Rt.ascii Example.verify
           Example.create _ "al" "password123"); try reflexivity.
  left. vm_compute. reflexivity.
Defined.

(** ** What [loadUsers] returns *)

Lemma truthy_not_missing entry k :
  truthy (prop entry k) = true -> Entry.missing_field entry k = false.
Proof.
  unfold Entry.missing_field.
  destruct (prop entry k) as [[| | |s| |]|]; cbn [truthy]; try discriminate; try reflexivity.
  apply negb_true_iff.
Qed.

Lemma has_credentials_complete entry :
  has_credentials entry = true -> Entry.complete entry = true.
Proof.
  unfold has_credentials, Entry.complete. intros H. apply andb_prop in H as [H1 H2].
  rewrite (truthy_not_missing _ _ H1), (truthy_not_missing _ _ H2). reflexivity.
Qed.





Lemma filter_entries_null users :
  In JNull users -> exists e, filter_entries users = Thrown e.
Proof.
  induction users as [|u r IH]; [intros []|]. intros [->|Hin]; [eexists; reflexivity|].
  cbn [filter_entries]. destruct (IH Hin) as [e ->].
  destruct (valid_entry u); eexists; reflexivity.
Qed.

Lemma filter_entries_throws users e :
  filter_entries users = Thrown e -> In JNull users.
Proof.
  revert e. induction users as [|u r IH]; intros e; simpl; [discriminate|].
  destruct (valid_entry u) as [keep|e'] eqn:Hv.
  - destruct (filter_entries r) as [r'|e'']; [discriminate|].
    intros _. right. apply (IH e''). reflexivity.
  - intros _. left. destruct u as [|b|m n|s|items|fields]; [reflexivity | | | | |];
      unfold valid_entry in Hv; cbn [getProp] in Hv;
      match type of Hv with
      | context [negb ?t] => destruct (negb t); discriminate
      end.
Qed.

Section StoreOverRuntime.

Import Rt.

Context {rt : Runtime}.

Lemma degraded_loads_nothing_rt file : degraded file -> loadUsers file = [].
Proof.
  unfold loadUsers. destruct 1 as [| |text Ht|text Hp|text data Hp Hu];
    unfold loadUsers_try; try reflexivity.
  - rewrite Ht. reflexivity.
  - destruct (is_empty (trim text)); [reflexivity|]. rewrite Hp. reflexivity.
  - destruct (is_empty (trim text)); [reflexivity|]. rewrite Hp.
    unfold users_sequence in Hu.
    destruct data; try reflexivity.
    + destruct (negb (truthy (Some (JBool b)))); reflexivity.
    + destruct (negb (truthy (Some (JNum m e)))); reflexivity.
    + destruct (negb (truthy (Some (JStr s)))); reflexivity.
    + simpl in *. destruct (assoc "users" fields) as [[]|]; try reflexivity. discriminate.
Qed.

(** What the [try] block of [loadUsers] does on a file that holds a
    [users] sequence. *)
Lemma loadUsers_try_sequence text data users :
  is_empty (trim text) = false -> parse text = Some data ->
  users_sequence data = Some users ->
  loadUsers_try (FileContent text) = filter_entries users.
Proof.
  intros He Hp Hu. unfold loadUsers_try. rewrite He, Hp.
  destruct (users_sequence_getProp _ _ Hu) as [-> ->]. reflexivity.
Qed.

(** The [try] block of [loadUsers] returns entries only through the
    filter, and throws only for an unreadable file, an unparseable one
    or one of whose entries is [null]. *)
Lemma loadUsers_try_cases file :
  match loadUsers_try file with
  | Returned [] => True
  | Returned kept =>
      exists text data users,
        file = FileContent text /\ is_empty (trim text) = false
        /\ parse text = Some data /\ users_sequence data = Some users
        /\ filter_entries users = Returned kept
  | Thrown e =>
      file = FileUnreadable
      \/ exists text,
           file = FileContent text /\ is_empty (trim text) = false
           /\ (parse text = None
               \/ exists data users,
                    parse text = Some data /\ users_sequence data = Some users
                    /\ In JNull users)
  end.
Proof.
  destruct file as [| |text]; unfold loadUsers_try; [exact I | left; reflexivity |].
  destruct (is_empty (trim text)) eqn:He; [exact I|].
  destruct (parse text) as [data|] eqn:Hp;
    [|right; exists text; split; [reflexivity|]; split; [exact He|]; left; exact Hp].
  destruct (negb (truthy (Some data))) eqn:Ht; [exact I|].
  destruct data as [|b|m e|s|items|fields]; try exact I.
  - discriminate.
  - cbn [getProp].
    destruct (assoc "users" fields) as [[| | | |users|]|] eqn:Hu; try exact I.
    assert (Hseq : users_sequence (JObj fields) = Some users).
    { unfold users_sequence. simpl. rewrite Hu. reflexivity. }
    destruct (filter_entries users) as [[|k kept]|e] eqn:Hf; [exact I | |].
    + exists text, (JObj fields), users.
      split; [reflexivity|]. split; [exact He|]. split; [exact Hp|].
      split; [exact Hseq | exact Hf].
    + right. exists text. split; [reflexivity|]. split; [exact He|]. right.
      exists (JObj fields), users. split; [exact Hp|]. split; [exact Hseq|].
      apply (filter_entries_throws users e Hf).
Qed.


End StoreOverRuntime.


(** ** Where faults go *)

Section FaultsOverRuntime.

Import Rt.

Context {rt : Runtime}.

(** A fault of the look-up, or a stored hash that is not a string,
    ends in the [catch] of [verifyCredentials]. *)
Lemma lookup_fault_is_null bcrypt_compare file now now' c (m : Attempts) :
  (exists e, findUser file (username c) = Thrown e)
  \/ (exists user,
        findUser file (username c) = Returned (Some user)
        /\ forall hash, getProp user "passwordHash" <> Returned (Some (JStr hash))) ->
  fst (verifyCredentials bcrypt_compare file now now' c m) = None.
Proof.
  intros H. unfold verifyCredentials, verify_start, verify_start_try.
  destruct (blank (username c)); [reflexivity|].
  destruct (missing (password c)); [reflexivity|].
  destruct (isLockedOut now (username c) m) as [[|] m1]; [reflexivity|].
  destruct H as [[e ->]|(user & -> & Hhash)]; [reflexivity|].
  destruct (getProp user "passwordHash") as [[[| | |hash| |]|]|]; try reflexivity.
  contradiction (Hhash hash). reflexivity.
Qed.

(** A cookie that does not parse, or parses to [null], is refused by
    both decoders. *)
Lemma unparsed_cookie_is_null file now cookie :
  parse (Base64.decode cookie) = None \/ parse (Base64.decode cookie) = Some JNull ->
  Edge.decodeSession now cookie = None /\ decodeSession file now cookie = None.
Proof.
  unfold Edge.decodeSession, Edge.decodeSession_try, decodeSession, decodeSession_try.
  intros [-> | ->]; split; reflexivity.
Qed.

(** With a users file whose look-ups fault, the full decoder refuses
    every cookie. *)
Lemma faulty_store_refuses_sessions file now cookie :
  (forall name, exists e, findUser file name = Thrown e) ->
  decodeSession file now cookie = None.
Proof.
  intros Hfault. unfold decodeSession, decodeSession_try.
  destruct (parse (Base64.decode cookie)) as [v|]; [|reflexivity].
  destruct (getProp v "username") as [name|]; [|reflexivity].
  destruct (getProp v "token") as [tok|]; [|reflexivity].
  destruct (getProp v "expiresAt") as [ex|]; [|reflexivity].
  destruct (negb (truthy name) || negb (truthy tok) || negb (truthy ex)); [reflexivity|].
  destruct (negb (is_string name) || negb (is_number ex)); [reflexivity|].
  destruct name as [[| | |username| |]|]; try reflexivity.
  destruct ex as [[| |m e| | |]|]; try reflexivity.
  destruct (gt_num now m e); [destruct (date_in_range m e); reflexivity|].
  destruct (Hfault username) as [err ->]. reflexivity.
Qed.

Lemma destroySession_throws file now cookies :
  (exists e, destroySession file now cookies = Thrown e) <-> (exists e, cookies = Thrown e).
Proof.
  unfold destroySession. destruct cookies as [store|e]; split; intros [e' H];
    try discriminate; eauto.
Qed.

(** The login handler, with the verifier of [lib/auth], when the
    session cannot be created after the password was accepted. *)
Lemma login_create_fault bcrypt_compare file now now' create body username password
    user hash (m : Attempts) store e :
  getProp body "username" = Returned (Some (JStr username)) ->
  getProp body "password" = Returned (Some (JStr password)) ->
  blank username = false ->
  missing password = false ->
  3 <= strlen (sanitizeInput username) <= 100 ->
  8 <= strlen password <= 128 ->
  blank (sanitizeInput username) = false ->
  unlocked (sanitizeInput username) m ->
  findUser file (sanitizeInput username) = Returned (Some user) ->
  getProp user "passwordHash" = Returned (Some (JStr hash)) ->
  bcrypt_compare password hash = true ->
  create user = Thrown e ->
  login_POST (verifyCredentials bcrypt_compare file now now') create (Returned body) m store
  = (error_response "Failed to create session" 500,
     delete (toLowerCase (sanitizeInput username)) m, store).
Proof.
  intros Hu Hp Hblank Hpw Hlu Hlp Hclean Hun Hfind Hhash Hok Hc.
  unfold login_POST, login_try. rewrite Hu, Hp, Hblank, Hpw.
  cbn [Validation.isValidUtf8 negb orb].
  replace (strlen (sanitizeInput username) <? 3) with false
    by (symmetry; apply Z.ltb_ge; lia).
  replace (100 <? strlen (sanitizeInput username)) with false
    by (symmetry; apply Z.ltb_ge; lia).
  replace (strlen password <? 8) with false by (symmetry; apply Z.ltb_ge; lia).
  replace (128 <? strlen password) with false by (symmetry; apply Z.ltb_ge; lia).
  cbn [orb].
  rewrite (right_password_accepted_rt bcrypt_compare file (sanitizeInput username) user hash
             Hclean Hfind Hhash now now' password m Hpw Hok Hun).
  rewrite Hc. reflexivity.
Qed.

(** C6, as the code has it.  Credential verification, both session
    decoders and the user-store load answer [null] or the empty
    sequence for every fault of their [try] block.  Fault by fault:
    credential verification answers [null] when the look-up of the
    user faults or the stored hash is not a string; both session
    decoders answer [null] for a cookie that does not parse or parses
    to [null], and the full one for every cookie when the look-up of
    the user faults; the user-store load is empty for a file that
    cannot be read or parsed or that holds a [null] entry.  The
    rate-limit check has no step that can fail: it admits an address
    it has no entry for and leaves the store alone when it refuses.
    [createSession] and
    [destroySession] throw again: the first exactly when the token
    cannot be generated, when the user is [null] or when the cookie
    store fails, the second exactly when the cookie store fails.  The
    login handler, run with [verifyCredentials] itself, answers 500
    when the session cannot be created after the password was accepted
    (the failures counted for the name are then already cleared), and
    the logout handler answers 500 when the cookie store fails, so
    nothing passes the request boundary. *)
Theorem faults_stop_at_the_request_boundary :
  forall (bcrypt_compare : string -> string -> bool) (file : UsersFile) (now now' : Z),
    (forall (credentials : AuthCredentials) (m : Attempts),
        (exists e, findUser file (username credentials) = Thrown e)
        \/ (exists user,
              findUser file (username credentials) = Returned (Some user)
              /\ forall hash, getProp user "passwordHash" <> Returned (Some (JStr hash))) ->
        fst (verifyCredentials bcrypt_compare file now now' credentials m) = None)
    /\ (forall cookieValue : string,
          parse (Base64.decode cookieValue) = None
          \/ parse (Base64.decode cookieValue) = Some JNull ->
          Edge.decodeSession now cookieValue = None
          /\ decodeSession file now cookieValue = None)
    /\ ((forall name, exists e, findUser file name = Thrown e) ->
        forall cookieValue : string, decodeSession file now cookieValue = None)
    /\ loadUsers FileUnreadable = []
    /\ (forall text, parse text = None -> loadUsers (FileContent text) = [])
    /\ (forall text data users,
          is_empty (trim text) = false -> parse text = Some data ->
          users_sequence data = Some users -> In JNull users ->
          loadUsers (FileContent text) = [])
    /\ (forall (random : Q) (ip : string) (requests : RateLimit.Requests),
          (RateLimit.get ip requests = None ->
           fst (RateLimit.isRateLimited now random ip requests) = false)
          /\ (fst (RateLimit.isRateLimited now random ip requests) = true ->
              snd (RateLimit.isRateLimited now random ip requests) = requests))
    /\ (forall entropy production cookies user,
          (exists e, createSession entropy now production cookies user = Thrown e)
          <-> (exists e, entropy = Thrown e) \/ user = JNull
              \/ (exists e, cookies = Thrown e))
    /\ (forall cookies,
          (exists e, destroySession file now cookies = Thrown e)
          <-> (exists e, cookies = Thrown e))
    /\ (forall create body username password user hash (m : Attempts) store e,
          getProp body "username" = Returned (Some (JStr username)) ->
          getProp body "password" = Returned (Some (JStr password)) ->
          blank username = false ->
          missing password = false ->
          3 <= strlen (sanitizeInput username) <= 100 ->
          8 <= strlen password <= 128 ->
          blank (sanitizeInput username) = false ->
          unlocked (sanitizeInput username) m ->
          findUser file (sanitizeInput username) = Returned (Some user) ->
          getProp user "passwordHash" = Returned (Some (JStr hash)) ->
          bcrypt_compare password hash = true ->
          create user = Thrown e ->
          login_POST (verifyCredentials bcrypt_compare file now now') create
            (Returned body) m store
          = (error_response "Failed to create session" 500,
             delete (toLowerCase (sanitizeInput username)) m, store))
    /\ (forall cookies store e,
          cookies = Thrown e ->
          logout_POST file now cookies store
          = (error_response "Failed to logout" 500, store))
    /\ (forall (credentials : AuthCredentials) (m m1 : Attempts) e,
          verify_start_try file now credentials m = (Thrown e, m1) ->
          verifyCredentials bcrypt_compare file now now' credentials m = (None, m1))
    /\ (forall (cookieValue : string) e,
          (Edge.decodeSession_try now cookieValue = Thrown e ->
           Edge.decodeSession now cookieValue = None)
          /\ (decodeSession_try file now cookieValue = Thrown e ->
              decodeSession file now cookieValue = None))
    /\ (forall (other : UsersFile) e,
          loadUsers_try other = Thrown e -> loadUsers other = []).
Proof.
  intros bcrypt_compare file now now'.
  split; [intros c m; apply lookup_fault_is_null|].
  split; [intros cookie; apply unparsed_cookie_is_null|].
  split; [intros Hfault cookie; apply faulty_store_refuses_sessions; exact Hfault|].
  split; [reflexivity|].
  split.
  { intros text Hp. apply degraded_loads_nothing_rt. apply degraded_unparseable. exact Hp. }
  split.
  { intros text data users He Hp Hu Hnull. unfold loadUsers.
    rewrite (loadUsers_try_sequence text data users He Hp Hu).
    destruct (filter_entries_null users Hnull) as [e ->]. reflexivity. }
  split.
  { intros random ip requests. split.
    - intros Hget. unfold RateLimit.isRateLimited. rewrite Hget. reflexivity.
    - unfold RateLimit.isRateLimited.
      destruct (RateLimit.MAX_REQUESTS <=? _); [reflexivity | discriminate]. }
  split; [intros entropy production cookies user; apply createSession_throws|].
  split; [intros cookies; apply destroySession_throws|].
  split.
  { intros create body username password user hash m store e.
    apply login_create_fault. }
  split; [intros cookies store e ->; reflexivity|].
  split.
  { intros c m m1 e H. unfold verifyCredentials, verify_start. rewrite H. reflexivity. }
  split.
  { intros cookie e. split; intros H.
    - unfold Edge.decodeSession. rewrite H. reflexivity.
    - unfold decodeSession. rewrite H. reflexivity. }
  intros other e H. unfold loadUsers. rewrite H. reflexivity.
Qed.

End FaultsOverRuntime.

Lemma faults_stop_at_the_request_boundary_witness :
  (forall cookieValue : string,
      @Rt.decodeSession Rt.ascii StoreExample.numbered_first 2000 cookieValue = None)
  /\ @Rt.login_POST Rt.ascii
       (@Rt.verifyCredentials Rt.ascii IdealBcrypt.compare Scenario.store 2000 2300)
       (createSession (Thrown IOError) 2400 false (Returned None))
       (Returned (JObj [("username", JStr "alice"); ("password", JStr "pw12345678")]))
       SpellingExample.two_names None
     = (error_response "Failed to create session" 500,
        delete "alice" SpellingExample.two_names, None).
Proof.
  split.
  - destruct (@faults_stop_at_the_request_boundary Rt.ascii IdealBcrypt.compare
                StoreExample.numbered_first 2000 2300) as (_ & _ & Hfault & _).
    apply Hfault. intros name. exists TypeError. reflexivity.
  - destruct (@faults_stop_at_the_request_boundary Rt.ascii IdealBcrypt.compare
                Scenario.store 2000 2300) as (_ & _ & _ & _ & _ & _ & _ & _ & _ & Hlogin & _).
    apply (Hlogin (createSession (Thrown IOError) 2400 false (Returned None))
             _ "alice" "pw12345678" Scenario.alice (IdealBcrypt.hash "pw12345678")
             SpellingExample.two_names None RuntimeError).
    + reflexivity.
    + reflexivity.
    + reflexivity.
    + reflexivity.
    + vm_compute. split; discriminate.
    + vm_compute. split; discriminate.
    + reflexivity.
    + vm_compute. reflexivity.
    + reflexivity.
    + reflexivity.
    + reflexivity.
    + reflexivity.
Defined.

(** ** Looking a user up *)

Section LookupOverRuntime.

Import Rt.

Context {rt : Runtime}.

Lemma loadUsers_kept_rt file entry :
  In entry (loadUsers file) -> has_credentials entry = true.
Proof.
  unfold loadUsers. pose proof (loadUsers_try_cases file) as Hc.
  destruct (loadUsers_try file) as [[|k kept]|e]; cbn [tryCatch];
    [intros [] | | intros []].
  destruct Hc as (text & data & users & _ & _ & _ & _ & Hf). intros Hin.
  apply (filter_entries_sound _ _ _ Hf Hin).
Qed.

Lemma find_entry_sound_rt users normalized user :
  find_entry users normalized = Returned (Some user) ->
  In user users
  /\ exists name, getProp user "username" = Returned (Some (JStr name))
                  /\ trim (toLowerCase name) = normalized.
Proof.
  induction users as [|u r IH]; simpl; [discriminate|].
  destruct (getProp u "username") as [[[| | |name| |]|]|] eqn:Hn; try discriminate.
  destruct (String.eqb (trim (toLowerCase name)) normalized) eqn:E.
  - intros [= <-]. split; [left; reflexivity|]. exists name.
    split; [exact Hn | apply String.eqb_eq; exact E].
  - intros H. destruct (IH H) as [Hin Hex]. split; [right; exact Hin | exact Hex].
Qed.

Lemma findUser_sound_rt file username user :
  findUser file username = Returned (Some user) ->
  In user (loadUsers file)
  /\ has_credentials user = true
  /\ exists name, prop user "username" = Some (JStr name)
                  /\ name <> EmptyString
                  /\ trim (toLowerCase name) = trim (toLowerCase username)
                  /\ findUser file name = Returned (Some user).
Proof.
  unfold findUser. intros H.
  destruct (find_entry_sound_rt _ _ _ H) as [Hin (name & Hn & Heq)].
  pose proof (loadUsers_kept_rt file user Hin) as Hc.
  split; [exact Hin|]. split; [exact Hc|]. exists name.
  rewrite (getProp_prop user "username" (has_credentials_not_null user Hc)) in Hn.
  assert (Hp : prop user "username" = Some (JStr name)) by congruence.
  split; [exact Hp|]. split; [|split; [exact Heq|]].
  - intros ->. unfold has_credentials in Hc. rewrite Hp in Hc. discriminate.
  - rewrite Heq. exact H.
Qed.

(** X15.  What [findUser] returns is an entry that [loadUsers] kept,
    missing neither user name nor password hash; its user name is a
    string that is not empty and that the runtime lower-cases and trims
    to what it makes of the name asked for; and looking up the user
    name of the record finds the same record again. *)
Theorem findUser_returns_a_matching_entry :
  forall (file : UsersFile) (username : string) (user : JSON),
    findUser file username = Returned (Some user) ->
    In user (loadUsers file)
    /\ Entry.complete user = true
    /\ exists name,
         prop user "username" = Some (JStr name)
         /\ name <> EmptyString
         /\ trim (toLowerCase name) = trim (toLowerCase username)
         /\ findUser file name = Returned (Some user).
Proof.
  intros file username user H.
  destruct (findUser_sound_rt file username user H) as (Hin & Hc & Hname).
  split; [exact Hin|]. split; [apply has_credentials_complete; exact Hc | exact Hname].
Qed.

(** The full decoder returns what the restricted one returns when the
    user name of the session resolves. *)
Lemma decodeSession_resolves file now cookie session name user :
  Edge.decodeSession now cookie = Some session ->
  getProp session "username" = Returned (Some (JStr name)) ->
  findUser file name = Returned (Some user) ->
  decodeSession file now cookie = Some session.
Proof.
  unfold decodeSession, Edge.decodeSession, decodeSession_try, Edge.decodeSession_try.
  destruct (parse (Base64.decode cookie)) as [v|]; [|discriminate].
  destruct (getProp v "username") as [vname|] eqn:Hn; [|discriminate].
  destruct (getProp v "token") as [tok|]; [|discriminate].
  destruct (getProp v "expiresAt") as [ex|]; [|discriminate].
  destruct (negb (truthy vname) || negb (truthy tok) || negb (truthy ex)); [discriminate|].
  destruct (negb (is_string vname) || negb (is_number ex)); [discriminate|].
  destruct ex as [[| |m e| | |]|]; try discriminate.
  destruct (gt_num now m e); [discriminate|].
  cbn [tryCatch]. intros [= <-] Hname. rewrite Hn in Hname. injection Hname as ->.
  intros ->. reflexivity.
Qed.

(** X30.  Logging in works end to end.  For a request that passes the
    guards of the handler and of [verifyCredentials], whose sanitized
    user name the store resolves, with no lock in force for it and the
    password the stored hash accepts, the login handler answers 200,
    deletes the lockout entry kept under the sanitized name as the
    runtime lower-cases it, and leaves a cookie; from then until one
    session duration after the creation of the session both
    [isAuthenticated] on that cookie store and the edge
    [getAuthenticatedUser] on that cookie value return the session,
    which carries the user name of the record. *)
Theorem successful_login_authenticates :
  forall (bcrypt_compare : string -> string -> bool) (file : UsersFile) (now now' t : Z)
         (bytes : string) (production : bool) (body : JSON) (username password : string)
         (user : JSON) (hash : string) (display : option string)
         (m : Attempts) (store : CookieStore),
    getProp body "username" = Returned (Some (JStr username)) ->
    getProp body "password" = Returned (Some (JStr password)) ->
    blank username = false ->
    missing password = false ->
    3 <= strlen (sanitizeInput username) <= 100 ->
    8 <= strlen password <= 128 ->
    blank (sanitizeInput username) = false ->
    unlocked (sanitizeInput username) m ->
    findUser file (sanitizeInput username) = Returned (Some user) ->
    getProp user "passwordHash" = Returned (Some (JStr hash)) ->
    bcrypt_compare password hash = true ->
    getProp user "displayName" = Returned (option_map JStr display) ->
    bytes <> EmptyString ->
    0 <= t ->
    exists response cookie session,
      login_POST (verifyCredentials bcrypt_compare file now now')
        (createSession (Returned bytes) t production (Returned store))
        (Returned body) m store
      = (response, delete (toLowerCase (sanitizeInput username)) m, Some cookie)
      /\ status response = 200
      /\ prop session "username" = prop user "username"
      /\ forall q,
           q <= t + SESSION_DURATION_MS ->
           isAuthenticated file q (Returned (Some cookie)) = Some session
           /\ Edge.getAuthenticatedUser q (Some (value cookie)) = Some session.
Proof.
  intros bc file now now' t bytes production body username password user hash display
    m store Hu Hp Hblank Hpw Hulen Hplen Hclean Hun Hfind Hhash Hok Hdisplay Hbytes Ht.
  destruct (findUser_sound_rt file _ user Hfind)
    as (_ & Hcred & name & Hname & Hne & _ & Hfind').
  assert (Hnn : user <> JNull) by (apply has_credentials_not_null; exact Hcred).
  assert (Hgu : getProp user "username" = Returned (Some (JStr name)))
    by (rewrite (getProp_prop user _ Hnn), Hname; reflexivity).
  set (clean_name := sanitizeInput username) in *.
  set (token := Base64.encode bytes).
  set (session := sessionData (Some (JStr name)) (option_map JStr display) token t).
  set (cookie := mkCookie (encodeSession session) true production "lax"
                   (t + SESSION_DURATION_MS) "/").
  eexists. exists cookie, session. split; [|split; [|split]].
  - unfold login_POST, login_try. rewrite Hu, Hp, Hblank, Hpw.
    cbn [Validation.isValidUtf8 negb orb]. fold clean_name.
    replace (strlen clean_name <? 3) with false by (symmetry; apply Z.ltb_ge; lia).
    replace (100 <? strlen clean_name) with false by (symmetry; apply Z.ltb_ge; lia).
    replace (strlen password <? 8) with false by (symmetry; apply Z.ltb_ge; lia).
    replace (128 <? strlen password) with false by (symmetry; apply Z.ltb_ge; lia).
    cbn [orb].
    rewrite (right_password_accepted_rt bc file clean_name user hash Hclean Hfind Hhash
               now now' password m Hpw Hok Hun).
    unfold createSession, generateSessionToken. rewrite Hgu, Hdisplay.
    cbn [tryCatch]. reflexivity.
  - reflexivity.
  - rewrite Hname. destruct display; reflexivity.
  - intros q Hq.
    assert (Hedge : Edge.decodeSession q (encodeSession session) = Some session).
    { unfold Edge.decodeSession, session.
      rewrite (edge_decode_encoded name display token t q Hne
                 (encode_not_empty bytes Hbytes) Ht).
      replace (t + SESSION_DURATION_MS <? q) with false
        by (symmetry; apply Z.ltb_ge; exact Hq).
      reflexivity. }
    assert (Hval : is_empty (encodeSession session) = false).
    { apply is_empty_false. apply encode_not_empty, stringify_session_not_empty. }
    split.
    + unfold isAuthenticated, cookie_value. cbn [value cookie]. rewrite Hval.
      apply (decodeSession_resolves file q _ session name user Hedge); [|exact Hfind'].
      unfold session. destruct display; reflexivity.
    + unfold Edge.getAuthenticatedUser. cbn [value cookie]. rewrite Hval. exact Hedge.
Qed.

End LookupOverRuntime.

Lemma findUser_returns_a_matching_entry_witness :
  In Scenario.alice (@Rt.loadUsers Rt.ascii Scenario.store)
  /\ Entry.complete Scenario.alice = true
  /\ exists name,
       prop Scenario.alice "username" = Some (JStr name)
       /\ name <> EmptyString
       /\ JS.trim (JS.toLowerCase name) = JS.trim (JS.toLowerCase "  ALICE ")
       /\ @Rt.findUser Rt.ascii Scenario.store name = Returned (Some Scenario.alice).
Proof.
  apply (@findUser_returns_a_matching_entry Rt.ascii Scenario.store "  ALICE "
           Scenario.alice).
  vm_compute. reflexivity.
Defined.

Lemma successful_login_authenticates_witness :
  exists response cookie session,
    @Rt.login_POST Rt.ascii
      (@Rt.verifyCredentials Rt.ascii IdealBcrypt.compare Scenario.store 1000 1300)
      (createSession (Returned SessionExample.entropy) 1400 true (Returned None))
      (Returned (JObj [("username", JStr " Alice "); ("password", JStr "pw12345678")]))
      SpellingExample.two_names None
    = (response, delete "alice" SpellingExample.two_names, Some cookie)
    /\ status response = 200
    /\ prop session "username" = prop Scenario.alice "username"
    /\ forall q,
         q <= 1400 + SESSION_DURATION_MS ->
         @Rt.isAuthenticated Rt.ascii Scenario.store q (Returned (Some cookie)) = Some session
         /\ Edge.getAuthenticatedUser q (Some (value cookie)) = Some session.
Proof.
  apply (@successful_login_authenticates Rt.ascii IdealBcrypt.compare Scenario.store
           1000 1300 1400 SessionExample.entropy true _ " Alice " "pw12345678"
           Scenario.alice (IdealBcrypt.hash "pw12345678") None
           SpellingExample.two_names None).
  - reflexivity.
  - reflexivity.
  - reflexivity.
  - reflexivity.
  - vm_compute. split; discriminate.
  - vm_compute. split; discriminate.
  - reflexivity.
  - vm_compute. reflexivity.
  - vm_compute. reflexivity.
  - reflexivity.
  - reflexivity.
  - reflexivity.
  - discriminate.
  - lia.
Defined.

(** ** What [sanitizeInput] returns *)

Section SanitizeOverRuntime.

Import Validation Clean Rt.

Context {rt : Runtime}.

Lemma all_chars_app p a b : all_chars p (a ++ b) = all_chars p a && all_chars p b.
Proof.
  induction a as [|c r IH]; [reflexivity|].
  change (all_chars p (String c r ++ b)) with (p c && all_chars p (r ++ b)).
  cbn [all_chars]. rewrite IH, andb_assoc. reflexivity.
Qed.

Lemma no_double_space_suffix a b :
  no_double_space (a ++ b) = true -> no_double_space b = true.
Proof.
  induction a as [|c r IH]; [exact id|].
  change (no_double_space (String c r ++ b))
    with (negb (is_sp c && starts_with_space (r ++ b)) && no_double_space (r ++ b)).
  intros H. apply andb_true_iff in H. apply IH. exact (proj2 H).
Qed.

Lemma no_double_space_prefix a b :
  no_double_space (a ++ b) = true -> no_double_space a = true.
Proof.
  induction a as [|c r IH]; [reflexivity|].
  change (no_double_space (String c r ++ b))
    with (negb (is_sp c && starts_with_space (r ++ b)) && no_double_space (r ++ b)).
  intros H. apply andb_true_iff in H. destruct H as [Hc Hr].
  cbn [no_double_space]. rewrite (IH Hr), andb_true_r.
  destruct r as [|d r']; [cbn [starts_with_space]; rewrite andb_false_r; reflexivity|].
  exact Hc.
Qed.

Lemma no_four_newlines_suffix a b :
  no_four_newlines (a ++ b) = true -> no_four_newlines b = true.
Proof.
  induction a as [|c r IH]; [exact id|].
  change (no_four_newlines (String c r ++ b))
    with (negb (is_lf c && three_newlines_ahead (r ++ b)) && no_four_newlines (r ++ b)).
  intros H. apply andb_true_iff in H. apply IH. exact (proj2 H).
Qed.

Lemma no_four_newlines_prefix a b :
  no_four_newlines (a ++ b) = true -> no_four_newlines a = true.
Proof.
  induction a as [|c r IH]; [reflexivity|].
  change (no_four_newlines (String c r ++ b))
    with (negb (is_lf c && three_newlines_ahead (r ++ b)) && no_four_newlines (r ++ b)).
  intros H. apply andb_true_iff in H. destruct H as [Hc Hr].
  cbn [no_four_newlines]. rewrite (IH Hr), andb_true_r.
  destruct (is_lf c); [|reflexivity].
  destruct (three_newlines_ahead r) eqn:E; [|reflexivity].
  rewrite (three_newlines_prefix r b E) in Hc. exact Hc.
Qed.

Lemma before_trim_clean s :
  all_chars plain (before_trim s) = true
  /\ no_double_space (before_trim s) = true
  /\ no_four_newlines (before_trim s) = true.
Proof.
  unfold before_trim.
  set (s1 := remove_control s). set (s2 := crlf_to_lf s1). set (s3 := cr_to_lf s2).
  set (s4 := collapse_blanks s3). set (s5 := cap_newlines s4).
  assert (H1 : all_chars (fun c => negb (is_control c)) s5 = true).
  { apply cap_newlines_all, collapse_blanks_all; [reflexivity|].
    apply cr_to_lf_all; [reflexivity|]. apply crlf_to_lf_all, remove_control_all. }
  assert (H2 : all_chars (fun c => negb (is_cr c)) s5 = true).
  { apply cap_newlines_all, collapse_blanks_all; [reflexivity|]. apply cr_to_lf_no_cr. }
  assert (H3 : all_chars (fun c => negb (is_tab c)) s5 = true)
    by apply cap_newlines_all, collapse_blanks_no_tab.
  assert (H4 : no_double_space s5 = true) by apply cap_newlines_single, collapse_blanks_single.
  assert (H5 : no_four_newlines s5 = true) by apply cap_newlines_capped.
  split; [|split; assumption].
  unfold plain. rewrite !all_chars_and, H1, H2, H3. reflexivity.
Qed.

(** X18.  [sanitizeInput] leaves clean text as it is: text with plain
    characters only, no two spaces in a row, no four newlines in a row
    and nothing for the runtime's [trim] to take away is returned
    unchanged. *)
Theorem sanitizeInput_leaves_clean_text :
  forall s : string, clean s = true -> sanitizeInput s = s.
Proof.
  intros s. unfold clean. intros H.
  apply andb_true_iff in H. destruct H as [H Htrim].
  apply andb_true_iff in H. destruct H as [H H5].
  apply andb_true_iff in H. destruct H as [Hplain H4].
  unfold plain in Hplain. rewrite !all_chars_and in Hplain.
  apply andb_true_iff in Hplain. destruct Hplain as [Hplain H3].
  apply andb_true_iff in Hplain. destruct Hplain as [H1 H2].
  unfold sanitizeInput.
  rewrite (remove_control_fixed s H1), (crlf_to_lf_fixed s H2), (cr_to_lf_fixed s H2).
  rewrite (collapse_blanks_fixed s H3 H4), (cap_newlines_fixed s H5).
  apply String.eqb_eq. exact Htrim.
Qed.

(** What is known of the runtime's [trim]: it takes characters away at
    the two ends only, and leaves nothing for a second [trim]. *)
Hypothesis trim_cuts_the_ends : forall s, exists a b, s = a ++ trim s ++ b.
Hypothesis trim_is_idempotent : forall s, trim (trim s) = trim s.

(** X17.  Whatever it is given, [sanitizeInput] returns clean text: no
    control character of the removed class, no carriage return, no tab,
    no two spaces in a row, no four newlines in a row and nothing for
    the runtime's [trim] to take away; so sanitizing twice is
    sanitizing once. *)
Theorem sanitizeInput_returns_clean_text :
  forall s : string,
    clean (sanitizeInput s) = true
    /\ sanitizeInput (sanitizeInput s) = sanitizeInput s.
Proof.
  intros s.
  assert (Hclean : clean (sanitizeInput s) = true).
  { destruct (before_trim_clean s) as (Hplain & H4 & H5).
    unfold clean, sanitizeInput. fold (before_trim s).
    destruct (trim_cuts_the_ends (before_trim s)) as (a & b & Hcut).
    rewrite Hcut in Hplain, H4, H5.
    rewrite all_chars_app in Hplain. apply andb_true_iff in Hplain.
    destruct Hplain as [_ Hplain]. rewrite all_chars_app in Hplain.
    apply andb_true_iff in Hplain. destruct Hplain as [Hplain _].
    apply no_double_space_suffix, no_double_space_prefix in H4.
    apply no_four_newlines_suffix, no_four_newlines_prefix in H5.
    rewrite Hplain, H4, H5, trim_is_idempotent, String.eqb_refl. reflexivity. }
  split; [exact Hclean|].
  unfold clean in Hclean.
  apply andb_true_iff in Hclean. destruct Hclean as [H Htrim].
  apply andb_true_iff in H. destruct H as [H H5].
  apply andb_true_iff in H. destruct H as [Hplain H4].
  unfold plain in Hplain. rewrite !all_chars_and in Hplain.
  apply andb_true_iff in Hplain. destruct Hplain as [Hplain H3].
  apply andb_true_iff in Hplain. destruct Hplain as [H1 H2].
  set (t := sanitizeInput s) in *. unfold sanitizeInput at 1.
  rewrite (remove_control_fixed t H1), (crlf_to_lf_fixed t H2), (cr_to_lf_fixed t H2).
  rewrite (collapse_blanks_fixed t H3 H4), (cap_newlines_fixed t H5).
  apply String.eqb_eq. exact Htrim.
Qed.

End SanitizeOverRuntime.

(** The ASCII [trim] takes characters away at the two ends only. *)
Lemma trimStart_suffix s : exists a, s = a ++ JS.trimStart s.
Proof.
  induction s as [|c r [a IH]]; [exists EmptyString; reflexivity|].
  cbn [JS.trimStart]. destruct (JS.is_space c).
  - exists (String c a). change (String c r = String c (a ++ JS.trimStart r)).
    f_equal. exact IH.
  - exists EmptyString. reflexivity.
Qed.

Lemma ascii_trim_cuts_the_ends s : exists a b, s = a ++ JS.trim s ++ b.
Proof.
  destruct (trimStart_suffix s) as [a Ha].
  destruct (trimEnd_prefix (JS.trimStart s)) as [b Hb].
  exists a, b. unfold JS.trim. rewrite <- Hb. exact Ha.
Qed.

Lemma sanitizeInput_leaves_clean_text_witness :
  @Rt.sanitizeInput Rt.ascii "Alice of the hills" = "Alice of the hills".
Proof.
  apply (@sanitizeInput_leaves_clean_text Rt.ascii "Alice of the hills").
  vm_compute. reflexivity.
Defined.

Lemma sanitizeInput_returns_clean_text_witness :
  @Rt.clean Rt.ascii (@Rt.sanitizeInput Rt.ascii "  two   words  ") = true
  /\ @Rt.sanitizeInput Rt.ascii (@Rt.sanitizeInput Rt.ascii "  two   words  ")
     = @Rt.sanitizeInput Rt.ascii "  two   words  ".
Proof.
  apply (@sanitizeInput_returns_clean_text Rt.ascii ascii_trim_cuts_the_ends
           trim_idempotent "  two   words  ").
Defined.

(** ** The address of the client and the optimizer's handler *)

Section OptimizeOverRuntime.

Import Rt.

Context {rt : Runtime}.

(** X21.  When [x-forwarded-for] is set and the runtime's [trim]
    leaves something of its first entry, [getClientIp] returns that
    entry as [trim] leaves it, whatever follows the first comma and
    whatever the other two headers say. *)
Theorem getClientIp_takes_the_first_forwarded_entry :
  forall (headers : Validation.Headers) (list entry rest : string),
    headers "x-forwarded-for" = Some list ->
    list = entry \/ list = entry ++ String "," rest ->
    comma_free entry = true ->
    is_empty list = false ->
    is_empty (trim entry) = false ->
    getClientIp headers = trim entry.
Proof.
  intros headers list entry rest Hget Hlist Hfree Hne Hentry.
  unfold getClientIp. rewrite Hget, Hne.
  assert (Hsplit : exists pieces, Validation.split_comma list = entry :: pieces).
  { destruct Hlist as [->| ->].
    - exists []. apply split_comma_free. exact Hfree.
    - exists (Validation.split_comma rest). apply split_comma_first. exact Hfree. }
  destruct Hsplit as [pieces ->]. cbn [map]. rewrite Hentry. reflexivity.
Qed.

(** X24.  What [POST /api/optimize] sends to the model is made of the
    request's own role and prompt, sanitized: when the handler starts
    the stream, the request body holds a role and a prompt that are
    strings and pass the guards, the prompt has a [length] of at most
    [MAX_PROMPT_LENGTH], and the message is [sanitizeInput] of the
    role and [sanitizeInput] of the prompt, trimmed, between their
    tags; the API key is set, and the limiter let the request through
    and counted it against the client address. *)
Theorem optimize_streams_only_sanitized_prompts :
  forall (PROMPT_TOO_LONG : string) (request_body : Outcome JSON)
         (headers : Validation.Headers) (now : Z) (random : Q) (api_key : option string)
         (m : RateLimit.Requests) (userMessage : string),
    fst (optimize_POST PROMPT_TOO_LONG request_body headers now random api_key m)
    = EventStream userMessage ->
    (exists body role prompt,
       request_body = Returned body
       /\ getProp body "role" = Returned (Some (JStr role))
       /\ getProp body "prompt" = Returned (Some (JStr prompt))
       /\ blank role = false /\ blank prompt = false
       /\ strlen prompt <= MAX_PROMPT_LENGTH
       /\ strlen (trim (sanitizeInput role)) <> 0
       /\ strlen (trim (sanitizeInput prompt)) <> 0
       /\ userMessage
          = tagged (trim (sanitizeInput role)) (trim (sanitizeInput prompt)))
    /\ (exists key, api_key = Some key /\ key <> EmptyString)
    /\ fst (RateLimit.isRateLimited now random (getClientIp headers) m) = false
    /\ RateLimit.getRemainingRequests now (getClientIp headers)
         (snd (optimize_POST PROMPT_TOO_LONG request_body headers now random api_key m))
       = RateLimit.getRemainingRequests now (getClientIp headers) m - 1.
Proof.
  intros msg request_body headers now random api_key m userMessage.
  unfold optimize_POST, optimize_try.
  destruct request_body as [body|e]; [|discriminate].
  destruct (getProp body "role") as [role|e] eqn:Hrole; [|discriminate].
  destruct (getProp body "prompt") as [prompt|e] eqn:Hprompt; [|discriminate].
  destruct role as [[| | |role| |]|]; try discriminate.
  destruct (blank role) eqn:Hbr; [discriminate|].
  destruct prompt as [[| | |prompt| |]|]; try discriminate.
  destruct (blank prompt) eqn:Hbp; [discriminate|].
  destruct (MAX_PROMPT_LENGTH <? strlen prompt) eqn:Hlen; [discriminate|].
  destruct (negb (Validation.isValidUtf8 role) || negb (Validation.isValidUtf8 prompt));
    [discriminate|].
  destruct ((strlen (trim (sanitizeInput role)) =? 0)
            || (strlen (trim (sanitizeInput prompt)) =? 0)) eqn:Hblank;
    [discriminate|].
  apply orb_false_iff in Hblank. destruct Hblank as [Hr Hp].
  pose proof (admitted_takes_one now random (getClientIp headers) m) as Hslot.
  destruct (RateLimit.isRateLimited now random (getClientIp headers) m)
    as [limited m1] eqn:Hl.
  destruct limited; [discriminate|].
  destruct api_key as [[|c k]|]; try discriminate.
  cbn [fst snd tryCatch] in *. intros [= <-].
  split; [|split; [|split]].
  - exists body, role, prompt.
    split; [reflexivity|]. split; [exact Hrole|]. split; [exact Hprompt|].
    split; [exact Hbr|]. split; [exact Hbp|].
    split; [apply Z.ltb_ge; exact Hlen|].
    split; [apply Z.eqb_neq; exact Hr|]. split; [apply Z.eqb_neq; exact Hp|].
    reflexivity.
  - exists (String c k). split; [reflexivity | discriminate].
  - reflexivity.
  - apply Hslot. reflexivity.
Qed.

End OptimizeOverRuntime.

Lemma getClientIp_takes_the_first_forwarded_entry_witness :
  @Rt.getClientIp Rt.ascii (OptimizeExample.forwarded " 1.2.3.4 , 5.6.7.8") = "1.2.3.4".
Proof.
  apply (@getClientIp_takes_the_first_forwarded_entry Rt.ascii
           (OptimizeExample.forwarded " 1.2.3.4 , 5.6.7.8")
           " 1.2.3.4 , 5.6.7.8" " 1.2.3.4 " " 5.6.7.8").
  - reflexivity.
  - right. reflexivity.
  - reflexivity.
  - reflexivity.
  - reflexivity.
Defined.

Lemma optimize_streams_only_sanitized_prompts_witness :
  (exists body role prompt,
     Returned OptimizeExample.body = Returned body
     /\ getProp body "role" = Returned (Some (JStr role))
     /\ getProp body "prompt" = Returned (Some (JStr prompt))
     /\ @Rt.blank Rt.ascii role = false /\ @Rt.blank Rt.ascii prompt = false
     /\ JS.strlen prompt <= MAX_PROMPT_LENGTH
     /\ JS.strlen (JS.trim (@Rt.sanitizeInput Rt.ascii role)) <> 0
     /\ JS.strlen (JS.trim (@Rt.sanitizeInput Rt.ascii prompt)) <> 0
     /\ tagged "reviewer" "check this"
        = tagged (JS.trim (@Rt.sanitizeInput Rt.ascii role))
            (JS.trim (@Rt.sanitizeInput Rt.ascii prompt)))
  /\ (exists key, Some "key" = Some key /\ key <> EmptyString)
  /\ fst (RateLimit.isRateLimited 70000 (1 # 20)
            (@Rt.getClientIp Rt.ascii (OptimizeExample.forwarded "1.2.3.4"))
            RateLimitStore.two_addresses) = false
  /\ RateLimit.getRemainingRequests 70000
       (@Rt.getClientIp Rt.ascii (OptimizeExample.forwarded "1.2.3.4"))
       (snd (@Rt.optimize_POST Rt.ascii OptimizeExample.PROMPT_TOO_LONG
               (Returned OptimizeExample.body)
               (OptimizeExample.forwarded "1.2.3.4") 70000 (1 # 20) (Some "key")
               RateLimitStore.two_addresses))
     = RateLimit.getRemainingRequests 70000
         (@Rt.getClientIp Rt.ascii (OptimizeExample.forwarded "1.2.3.4"))
         RateLimitStore.two_addresses - 1.
Proof.
  apply (@optimize_streams_only_sanitized_prompts Rt.ascii OptimizeExample.PROMPT_TOO_LONG
           (Returned OptimizeExample.body) (OptimizeExample.forwarded "1.2.3.4")
           70000 (1 # 20) (Some "key") RateLimitStore.two_addresses
           (tagged "reviewer" "check this")).
  vm_compute. reflexivity.
Defined.

(** ** The user management commands *)

Section CommandsOverRuntime.

Import ManageUsers Rt.

Context {rt : Runtime}.

Local Open Scope list_scope.

Lemma find_none_names_rt n (users : list User) :
  users_find n users = None <-> n ∉ names users.
Proof.
  unfold users_find, names. induction users as [|u rest IH]; simpl.
  - split; [intros _; apply not_elem_of_nil | reflexivity].
  - rewrite not_elem_of_cons. destruct (String.eqb (toLowerCase (username u)) n) eqn:E.
    + apply String.eqb_eq in E. split; [discriminate | intros [H _]; congruence].
    + apply String.eqb_neq in E. rewrite IH. split; [intros H; split; congruence | tauto].
Qed.

Lemma find_spliced_rt n (users : list User) :
  forall i, NoDup (names users) -> users_findIndex n users = Some i ->
            users_find n (splice i users) = None.
Proof.
  induction users as [|u rest IH]; intros i Hnd; [discriminate|].
  change (names (u :: rest)) with (toLowerCase (username u) :: names rest) in Hnd.
  apply NoDup_cons in Hnd. destruct Hnd as [Hu Hrest]. cbn [users_findIndex].
  destruct (String.eqb (toLowerCase (username u)) n) eqn:E.
  - intros [= <-]. apply String.eqb_eq in E. subst n.
    unfold splice. cbn [firstn skipn app]. apply find_none_names_rt. exact Hu.
  - destruct (users_findIndex n rest) as [j|] eqn:Hj; [|discriminate]. intros [= <-].
    change (splice (S j) (u :: rest)) with (u :: splice j rest).
    unfold users_find. cbn [List.find]. rewrite E. apply (IH j Hrest eq_refl).
Qed.

Lemma findIndex_bound_rt n (users : list User) :
  forall i, users_findIndex n users = Some i -> (i < length users)%nat.
Proof.
  induction users as [|u rest IH]; intros i; [discriminate|]. cbn [users_findIndex].
  destruct (String.eqb (toLowerCase (username u)) n); [intros [= <-]; simpl; lia|].
  destruct (users_findIndex n rest) as [j|]; [|discriminate]. intros [= <-].
  specialize (IH j eq_refl). simpl. lia.
Qed.

(** The record [removeUser] takes away is the first whose lower-cased
    name is the one asked for. *)
Lemma findIndex_names_rt n (users : list User) :
  forall i, users_findIndex n users = Some i -> names users !! i = Some n.
Proof.
  induction users as [|u rest IH]; intros i; [discriminate|]. cbn [users_findIndex].
  destruct (String.eqb (toLowerCase (username u)) n) eqn:E.
  - intros [= <-]. apply String.eqb_eq in E. simpl. rewrite E. reflexivity.
  - destruct (users_findIndex n rest) as [j|]; [|discriminate]. intros [= <-].
    apply (IH j eq_refl).
Qed.

(** X27.  [removeUser] takes away one record, and with it the name:
    from an array whose names, as the runtime lower-cases them, are
    distinct, the saved array is one record shorter, the record taken
    away carried the name asked for, and no record with that name is
    left, so the same name can be added again. *)
Theorem removed_name_is_gone :
  forall (users users' : list User) (username confirm : string),
    NoDup (names users) ->
    removeUser users username confirm = Saved users' ->
    S (length users') = length users
    /\ (exists i, names users !! i = Some (toLowerCase (trim username))
                  /\ users' = splice i users)
    /\ users_find (toLowerCase (trim username)) users' = None.
Proof.
  intros users users' u confirm Hnd. unfold removeUser.
  destruct (length users =? 0)%nat; [discriminate|].
  destruct (blank u); [discriminate|].
  destruct (users_findIndex (toLowerCase (trim u)) users) as [i|] eqn:Hi;
    [|discriminate].
  destruct (negb (String.eqb (toLowerCase confirm) "yes")); [discriminate|].
  intros [= <-]. split; [|split].
  - apply splice_length. apply (findIndex_bound_rt _ _ _ Hi).
  - exists i. split; [apply findIndex_names_rt; exact Hi | reflexivity].
  - apply find_spliced_rt; assumption.
Qed.

(** The checks [addUser] makes before it writes. *)
Lemma addUser_saved_rt (users users' : list User) u d p p' h c :
  addUser users u d p p' h c = Saved users' ->
  3 <= strlen (trim u)
  /\ users_find (toLowerCase (trim u)) users = None
  /\ 8 <= strlen p /\ p' = p
  /\ users' = users ++ [mkUser (trim u) h
                          (if is_empty (trim d) then None else Some (trim d)) (Some c) None].
Proof.
  unfold addUser.
  destruct (is_empty u || (strlen (trim u) <? 3)) eqn:Hu; [discriminate|].
  destruct (users_find (toLowerCase (trim u)) users); [discriminate|].
  destruct (is_empty p || (strlen p <? 8)) eqn:Hp; [discriminate|].
  destruct (String.eqb p p') eqn:Hpp; [|discriminate]. cbn [negb].
  intros [= <-]. apply orb_false_iff in Hu, Hp. destruct Hu as [_ Hu], Hp as [_ Hp].
  apply Z.ltb_ge in Hu, Hp. apply String.eqb_eq in Hpp.
  repeat split; try assumption. symmetry. exact Hpp.
Qed.

Lemma find_entry_passes_rt (users rest : list User) n :
  Forall (fun u => trim (toLowerCase (username u)) = toLowerCase (username u)) users ->
  users_find n users = None ->
  find_entry (map to_json (users ++ rest)) n = find_entry (map to_json rest) n.
Proof.
  unfold users_find. induction users as [|u us IH]; intros Htrim Hnone; [reflexivity|].
  inversion Htrim as [|? ? Hu Hus]; subst. cbn [List.find] in Hnone.
  destruct (String.eqb (toLowerCase (username u)) n) eqn:E; [discriminate|].
  change (map to_json ((u :: us) ++ rest)) with (to_json u :: map to_json (us ++ rest)).
  cbn [find_entry]. rewrite to_json_username, Hu, E. apply IH; assumption.
Qed.

(** X28.  A user the command line adds can be found by the login code.
    When the lower-cased names already in the array, and the
    lower-cased trimmed name that is added, have nothing for the
    runtime's [trim] to take away, and the users file holds the saved
    array, [findUser] returns the new record, with the trimmed name and
    the hash it was given, for every spelling that the login code
    normalizes to the name the command line normalized. *)
Theorem added_user_is_found :
  forall (users users' : list User)
         (username displayName password passwordConfirm passwordHash createdAt : string)
         (file : UsersFile) (spelling : string),
    Forall (fun u => trim (toLowerCase (ManageUsers.username u))
                     = toLowerCase (ManageUsers.username u)) users ->
    trim (toLowerCase (trim username)) = toLowerCase (trim username) ->
    addUser users username displayName password passwordConfirm passwordHash createdAt
    = Saved users' ->
    loadUsers file = map to_json users' ->
    trim (toLowerCase spelling) = toLowerCase (trim username) ->
    exists new,
      List.last users' new = new
      /\ ManageUsers.username new = trim username
      /\ ManageUsers.passwordHash new = passwordHash
      /\ findUser file spelling = Returned (Some (to_json new)).
Proof.
  intros users users' u d p p' h c file spelling Htrim Hnew Hadd Hfile Hsp.
  destruct (addUser_saved_rt _ _ _ _ _ _ _ _ Hadd) as (_ & Hnone & _ & _ & ->).
  eexists. split; [apply List.last_last|]. split; [reflexivity|]. split; [reflexivity|].
  unfold findUser. rewrite Hfile, Hsp.
  rewrite (find_entry_passes_rt users _ _ Htrim Hnone).
  cbn [map find_entry]. rewrite to_json_username. cbn [ManageUsers.username].
  rewrite Hnew, String.eqb_refl. reflexivity.
Qed.

End CommandsOverRuntime.

Lemma removed_name_is_gone_witness :
  S (length [ManageUsers.dave]) = length ManageUsers.two_users
  /\ (exists i, @Rt.names Rt.ascii ManageUsers.two_users !! i = Some "carol"
                /\ [ManageUsers.dave] = ManageUsers.splice i ManageUsers.two_users)
  /\ @Rt.users_find Rt.ascii "carol" [ManageUsers.dave] = None.
Proof.
  apply (@removed_name_is_gone Rt.ascii ManageUsers.two_users [ManageUsers.dave]
           " CAROL" "yes").
  - vm_compute. apply NoDup_cons. split.
    + rewrite list_elem_of_singleton. discriminate.
    + apply NoDup_singleton.
  - vm_compute. reflexivity.
Defined.

Lemma added_user_is_found_witness :
  exists new,
    List.last
      (ManageUsers.two_users
       ++ [ManageUsers.mkUser "Erin" "$2b$12$erin" None (Some "2025-02-01") None])%list
      new = new
    /\ ManageUsers.username new = "Erin"
    /\ ManageUsers.passwordHash new = "$2b$12$erin"
    /\ @Rt.findUser Rt.ascii
         (FileContent
            (stringify
               (JObj [("users",
                       JArr (map ManageUsers.to_json
                               (ManageUsers.two_users
                                ++ [ManageUsers.mkUser "Erin" "$2b$12$erin" None
                                      (Some "2025-02-01") None])%list))])))
         "ERIN "
       = Returned (Some (ManageUsers.to_json new)).
Proof.
  apply (@added_user_is_found Rt.ascii ManageUsers.two_users _ "  Erin " "  "
           "erin-secret" "erin-secret" "$2b$12$erin" "2025-02-01").
  - repeat constructor.
  - reflexivity.
  - vm_compute. reflexivity.
  - vm_compute. reflexivity.
  - vm_compute. reflexivity.
Defined.

(** ** Lengths *)

Section LengthOverRuntime.

Import Validation Clean Rt.

Context {rt : Runtime}.

Lemma unit_weight_nonneg c : 0 <= unit_weight c.
Proof.
  unfold unit_weight. destruct (JS.between 128 191 c); [lia|].
  destruct (240 <=? JS.code c)%N; lia.
Qed.

Lemma units_nonneg s : 0 <= units s.
Proof.
  induction s as [|c r IH]; [simpl; lia|]. cbn [units].
  pose proof (unit_weight_nonneg c). lia.
Qed.

Lemma units_app a b : units (a ++ b) = units a + units b.
Proof.
  induction a as [|c r IH]; [reflexivity|].
  change (units (String c r ++ b)) with (unit_weight c + units (r ++ b)).
  cbn [units]. rewrite IH. lia.
Qed.

Lemma remove_control_units s : units (remove_control s) <= units s.
Proof.
  induction s as [|c r IH]; [simpl; lia|]. cbn [remove_control units].
  pose proof (unit_weight_nonneg c).
  destruct (is_control c); cbn [units]; lia.
Qed.

Lemma crlf_to_lf_units s : units (crlf_to_lf s) <= units s.
Proof.
  induction s as [|c|c d r IHr IHd] using string_ind2; [simpl; lia | |].
  - cbn [crlf_to_lf]. destruct (JS.code c =? 13)%N; cbn [crlf_to_lf units]; lia.
  - change (crlf_to_lf (String c (String d r)))
      with (if (JS.code c =? 13)%N
            then if (JS.code d =? 10)%N then String d (crlf_to_lf r)
                 else String c (crlf_to_lf (String d r))
            else String c (crlf_to_lf (String d r))).
    pose proof (unit_weight_nonneg c).
    destruct (JS.code c =? 13)%N; [destruct (JS.code d =? 10)%N|];
      cbn [units] in *; lia.
Qed.

Lemma cr_to_lf_units s : units (cr_to_lf s) = units s.
Proof.
  induction s as [|c r IH]; [reflexivity|]. cbn [cr_to_lf units]. rewrite IH.
  destruct (JS.code c =? 13)%N eqn:E; [|reflexivity].
  apply N.eqb_eq in E. rewrite <- (byte_of_code c 13%N (eq_sym E)). reflexivity.
Qed.

Lemma blank_weight c : is_blank c = true -> unit_weight c = 1.
Proof.
  unfold is_blank. intros H. apply orb_true_iff in H.
  destruct H as [H|H]; apply N.eqb_eq in H.
  - rewrite <- (byte_of_code c 32%N (eq_sym H)). reflexivity.
  - rewrite <- (byte_of_code c 9%N (eq_sym H)). reflexivity.
Qed.

Lemma collapse_blanks_units s : units (collapse_blanks s) <= units s.
Proof.
  induction s as [|c r IH]; [simpl; lia|]. cbn [collapse_blanks].
  destruct (is_blank c) eqn:Ec.
  - assert (Hsp : forall u, units (String " " u) = 1 + units u) by reflexivity.
    assert (Hc : units (String c r) = 1 + units r)
      by (cbn [units]; rewrite (blank_weight c Ec); reflexivity).
    rewrite Hc. destruct r as [|d r'].
    + rewrite Hsp. lia.
    + destruct (is_blank d); [lia|]. rewrite Hsp. lia.
  - cbn [units]. lia.
Qed.

Lemma cap_newlines_units s : units (cap_newlines s) <= units s.
Proof.
  induction s as [|c r IH]; [simpl; lia|]. cbn [cap_newlines].
  pose proof (unit_weight_nonneg c).
  destruct ((JS.code c =? 10)%N && three_newlines_ahead r); cbn [units]; lia.
Qed.

Lemma before_trim_units s : units (before_trim s) <= units s.
Proof.
  unfold before_trim.
  pose proof (cap_newlines_units (collapse_blanks (cr_to_lf (crlf_to_lf (remove_control s))))).
  pose proof (collapse_blanks_units (cr_to_lf (crlf_to_lf (remove_control s)))).
  pose proof (cr_to_lf_units (crlf_to_lf (remove_control s))).
  pose proof (crlf_to_lf_units (remove_control s)).
  pose proof (remove_control_units s). lia.
Qed.

Hypothesis trim_cuts_the_ends : forall s, exists a b, s = a ++ trim s ++ b.

(** X19.  [sanitizeInput] never lengthens text: what it returns has
    no more UTF-16 units than what it was given, for every runtime
    whose [trim] takes characters away at the two ends only.  So where
    the runtime's [length] of the two texts is that number of units,
    text that [isValidLength] accepts is still accepted once it is
    sanitized. *)
Theorem sanitizeInput_never_lengthens :
  forall (s : string) (maxLength : Z),
    units (sanitizeInput s) <= units s
    /\ (strlen s = units s ->
        strlen (sanitizeInput s) = units (sanitizeInput s) ->
        isValidLength s maxLength = true ->
        isValidLength (sanitizeInput s) maxLength = true).
Proof.
  intros s maxLength.
  assert (H : units (sanitizeInput s) <= units s).
  { unfold sanitizeInput. fold (before_trim s).
    destruct (trim_cuts_the_ends (before_trim s)) as (a & b & Hcut).
    pose proof (before_trim_units s) as Hb. rewrite Hcut in Hb at 1.
    rewrite !units_app in Hb.
    pose proof (units_nonneg a). pose proof (units_nonneg b). lia. }
  split; [exact H|]. unfold isValidLength. intros -> -> Hok.
  apply Z.leb_le in Hok. apply Z.leb_le. lia.
Qed.

End LengthOverRuntime.

Lemma sanitizeInput_never_lengthens_witness :
  units (@Rt.sanitizeInput Rt.ascii "  two   words  ") <= units "  two   words  "
  /\ (@Rt.isValidLength Rt.ascii "  two   words  " 20 = true ->
      @Rt.isValidLength Rt.ascii (@Rt.sanitizeInput Rt.ascii "  two   words  ") 20 = true).
Proof.
  destruct (@sanitizeInput_never_lengthens Rt.ascii ascii_trim_cuts_the_ends
              "  two   words  " 20) as [Hunits Hvalid].
  split; [exact Hunits|]. apply Hvalid; reflexivity.
Defined.
